(** * The MSSQL database plugin (plugins/database/mssql/mssql.go)

    A shallow embedding of the credential lifecycle of the MSSQL plugin:
    [NewUser], [UpdateUser]/[updateUserPass], [DeleteUser] and
    [revokeUserDefault].  Every call the plugin makes to a collaborator
    (the connection producer and its mutex, database/sql, dbtxn, credsutil)
    is a node of a finite tree of calls; [run] plays such a tree against an
    arbitrary, history-dependent environment and returns the result together
    with the log of the calls that were made. *)

From Stdlib Require Import ZArith String Ascii List Bool Lia DecimalString.
From stdpp Require Import base option list gmap strings.

Local Open Scope string_scope.
Local Open Scope list_scope.

Set Default Proof Using "Type".

(** ** Go's [strings] and [fmt] as far as the plugin uses them *)

Definition nl : string := String (ascii_of_nat 10) EmptyString.

(** [fmt.Sprintf("%d", n)] *)
Definition fmt_d (n : Z) : string := NilZero.string_of_int (Z.to_int n).

(** Bytes for which Go's [asciiSpace] table is set: tab, line feed, vertical
    tab, form feed, carriage return and space. *)
Definition asciiSpace (c : ascii) : bool :=
  let n := nat_of_ascii c in
  (n =? 9)%nat || (n =? 10)%nat || (n =? 11)%nat || (n =? 12)%nat ||
  (n =? 13)%nat || (n =? 32)%nat.

(** The UTF-8 encodings of the other runes of [unicode.IsSpace]:
    U+0085 and U+00A0 take two bytes; U+1680, U+2000..U+200A, U+2028,
    U+2029, U+202F, U+205F and U+3000 take three. *)
Definition space2 (a b : ascii) : bool :=
  (nat_of_ascii a =? 194)%nat &&
  ((nat_of_ascii b =? 133)%nat || (nat_of_ascii b =? 160)%nat).

Definition space3 (a b c : ascii) : bool :=
  let x := nat_of_ascii a in
  let y := nat_of_ascii b in
  let z := nat_of_ascii c in
  ((x =? 225)%nat && (y =? 154)%nat && (z =? 128)%nat) ||
  ((x =? 226)%nat && (y =? 128)%nat &&
     (((128 <=? z)%nat && (z <=? 138)%nat) || (z =? 168)%nat ||
      (z =? 169)%nat || (z =? 175)%nat)) ||
  ((x =? 226)%nat && (y =? 129)%nat && (z =? 159)%nat) ||
  ((x =? 227)%nat && (y =? 128)%nat && (z =? 128)%nat).

(** Drop white-space runes from the front of a byte sequence.  [sp2] and
    [sp3] recognise the two- and three-byte runes in the order in which the
    bytes are met, so that the same function serves both ends. *)
Fixpoint trim_go (sp2 : ascii -> ascii -> bool)
    (sp3 : ascii -> ascii -> ascii -> bool) (l : list ascii) : list ascii :=
  match l with
  | [] => []
  | a :: l1 =>
    if asciiSpace a then trim_go sp2 sp3 l1
    else match l1 with
         | [] => l
         | b :: l2 =>
           if sp2 a b then trim_go sp2 sp3 l2
           else match l2 with
                | [] => l
                | c :: l3 => if sp3 a b c then trim_go sp2 sp3 l3 else l
                end
         end
  end.

Definition TrimLeft (l : list ascii) : list ascii := trim_go space2 space3 l.

Definition TrimRight (l : list ascii) : list ascii :=
  rev (trim_go (fun a b => space2 b a) (fun a b c => space3 c b a) (rev l)).

(** [strings.TrimSpace] *)
Definition TrimSpace (s : string) : string :=
  string_of_list_ascii (TrimRight (TrimLeft (list_ascii_of_string s))).

(** Whether a byte sequence starts with a white-space rune. *)
Definition lead (sp2 : ascii -> ascii -> bool)
    (sp3 : ascii -> ascii -> ascii -> bool) (l : list ascii) : bool :=
  match l with
  | [] => false
  | a :: l1 =>
    asciiSpace a ||
    match l1 with
    | [] => false
    | b :: l2 =>
      sp2 a b ||
      match l2 with
      | [] => false
      | c :: _ => sp3 a b c
      end
    end
  end.

(** Byte sequences that consist of white-space runes only. *)
Inductive white : list ascii -> Prop :=
| white_nil : white []
| white_ascii a l : asciiSpace a = true -> white l -> white (a :: l)
| white_two a b l : space2 a b = true -> white l -> white (a :: b :: l)
| white_three a b c l :
    space3 a b c = true -> white l -> white (a :: b :: c :: l).

(** Whether a string starts, or ends, with a white-space rune. *)
Definition starts_white (s : string) : bool :=
  lead space2 space3 (list_ascii_of_string s).

Definition ends_white (s : string) : bool :=
  lead (fun a b => space2 b a) (fun a b c => space3 c b a)
       (rev (list_ascii_of_string s)).

(** [strings.Split(s, sep)] for a non-empty separator: cut at each
    occurrence of [sep], scanning from the left; [skip] counts the bytes of
    a separator just met that are still to be passed over, [acc] holds the
    current piece backwards. *)
Fixpoint split_go (sep : string) (skip : nat) (acc : string) (s : string)
    : list string :=
  match s with
  | EmptyString => [String.rev acc]
  | String c s' =>
    match skip with
    | S n => split_go sep n acc s'
    | O =>
      if String.prefix sep s
      then String.rev acc :: split_go sep (String.length sep - 1) EmptyString s'
      else split_go sep 0 (String c acc) s'
    end
  end.

Definition Split (s sep : string) : list string := split_go sep 0 EmptyString s.

(** [strings.Join] *)
Fixpoint Join (l : list string) (sep : string) : string :=
  match l with
  | [] => EmptyString
  | [x] => x
  | x :: l' => x ++ sep ++ Join l' sep
  end.

(** [strings.Replace(s, old, new, -1)] for a non-empty [old]. *)
Fixpoint replace_go (old new : string) (skip : nat) (s : string) : string :=
  match s with
  | EmptyString => EmptyString
  | String c s' =>
    match skip with
    | S n => replace_go old new n s'
    | O =>
      if String.prefix old s
      then new ++ replace_go old new (String.length old - 1) s'
      else String c (replace_go old new 0 s')
    end
  end.

Definition ReplaceAll (s old new : string) : string :=
  match old with
  | EmptyString => s
  | _ => replace_go old new 0 s
  end.

Module strutil.

(** Modelled from the spec: [strutil.ParseArbitraryStringSlice] (package
    sdk/helper/strutil) is not among the sources.  The specification gives
    its contract for the plugin in 4.1, "Splitting rule: split on [;]":
    the template is cut at every separator, and trimming and the discarding
    of empty pieces are left to the caller's loop. *)
Definition ParseArbitraryStringSlice (input sep : string) : list string :=
  Split input sep.

End strutil.

(** ** Errors *)

(** Error values that come out of a collaborator: [sql.ErrNoRows], or any
    other error of the driver, the connection producer or the username
    generator, known only by its text. *)
Inductive collab_error : Type :=
| ErrNoRows
| ErrOther (msg : string).

(** Error values as the plugin builds and returns them. *)
#[warnings="-register-all"]
Inductive error : Type :=
| Ext (e : collab_error)
| ErrEmptyCreationStatement            (* dbutil.ErrEmptyCreationStatement *)
| ErrorsNew (msg : string)             (* errors.New, fmt.Errorf without verb *)
| Errorf_w (format : string) (err : error) (* fmt.Errorf(format, err), one %w *)
| Wrapf (format : string) (err : error) (* errwrap.Wrapf(format, err) *)
| MultiError (errs : list error).      (* *multierror.Error *)

Module multierror.

(** [multierror.Append(merr, err)] on the list of collected errors: an
    appended [*multierror.Error] is flattened, any other error is one more
    entry. *)
Definition Append (errs : list error) (err : error) : list error :=
  match err with
  | MultiError es => errs ++ es
  | _ => errs ++ [err]
  end.

(** [merr.ErrorOrNil()] *)
Definition ErrorOrNil (errs : list error) : option error :=
  match errs with
  | [] => None
  | _ => Some (MultiError errs)
  end.

End multierror.

(** ** Data of database/sql and newdbplugin *)

Record NullString := { String_ : string; Valid : bool }.

(** One row of [sp_msloginmappings] as scanned by [revokeUserDefault]. *)
Record mapping_row := {
  loginName : NullString;
  dbName : NullString;
  qUsername : NullString;
  aliasName : NullString
}.

(** A result set: the outcome of [Scan] for each row that [Next] delivers,
    in order, and the error that [Err] reports once [Next] has returned
    false. *)
Record Rows (A : Type) := {
  rows_scan : list (collab_error + A);
  rows_err : option collab_error
}.
Arguments rows_scan {A} _.
Arguments rows_err {A} _.

Abbreviation Placeholders := (gmap string string).
Abbreviation Config := (gmap string string).

(** ** Calls to collaborators *)

Inductive dbE : Type -> Type :=
| Lock : dbE unit                               (* m.Lock() *)
| Unlock : dbE unit                             (* m.Unlock() *)
| Init (conf : Config) (verify : bool) : dbE (collab_error + Config)
| Connection : dbE (option collab_error)        (* m.Connection(ctx) *)
| GenerateUsername (displayName : string) (displayLen : nat)
    (roleName : string) (roleLen : nat) (maxLen : nat) (sep : string)
    : dbE (collab_error + string)
| BeginTx : dbE (option collab_error)
| ExecuteTxQuery (m : Placeholders) (query : string) : dbE (option collab_error)
| Commit : dbE (option collab_error)
| Rollback : dbE (option collab_error)
| ExecuteDBQuery (m : Placeholders) (query : string) : dbE (option collab_error)
| PrepareContext (query : string) : dbE (option collab_error)
| ExecContext (query : string) : dbE (option collab_error)
| QuerySessions (query arg : string) : dbE (collab_error + Rows Z)
| QueryMappings (query arg : string) : dbE (collab_error + Rows mapping_row)
| QueryRowScan (query arg : string) : dbE (option collab_error)
| StmtClose (query : string) : dbE unit
| RowsClose (query : string) : dbE unit.

(** A finite tree of calls ending in a result. *)
Inductive Prog (R : Type) : Type :=
| Ret (r : R)
| Vis {X : Type} (e : dbE X) (k : X -> Prog R).
Arguments Ret {R} r.
Arguments Vis {R X} e k.

Fixpoint bind {A B : Type} (p : Prog A) (f : A -> Prog B) : Prog B :=
  match p with
  | Ret a => f a
  | Vis e k => Vis e (fun x => bind (k x) f)
  end.

Definition call {X : Type} (e : dbE X) : Prog X := Vis e Ret.

Declare Scope prog_scope.
Delimit Scope prog_scope with prog.
Bind Scope prog_scope with Prog.
Notation "'let*' x ':=' p 'in' q" := (bind p (fun x => q))
  (at level 10, x name, p at level 100, q at level 200) : prog_scope.
Local Open Scope prog_scope.

(** Go's [defer]: [d] runs when [body] returns, whatever it returns. *)
Definition defer {X R : Type} (d : dbE X) (body : Prog R) : Prog R :=
  let* r := body in let* _ := call d in Ret r.

(** One entry of the call log: the call and what it answered. *)
Inductive event : Type :=
| Ev {X : Type} (e : dbE X) (x : X).

(** An environment answers each call, knowing everything that went before. *)
Definition env : Type := forall X : Type, list event -> dbE X -> X.

Fixpoint run {R : Type} (h : env) (p : Prog R) (hist : list event)
    : R * list event :=
  match p with
  | Ret r => (r, [])
  | Vis e k =>
    let x := h _ hist e in
    let '(r, t) := run h (k x) (hist ++ [Ev e x]) in
    (r, Ev e x :: t)
  end.

(** [for _, x := range l { body }] where the body may return from the
    enclosing function with an error: [Some err] is that return, [None]
    lets the loop go on. *)
Fixpoint for_range {A : Type} (l : list A) (body : A -> Prog (option error))
    : Prog (option error) :=
  match l with
  | [] => Ret None
  | x :: l' =>
    let* r := body x in
    match r with
    | Some err => Ret (Some err)
    | None => for_range l' body
    end
  end.

(** [for _, x := range l { body }] where the body updates a local variable
    and never leaves the loop. *)
Fixpoint for_fold {A S : Type} (l : list A) (s : S) (body : S -> A -> Prog S)
    : Prog S :=
  match l with
  | [] => Ret s
  | x :: l' => let* s' := body s x in for_fold l' s' body
  end.

(** ** The SQL of the plugin *)

(** [fmt.Sprintf("ALTER LOGIN [%s] DISABLE;", username)] *)
Definition disableLoginSQL (username : string) : string :=
  "ALTER LOGIN [" +:+ username +:+ "] DISABLE;".

Definition sessionsSQL : string :=
  "SELECT session_id FROM sys.dm_exec_sessions WHERE login_name = @p1;".

Definition loginMappingsSQL : string := "EXEC master.dbo.sp_msloginmappings @p1;".

Definition principalExistsSQL : string :=
  "SELECT 1 FROM master.sys.server_principals where name = N'$1'".

(** [fmt.Sprintf("KILL %d;", sessionID)] *)
Definition killSQL (sessionID : Z) : string := "KILL " +:+ fmt_d sessionID +:+ ";".

(** [fmt.Sprintf(dropUserSQL, db, username, username)] *)
Definition dropUserSQL (db u1 u2 : string) : string :=
  nl +:+ "USE [" +:+ db +:+ "]" +:+ nl +:+
  "IF EXISTS" +:+ nl +:+
  "  (SELECT name" +:+ nl +:+
  "   FROM sys.database_principals" +:+ nl +:+
  "   WHERE name = N'" +:+ u1 +:+ "')" +:+ nl +:+
  "BEGIN" +:+ nl +:+
  "  DROP USER [" +:+ u2 +:+ "]" +:+ nl +:+
  "END" +:+ nl.

(** [fmt.Sprintf(dropLoginSQL, username, username)] *)
Definition dropLoginSQL (u1 u2 : string) : string :=
  nl +:+ "IF EXISTS" +:+ nl +:+
  "  (SELECT name" +:+ nl +:+
  "   FROM master.sys.server_principals" +:+ nl +:+
  "   WHERE name = N'" +:+ u1 +:+ "')" +:+ nl +:+
  "BEGIN" +:+ nl +:+
  "  DROP LOGIN [" +:+ u2 +:+ "]" +:+ nl +:+
  "END" +:+ nl.

Definition alterLoginSQL : string :=
  nl +:+ "ALTER LOGIN [{{username}}] WITH PASSWORD = '{{password}}' " +:+ nl.

Definition msSQLTypeName : string := "mssql".

Arguments disableLoginSQL : simpl never.
Arguments killSQL : simpl never.
Arguments dropUserSQL : simpl never.
Arguments dropLoginSQL : simpl never.
Arguments sessionsSQL : simpl never.
Arguments loginMappingsSQL : simpl never.
Arguments principalExistsSQL : simpl never.
Arguments alterLoginSQL : simpl never.

(** ** Requests and responses (package newdbplugin) *)

Record Statements := { Commands : list string }.

Record UsernameMetadata := { DisplayName : string; RoleName : string }.

Record NewUserRequest (Time : Type) := {
  UsernameConfig : UsernameMetadata;
  NewUser_Statements : Statements;
  RollbackStatements : Statements;
  NewUser_Password : string;
  NewUser_Expiration : Time
}.
Arguments UsernameConfig {Time} _.
Arguments NewUser_Statements {Time} _.
Arguments RollbackStatements {Time} _.
Arguments NewUser_Password {Time} _.
Arguments NewUser_Expiration {Time} _.

Record NewUserResponse := { Username : string }.

Record ChangePassword := {
  NewPassword : string;
  ChangePassword_Statements : Statements
}.

Record ChangeExpiration (Time : Type) := {
  NewExpiration : Time;
  ChangeExpiration_Statements : Statements
}.
Arguments NewExpiration {Time} _.
Arguments ChangeExpiration_Statements {Time} _.

Record UpdateUserRequest (Time : Type) := {
  UpdateUser_Username : string;
  UpdateUser_Password : option ChangePassword;        (* nil is None *)
  UpdateUser_Expiration : option (ChangeExpiration Time)
}.
Arguments UpdateUser_Username {Time} _.
Arguments UpdateUser_Password {Time} _.
Arguments UpdateUser_Expiration {Time} _.

Inductive UpdateUserResponse := Build_UpdateUserResponse.

Record DeleteUserRequest := {
  DeleteUser_Username : string;
  DeleteUser_Statements : Statements
}.

Inductive DeleteUserResponse := Build_DeleteUserResponse.

Record InitializeRequest := {
  Initialize_Config : Config;
  VerifyConnection : bool
}.

Record InitializeResponse := { Response_Config : Config }.

(** The fields of [connutil.SQLConnectionProducer] that the plugin reads. *)
Record SQLConnectionProducer := { Type_ : string; Password : string }.

Record MSSQL := { Producer : SQLConnectionProducer }.

(** ** The plugin *)

Section Plugin.

(** [time.Time] and its [Format] method. *)
Variable Time : Type.
Variable Format : Time -> string -> string.

(** [strutil.ParseArbitraryStringSlice], of which the plugin only needs
    that it turns a template and a separator into a list of pieces. *)
Variable ParseArbitraryStringSlice : string -> string -> list string.

Definition new : MSSQL :=
  {| Producer := {| Type_ := msSQLTypeName; Password := "" |} |}.

Definition Type' : string * option error := (msSQLTypeName, None).

Definition secretValues (m : MSSQL) : gmap string string :=
  {[ Password (Producer m) := "[password]" ]}.

Definition getConnection : Prog (option collab_error) := call Connection.

Definition Initialize (req : InitializeRequest)
    : Prog (InitializeResponse * option error) :=
  let* r := call (Init (Initialize_Config req) (VerifyConnection req)) in
  match r with
  | inl err => Ret ({| Response_Config := ∅ |}, Some (Ext err))
  | inr newConf => Ret ({| Response_Config := newConf |}, None)
  end.

Definition NewUser (req : NewUserRequest Time)
    : Prog (NewUserResponse * option error) :=
  let* _ := call Lock in
  defer Unlock (
    let* r := getConnection in
    match r with
    | Some err =>
      Ret ({| Username := "" |},
           Some (Errorf_w "unable to get connection: %w" (Ext err)))
    | None =>
      if (length (Commands (NewUser_Statements req)) =? 0)%nat
      then Ret ({| Username := "" |}, Some ErrEmptyCreationStatement)
      else
        let* r := call (GenerateUsername
                          (DisplayName (UsernameConfig req)) 20
                          (RoleName (UsernameConfig req)) 20
                          128 "-") in
        match r with
        | inl err => Ret ({| Username := "" |}, Some (Ext err))
        | inr username =>
          let expirationStr :=
            Format (NewUser_Expiration req) "2006-01-02 15:04:05-0700" in
          let* r := call BeginTx in
          match r with
          | Some err => Ret ({| Username := "" |}, Some (Ext err))
          | None =>
            defer Rollback (
              let* r :=
                for_range (Commands (NewUser_Statements req)) (fun stmt =>
                  for_range (ParseArbitraryStringSlice stmt ";") (fun query =>
                    let query := TrimSpace query in
                    if (String.length query =? 0)%nat then Ret None
                    else
                      let m : Placeholders :=
                        <[ "name" := username ]>
                          (<[ "password" := NewUser_Password req ]>
                             {[ "expiration" := expirationStr ]}) in
                      let* r := call (ExecuteTxQuery m query) in
                      match r with
                      | Some err => Ret (Some (Ext err))
                      | None => Ret None
                      end)) in
              match r with
              | Some err => Ret ({| Username := "" |}, Some err)
              | None =>
                let* r := call Commit in
                match r with
                | Some err => Ret ({| Username := "" |}, Some (Ext err))
                | None => Ret ({| Username := username |}, None)
                end
              end)
          end
        end
    end).

(** The loop of [revokeUserDefault] over the session rows. *)
Fixpoint scanSessions (rows : list (collab_error + Z))
    (revokeStmts : list string) : collab_error + list string :=
  match rows with
  | [] => inr revokeStmts
  | inl err :: _ => inl err
  | inr sessionID :: rows' =>
    scanSessions rows' (revokeStmts ++ [killSQL sessionID])
  end.

(** The loop of [revokeUserDefault] over the login-mapping rows. *)
Fixpoint scanMappings (username : string)
    (rows : list (collab_error + mapping_row))
    (revokeStmts : list string) : collab_error + list string :=
  match rows with
  | [] => inr revokeStmts
  | inl err :: _ => inl err
  | inr row :: rows' =>
    if negb (Valid (dbName row)) then scanMappings username rows' revokeStmts
    else scanMappings username rows'
           (revokeStmts ++
              [dropUserSQL (String_ (dbName row)) username username])
  end.

Definition revokeUserDefault (username : string) : Prog (option error) :=
  let* r := getConnection in
  match r with
  | Some err => Ret (Some (Ext err))
  | None =>
  let* r := call (PrepareContext (disableLoginSQL username)) in
  match r with
  | Some err => Ret (Some (Ext err))
  | None =>
  defer (StmtClose (disableLoginSQL username)) (
    let* r := call (ExecContext (disableLoginSQL username)) in
    match r with
    | Some err => Ret (Some (Ext err))
    | None =>
    let* r := call (PrepareContext sessionsSQL) in
    match r with
    | Some err => Ret (Some (Ext err))
    | None =>
    defer (StmtClose sessionsSQL) (
      let* r := call (QuerySessions sessionsSQL username) in
      match r with
      | inl err => Ret (Some (Ext err))
      | inr sessionRows =>
      defer (RowsClose sessionsSQL) (
        match scanSessions (rows_scan sessionRows) [] with
        | inl err => Ret (Some (Ext err))
        | inr revokeStmts =>
        let* r := call (PrepareContext loginMappingsSQL) in
        match r with
        | Some err => Ret (Some (Ext err))
        | None =>
        defer (StmtClose loginMappingsSQL) (
          let* r := call (QueryMappings loginMappingsSQL username) in
          match r with
          | inl err => Ret (Some (Ext err))
          | inr rows =>
          defer (RowsClose loginMappingsSQL) (
            match scanMappings username (rows_scan rows) revokeStmts with
            | inl err => Ret (Some (Ext err))
            | inr revokeStmts =>
            let* lastStmtError :=
              for_fold revokeStmts None (fun lastStmtError query =>
                let* r := call (ExecuteDBQuery ∅ query) in
                match r with
                | Some err => Ret (Some err)
                | None => Ret lastStmtError
                end) in
            match rows_err rows with
            | Some err =>
              Ret (Some (Wrapf
                "could not generate sql statements for all rows: {{err}}"
                (Ext err)))
            | None =>
            match lastStmtError with
            | Some err =>
              Ret (Some (Wrapf
                "could not perform all sql statements: {{err}}" (Ext err)))
            | None =>
            let* r := call (PrepareContext (dropLoginSQL username username)) in
            match r with
            | Some err => Ret (Some (Ext err))
            | None =>
            defer (StmtClose (dropLoginSQL username username)) (
              let* r := call (ExecContext (dropLoginSQL username username)) in
              match r with
              | Some err => Ret (Some (Ext err))
              | None => Ret None
              end)
            end end end end)
          end)
        end end)
      end)
    end end)
  end end.

Definition DeleteUser (req : DeleteUserRequest)
    : Prog (DeleteUserResponse * option error) :=
  if (length (Commands (DeleteUser_Statements req)) =? 0)%nat
  then
    let* err := revokeUserDefault (DeleteUser_Username req) in
    Ret (Build_DeleteUserResponse, err)
  else
    let* r := getConnection in
    match r with
    | Some err =>
      Ret (Build_DeleteUserResponse,
           Some (Errorf_w "unable to get connection: %w" (Ext err)))
    | None =>
      let* merr :=
        for_fold (Commands (DeleteUser_Statements req)) [] (fun merr stmt =>
          for_fold (ParseArbitraryStringSlice stmt ";") merr (fun merr query =>
            let query := TrimSpace query in
            if (String.length query =? 0)%nat then Ret merr
            else
              let m : Placeholders :=
                {[ "name" := DeleteUser_Username req ]} in
              let* r := call (ExecuteDBQuery m query) in
              match r with
              | Some err => Ret (multierror.Append merr (Ext err))
              | None => Ret merr
              end)) in
      Ret (Build_DeleteUserResponse, multierror.ErrorOrNil merr)
    end.

Definition updateUserPass (username : string) (changePass : ChangePassword)
    : Prog (option error) :=
  let stmts := Commands (ChangePassword_Statements changePass) in
  let stmts := if (length stmts =? 0)%nat then [alterLoginSQL] else stmts in
  let password := NewPassword changePass in
  if String.eqb username "" || String.eqb password ""
  then Ret (Some (ErrorsNew "must provide both username and password"))
  else
    let* _ := call Lock in
    defer Unlock (
      let* r := getConnection in
      match r with
      | Some err => Ret (Some (Ext err))
      | None =>
        let* r := call (QueryRowScan principalExistsSQL username) in
        match r with
        | Some (ErrOther msg) => Ret (Some (Ext (ErrOther msg)))
        | Some ErrNoRows | None =>
          let* r := call BeginTx in
          match r with
          | Some err => Ret (Some (Ext err))
          | None =>
            defer Rollback (
              let* r :=
                for_range stmts (fun stmt =>
                  for_range (ParseArbitraryStringSlice stmt ";") (fun query =>
                    let query := TrimSpace query in
                    if (String.length query =? 0)%nat then Ret None
                    else
                      let m : Placeholders :=
                        <[ "name" := username ]>
                          (<[ "username" := username ]>
                             {[ "password" := password ]}) in
                      let* r := call (ExecuteTxQuery m query) in
                      match r with
                      | Some err =>
                        Ret (Some (Errorf_w "failed to execute query: %w"
                                     (Ext err)))
                      | None => Ret None
                      end)) in
              match r with
              | Some err => Ret (Some err)
              | None =>
                let* r := call Commit in
                match r with
                | Some err =>
                  Ret (Some (Errorf_w "failed to commit transaction: %w"
                               (Ext err)))
                | None => Ret None
                end
              end)
          end
        end
      end).

Definition UpdateUser (req : UpdateUserRequest Time)
    : Prog (UpdateUserResponse * option error) :=
  if bool_decide (UpdateUser_Password req = None) &&
     bool_decide (UpdateUser_Expiration req = None)
  then Ret (Build_UpdateUserResponse, Some (ErrorsNew "no changes requested"))
  else
    match UpdateUser_Password req with
    | Some changePass =>
      let* err := updateUserPass (UpdateUser_Username req) changePass in
      Ret (Build_UpdateUserResponse, err)
    | None =>
      (* Expiration is a no-op *)
      Ret (Build_UpdateUserResponse, None)
    end.

End Plugin.

(** ** The text of an error *)

Definition tab : string := String (ascii_of_nat 9) EmptyString.

(** [err.Error()]: [fmt.Errorf] and [errwrap.Wrapf] put the text of the
    inner error in place of their verb; [multierror] lists its entries. *)
Fixpoint Error (err : error) : string :=
  match err with
  | Ext ErrNoRows => "sql: no rows in result set"
  | Ext (ErrOther msg) => msg
  | ErrEmptyCreationStatement => "empty creation statements"
  | ErrorsNew msg => msg
  | Errorf_w format err => ReplaceAll format "%w" (Error err)
  | Wrapf format err => ReplaceAll format "{{err}}" (Error err)
  | MultiError errs =>
    fmt_d (Z.of_nat (length errs)) +:+
    (if (length errs =? 1)%nat then " error occurred:" else " errors occurred:")
    +:+ nl +:+ tab +:+
    Join (List.map (fun err => "* " +:+ Error err) errs) (nl +:+ tab) +:+
    nl +:+ nl
  end.

(** ** The plugin behind the error-sanitizing middleware *)

(** The interface [newdbplugin.Database], as far as the plugin implements
    it in this file. *)
Record Database (Time : Type) := {
  Database_Initialize :
    InitializeRequest -> Prog (InitializeResponse * option error);
  Database_NewUser :
    NewUserRequest Time -> Prog (NewUserResponse * option error);
  Database_UpdateUser :
    UpdateUserRequest Time -> Prog (UpdateUserResponse * option error);
  Database_DeleteUser :
    DeleteUserRequest -> Prog (DeleteUserResponse * option error);
  Database_Type : string * option error
}.
Arguments Database_Initialize {Time} _.
Arguments Database_NewUser {Time} _.
Arguments Database_UpdateUser {Time} _.
Arguments Database_DeleteUser {Time} _.
Arguments Database_Type {Time} _.

Module newdbplugin.

(** Modelled from the spec: the error-sanitizing middleware of package
    sdk/database/newdbplugin is not among the sources.  The specification
    (6 and 7) has the wrapper of the core apply a secret-value map to the
    text of every error before it leaves the process, so that each secret
    is redacted: every occurrence of a key of the map is replaced by its
    value, and the error surfaced carries the resulting text. *)
Definition sanitize (secrets : gmap string string) (err : error) : error :=
  ErrorsNew
    (map_fold (fun find replace text => ReplaceAll text find replace)
              (Error err) secrets).

(** Modelled from the spec: see [sanitize]; the middleware passes every
    operation on to the wrapped database and sanitizes the error it
    returns, reading the secrets at that moment. *)
Definition NewDatabaseErrorSanitizerMiddleware {Time : Type}
    (next : Database Time) (secretsFn : unit -> gmap string string)
    : Database Time :=
  let sanitized {R : Type} (op : Prog (R * option error))
      : Prog (R * option error) :=
    bind op (fun r => Ret (r.1, sanitize (secretsFn tt) <$> r.2)) in
  {| Database_Initialize := fun req => sanitized (Database_Initialize next req);
     Database_NewUser := fun req => sanitized (Database_NewUser next req);
     Database_UpdateUser := fun req => sanitized (Database_UpdateUser next req);
     Database_DeleteUser := fun req => sanitized (Database_DeleteUser next req);
     Database_Type :=
       ((Database_Type next).1,
        sanitize (secretsFn tt) <$> (Database_Type next).2) |}.

End newdbplugin.

Section Constructor.

Variable Time : Type.
Variable Format : Time -> string -> string.
Variable ParseArbitraryStringSlice : string -> string -> list string.

(** The methods of [*MSSQL] as a [Database]. *)
Definition MSSQL_Database : Database Time := {|
  Database_Initialize := Initialize;
  Database_NewUser := NewUser Time Format ParseArbitraryStringSlice;
  Database_UpdateUser := UpdateUser Time ParseArbitraryStringSlice;
  Database_DeleteUser := DeleteUser ParseArbitraryStringSlice;
  Database_Type := Type'
|}.

(** [New()]: the plugin wrapped with the middleware and its own
    [secretValues].  [m] stands for the plugin value that both share;
    [secretValues] reads its [Password] when an error is sanitized, after
    [Init] has set it. *)
Definition New (m : MSSQL) : Database Time :=
  newdbplugin.NewDatabaseErrorSanitizerMiddleware
    MSSQL_Database (fun _ => secretValues m).

End Constructor.

(** ** Reading the call log *)

(** The statements handed to [dbtxn.ExecuteTxQuery], with their placeholder
    maps and outcomes, in the order of the calls. *)
Definition tx_exec (ev : event) : option (Placeholders * string * option collab_error) :=
  match ev with
  | @Ev X e x =>
    match e in dbE X return X -> _ with
    | ExecuteTxQuery m q => fun r => Some (m, q, r)
    | _ => fun _ => None
    end x
  end.

(** The statements handed to [dbtxn.ExecuteDBQuery]. *)
Definition db_exec (ev : event) : option (Placeholders * string * option collab_error) :=
  match ev with
  | @Ev X e x =>
    match e in dbE X return X -> _ with
    | ExecuteDBQuery m q => fun r => Some (m, q, r)
    | _ => fun _ => None
    end x
  end.

Definition is_lock (ev : event) : bool :=
  match ev with
  | Ev Lock _ | Ev Unlock _ => true
  | _ => false
  end.

Definition is_commit (ev : event) : bool :=
  match ev with
  | Ev Commit _ => true
  | _ => false
  end.

(** Calls that open or use a transaction or run a statement or a query. *)
Definition is_sql (ev : event) : bool :=
  match ev with
  | Ev BeginTx _ | Ev (ExecuteTxQuery _ _) _ | Ev Commit _ | Ev Rollback _
  | Ev (ExecuteDBQuery _ _) _ | Ev (PrepareContext _) _ | Ev (ExecContext _) _
  | Ev (QuerySessions _ _) _ | Ev (QueryMappings _ _) _
  | Ev (QueryRowScan _ _) _ => true
  | _ => false
  end.

(** The answers to [tx.Commit()]. *)
Definition commit_of (ev : event) : option (option collab_error) :=
  match ev with
  | @Ev X e x =>
    match e in dbE X return X -> _ with
    | Commit => fun r => Some r
    | _ => fun _ => None
    end x
  end.

(** The answers to [credsutil.GenerateUsername]. *)
Definition generated_of (ev : event) : option (collab_error + string) :=
  match ev with
  | @Ev X e x =>
    match e in dbE X return X -> _ with
    | GenerateUsername _ _ _ _ _ _ => fun r => Some r
    | _ => fun _ => None
    end x
  end.

(** The texts handed to [db.PrepareContext]. *)
Definition prepared_of (ev : event) : option string :=
  match ev with
  | Ev (PrepareContext query) _ => Some query
  | _ => None
  end.

(** The result sets of the login-mapping query. *)
Definition mappings_of (ev : event) : option (Rows mapping_row) :=
  match ev with
  | @Ev X e x =>
    match e in dbE X return X -> _ with
    | QueryMappings _ _ =>
      fun r => match r with inr rows => Some rows | inl _ => None end
    | _ => fun _ => None
    end x
  end.

(** The result sets of the session query. *)
Definition sessions_of (ev : event) : option (Rows Z) :=
  match ev with
  | @Ev X e x =>
    match e in dbE X return X -> _ with
    | QuerySessions _ _ =>
      fun r => match r with inr rows => Some rows | inl _ => None end
    | _ => fun _ => None
    end x
  end.

Definition tx_execs (tr : list event) := omap tx_exec tr.
Definition db_execs (tr : list event) := omap db_exec tr.

(** The errors of the statements that failed, in order. *)
Definition failures (l : list (Placeholders * string * option collab_error))
    : list collab_error :=
  omap snd l.

(** ** The pieces of a template that reach the body of a statement loop:
    trimmed, and skipped when nothing is left. *)
Definition queries_of (Parse : string -> string -> list string)
    (stmt : string) : list string :=
  filter (fun q => (String.length q =? 0)%nat = false)
         (map TrimSpace (Parse stmt ";")).

Section Batches.

Variable h : env.

(** A batch inside a transaction: statements run in order until one fails. *)
Fixpoint run_tx_queries (m : Placeholders) (qs : list string)
    (hist : list event) : option collab_error * list event :=
  match qs with
  | [] => (None, [])
  | q :: qs' =>
    match h _ hist (ExecuteTxQuery m q) with
    | Some err => (Some err, [Ev (ExecuteTxQuery m q) (Some err)])
    | None =>
      let '(r, t) :=
        run_tx_queries m qs' (hist ++ [Ev (ExecuteTxQuery m q) None]) in
      (r, Ev (ExecuteTxQuery m q) None :: t)
    end
  end.

(** A best-effort batch: the answer to every statement, in order. *)
Fixpoint db_answers (m : Placeholders) (qs : list string)
    (hist : list event) : list (option collab_error) :=
  match qs with
  | [] => []
  | q :: qs' =>
    let r := h _ hist (ExecuteDBQuery m q) in
    r :: db_answers m qs' (hist ++ [Ev (ExecuteDBQuery m q) r])
  end.

Definition db_events (m : Placeholders) (qs : list string)
    (rs : list (option collab_error)) : list event :=
  zip_with (fun q r => Ev (ExecuteDBQuery m q) r) qs rs.

(** The log of a run of statements that all succeeded in a transaction. *)
Definition tx_ok (m : Placeholders) (qs : list string) : list event :=
  map (fun q => Ev (ExecuteTxQuery m q) None) qs.

End Batches.

(** The rows of a result set that were scanned without error. *)
Definition scanned {A : Type} (rows : list (collab_error + A)) : list A :=
  omap (fun x => match x with inr a => Some a | inl _ => None end) rows.

(** The databases named by the valid [dbName] columns of the mapping rows. *)
Definition mapped_dbs (rows : list (collab_error + mapping_row)) : list string :=
  omap (fun row : mapping_row =>
          if Valid (dbName row) then Some (String_ (dbName row)) else None)
       (scanned rows).

(** The statements that the default revocation synthesizes from the two
    result sets: a kill for every session, then a drop for every database
    in which the login has a user. *)
Definition cleanup_statements (username : string) (sessionRows : Rows Z)
    (rows : Rows mapping_row) : list string :=
  (killSQL <$> scanned (rows_scan sessionRows)) ++
  ((fun db => dropUserSQL db username username) <$>
     mapped_dbs (rows_scan rows)).

(** The two ways a run of [revokeUserDefault] can go.  Either it returns
    early with the error of a collaborator, before any synthesized
    statement is attempted ... *)
Definition revoke_returned_early (username : string) (err : option error)
    (tr : list event) : Prop :=
  (exists e, err = Some (Ext e)) /\
  db_execs tr = [] /\
  (dropLoginSQL username username ∉ omap prepared_of tr) /\
  (omap mappings_of tr = [] \/
   exists rows e, omap mappings_of tr = [rows] /\ inl e ∈ rows_scan rows).

(** ... or both result sets were scanned and every synthesized statement
    was attempted, with answers [rs]; the login is then dropped only if the
    mapping rows reported no error and no statement failed. *)
Definition revoke_cleaned_up (username : string) (err : option error)
    (tr : list event) : Prop :=
  exists sessionRows rows rs,
    omap sessions_of tr = [sessionRows] /\
    omap mappings_of tr = [rows] /\
    (forall e, inl e ∉ rows_scan rows) /\
    length rs = length (cleanup_statements username sessionRows rows) /\
    db_execs tr =
      zip_with (fun q r => (∅, q, r))
               (cleanup_statements username sessionRows rows) rs /\
    match rows_err rows, last (omap id rs) with
    | Some e, _ =>
      err = Some (Wrapf
        "could not generate sql statements for all rows: {{err}}" (Ext e)) /\
      dropLoginSQL username username ∉ omap prepared_of tr
    | None, Some e =>
      err = Some (Wrapf
        "could not perform all sql statements: {{err}}" (Ext e)) /\
      dropLoginSQL username username ∉ omap prepared_of tr
    | None, None =>
      dropLoginSQL username username ∈ omap prepared_of tr
    end.

(** ** The lock, and calls running side by side *)

(** Whether a call takes the mutex of the connection producer
    ([Some true]), releases it ([Some false]) or leaves it alone. *)
Definition lock_kind {X : Type} (e : dbE X) : option bool :=
  match e with
  | Lock => Some true
  | Unlock => Some false
  | _ => None
  end.

Definition finished {R : Type} (p : Prog R) : Prop :=
  match p with
  | Ret _ => True
  | Vis _ _ => False
  end.

(** [p] never touches the mutex. *)
Fixpoint lock_free {R : Type} (p : Prog R) : Prop :=
  match p with
  | Ret _ => True
  | Vis e k => lock_kind e = None /\ forall x, lock_free (k x)
  end.

(** [p] runs with the mutex held: whatever the answers, it makes calls
    that leave the mutex alone, then releases it, and returns. *)
Fixpoint in_section {R : Type} (p : Prog R) : Prop :=
  match p with
  | Ret _ => False
  | Vis e k =>
    match lock_kind e with
    | Some true => False
    | Some false => forall x, finished (k x)
    | None => forall x, in_section (k x)
    end
  end.

(** [p] makes no call at all, or takes the mutex first and then runs with
    the mutex held. *)
Definition guarded {R : Type} (p : Prog R) : Prop :=
  match p with
  | Ret _ => True
  | Vis e k => lock_kind e = Some true /\ forall x, in_section (k x)
  end.

(** A call in progress: what is left of its program. *)
Definition thread : Type := { R : Type & Prog R }.

(** Callers running side by side on one plugin: what is left of each call,
    who holds the mutex, and the calls made so far, each with its caller. *)
Record world := {
  threads : list thread;
  holder : option nat;
  log : list (nat * event)
}.

(** [sync.Mutex]: [Lock] waits until the mutex is free. *)
Definition may_run {X : Type} (e : dbE X) (hd : option nat) : Prop :=
  match lock_kind e with
  | Some true => hd = None
  | _ => True
  end.

Definition next_holder {X : Type} (e : dbE X) (i : nat) (hd : option nat)
    : option nat :=
  match lock_kind e with
  | Some true => Some i
  | Some false => None
  | None => hd
  end.

(** One caller makes its next call and gets some answer. *)
Inductive step : world -> world -> Prop :=
| step_call (w : world) (i : nat) (R X : Type) (e : dbE X)
    (k : X -> Prog R) (x : X) :
    threads w !! i = Some (existT R (Vis e k)) ->
    may_run e (holder w) ->
    step w {| threads := <[ i := existT R (k x) ]> (threads w);
              holder := next_holder e i (holder w);
              log := log w ++ [(i, Ev e x)] |}.

(** Who holds the mutex after the calls of a log. *)
Definition holder_of (l : list (nat * event)) : option nat :=
  foldl (fun hd entry =>
           match entry.2 with
           | @Ev X e _ => next_holder e entry.1 hd
           end) None l.

Definition start (pool : list thread) : world :=
  {| threads := pool; holder := None; log := [] |}.

(** What the invariant of the lock says of one caller: a caller that
    takes the mutex either runs with the mutex held and is the holder, or
    is outside its section and is not the holder; a caller that does not
    take the mutex never touches it. *)
Definition thread_ok (exclusive : bool) (hd : option nat) (i : nat)
    (t : thread) : Prop :=
  if exclusive
  then (in_section (projT2 t) /\ hd = Some i) \/
       (guarded (projT2 t) /\ hd <> Some i)
  else lock_free (projT2 t).

Definition lock_invariant (cls : nat -> bool) (w : world) : Prop :=
  holder_of (log w) = holder w /\
  (forall i t, threads w !! i = Some t -> thread_ok (cls i) (holder w) i t) /\
  (forall pre i ev post,
      log w = pre ++ (i, ev) :: post ->
      if cls i then is_lock ev = false -> holder_of pre = Some i
      else is_lock ev = false).

Section Calls.

Variable Time : Type.
Variable Format : Time -> string -> string.
Variable ParseArbitraryStringSlice : string -> string -> list string.

(** The calls that callers make on the plugin side by side, and whether the
    call is one that takes the mutex. *)
Inductive plugin_call : bool -> thread -> Prop :=
| call_NewUser (req : NewUserRequest Time) :
    plugin_call true
      (existT _ (NewUser Time Format ParseArbitraryStringSlice req))
| call_UpdateUser (req : UpdateUserRequest Time) :
    plugin_call true
      (existT _ (UpdateUser Time ParseArbitraryStringSlice req))
| call_DeleteUser (req : DeleteUserRequest) :
    plugin_call false (existT _ (DeleteUser ParseArbitraryStringSlice req)).

End Calls.

(** ** The runs of the operations, case by case *)

Section Outcomes.

Variable Time : Type.
Variable Format : Time -> string -> string.
Variable ParseArbitraryStringSlice : string -> string -> list string.

(** The placeholder map that [NewUser] builds for a generated username. *)
Definition NewUser_map (req : NewUserRequest Time) (username : string)
    : Placeholders :=
  <[ "name" := username ]>
    (<[ "password" := NewUser_Password req ]>
       {[ "expiration" :=
            Format (NewUser_Expiration req) "2006-01-02 15:04:05-0700" ]}).

(** The calls of [NewUser] up to the opening of the transaction. *)
Definition NewUser_opening (req : NewUserRequest Time) (username : string)
    : list event :=
  [Ev Lock tt; Ev Connection None;
   Ev (GenerateUsername (DisplayName (UsernameConfig req)) 20
                        (RoleName (UsernameConfig req)) 20 128 "-")
      (inr username);
   Ev BeginTx None].

(** The seven ways a run of [NewUser] can go, each with what is returned
    and the calls that were made. *)
Inductive NewUser_runs (req : NewUserRequest Time)
    : NewUserResponse * option error -> list event -> Prop :=
| NewUser_no_connection cerr :
    NewUser_runs req
      ({| Username := "" |},
       Some (Errorf_w "unable to get connection: %w" (Ext cerr)))
      [Ev Lock tt; Ev Connection (Some cerr); Ev Unlock tt]
| NewUser_no_commands :
    Commands (NewUser_Statements req) = [] ->
    NewUser_runs req
      ({| Username := "" |}, Some ErrEmptyCreationStatement)
      [Ev Lock tt; Ev Connection None; Ev Unlock tt]
| NewUser_no_username gerr :
    Commands (NewUser_Statements req) <> [] ->
    NewUser_runs req
      ({| Username := "" |}, Some (Ext gerr))
      [Ev Lock tt; Ev Connection None;
       Ev (GenerateUsername (DisplayName (UsernameConfig req)) 20
                            (RoleName (UsernameConfig req)) 20 128 "-")
          (inl gerr);
       Ev Unlock tt]
| NewUser_no_transaction username berr :
    Commands (NewUser_Statements req) <> [] ->
    NewUser_runs req
      ({| Username := "" |}, Some (Ext berr))
      [Ev Lock tt; Ev Connection None;
       Ev (GenerateUsername (DisplayName (UsernameConfig req)) 20
                            (RoleName (UsernameConfig req)) 20 128 "-")
          (inr username);
       Ev BeginTx (Some berr); Ev Unlock tt]
| NewUser_statement_failed username pre q post err rb :
    Commands (NewUser_Statements req) <> [] ->
    flat_map (queries_of ParseArbitraryStringSlice)
             (Commands (NewUser_Statements req)) = pre ++ q :: post ->
    NewUser_runs req
      ({| Username := "" |}, Some (Ext err))
      (NewUser_opening req username ++
       tx_ok (NewUser_map req username) pre ++
       [Ev (ExecuteTxQuery (NewUser_map req username) q) (Some err);
        Ev Rollback rb; Ev Unlock tt])
| NewUser_commit_failed username cerr rb :
    Commands (NewUser_Statements req) <> [] ->
    NewUser_runs req
      ({| Username := "" |}, Some (Ext cerr))
      (NewUser_opening req username ++
       tx_ok (NewUser_map req username)
             (flat_map (queries_of ParseArbitraryStringSlice)
                       (Commands (NewUser_Statements req))) ++
       [Ev Commit (Some cerr); Ev Rollback rb; Ev Unlock tt])
| NewUser_created username rb :
    Commands (NewUser_Statements req) <> [] ->
    NewUser_runs req
      ({| Username := username |}, None)
      (NewUser_opening req username ++
       tx_ok (NewUser_map req username)
             (flat_map (queries_of ParseArbitraryStringSlice)
                       (Commands (NewUser_Statements req))) ++
       [Ev Commit None; Ev Rollback rb; Ev Unlock tt]).

(** The statement templates that [updateUserPass] runs. *)
Definition updateUserPass_stmts (changePass : ChangePassword) : list string :=
  if (length (Commands (ChangePassword_Statements changePass)) =? 0)%nat
  then [alterLoginSQL]
  else Commands (ChangePassword_Statements changePass).

(** The placeholder map that [updateUserPass] builds. *)
Definition updateUserPass_map (username : string)
    (changePass : ChangePassword) : Placeholders :=
  <[ "name" := username ]>
    (<[ "username" := username ]>
       {[ "password" := NewPassword changePass ]}).

(** The answers to the probe for the principal that let [updateUserPass]
    go on: a row, or [sql.ErrNoRows]. *)
Definition probe_passes (probe : option collab_error) : Prop :=
  probe = None \/ probe = Some ErrNoRows.

(** The calls of [updateUserPass] up to the opening of the transaction. *)
Definition updateUserPass_opening (username : string)
    (probe : option collab_error) : list event :=
  [Ev Lock tt; Ev Connection None;
   Ev (QueryRowScan principalExistsSQL username) probe;
   Ev BeginTx None].

(** The seven ways a run of [updateUserPass] can go. *)
Inductive updateUserPass_runs (username : string)
    (changePass : ChangePassword) : option error -> list event -> Prop :=
| rotate_invalid :
    username = "" \/ NewPassword changePass = "" ->
    updateUserPass_runs username changePass
      (Some (ErrorsNew "must provide both username and password")) []
| rotate_no_connection cerr :
    username <> "" -> NewPassword changePass <> "" ->
    updateUserPass_runs username changePass
      (Some (Ext cerr))
      [Ev Lock tt; Ev Connection (Some cerr); Ev Unlock tt]
| rotate_probe_failed msg :
    username <> "" -> NewPassword changePass <> "" ->
    updateUserPass_runs username changePass
      (Some (Ext (ErrOther msg)))
      [Ev Lock tt; Ev Connection None;
       Ev (QueryRowScan principalExistsSQL username) (Some (ErrOther msg));
       Ev Unlock tt]
| rotate_no_transaction probe berr :
    username <> "" -> NewPassword changePass <> "" ->
    probe_passes probe ->
    updateUserPass_runs username changePass
      (Some (Ext berr))
      [Ev Lock tt; Ev Connection None;
       Ev (QueryRowScan principalExistsSQL username) probe;
       Ev BeginTx (Some berr); Ev Unlock tt]
| rotate_statement_failed probe pre q post err rb :
    username <> "" -> NewPassword changePass <> "" ->
    probe_passes probe ->
    flat_map (queries_of ParseArbitraryStringSlice)
             (updateUserPass_stmts changePass) = pre ++ q :: post ->
    updateUserPass_runs username changePass
      (Some (Errorf_w "failed to execute query: %w" (Ext err)))
      (updateUserPass_opening username probe ++
       tx_ok (updateUserPass_map username changePass) pre ++
       [Ev (ExecuteTxQuery (updateUserPass_map username changePass) q)
           (Some err);
        Ev Rollback rb; Ev Unlock tt])
| rotate_commit_failed probe cerr rb :
    username <> "" -> NewPassword changePass <> "" ->
    probe_passes probe ->
    updateUserPass_runs username changePass
      (Some (Errorf_w "failed to commit transaction: %w" (Ext cerr)))
      (updateUserPass_opening username probe ++
       tx_ok (updateUserPass_map username changePass)
             (flat_map (queries_of ParseArbitraryStringSlice)
                       (updateUserPass_stmts changePass)) ++
       [Ev Commit (Some cerr); Ev Rollback rb; Ev Unlock tt])
| rotate_done probe rb :
    username <> "" -> NewPassword changePass <> "" ->
    probe_passes probe ->
    updateUserPass_runs username changePass None
      (updateUserPass_opening username probe ++
       tx_ok (updateUserPass_map username changePass)
             (flat_map (queries_of ParseArbitraryStringSlice)
                       (updateUserPass_stmts changePass)) ++
       [Ev Commit None; Ev Rollback rb; Ev Unlock tt]).

End Outcomes.

(** ** The runs of the default revocation *)

(** The calls of [revokeUserDefault] up to the disabling of the login, and
    the deferred close that answers them. *)
Definition revoke_disabled (username : string) : list event :=
  [Ev Connection None;
   Ev (PrepareContext (disableLoginSQL username)) None;
   Ev (ExecContext (disableLoginSQL username)) None].

Definition close_disable (username : string) : list event :=
  [Ev (StmtClose (disableLoginSQL username)) tt].

(** ... up to the rows of the sessions ... *)
Definition revoke_sessions (username : string) (sessionRows : Rows Z)
    : list event :=
  revoke_disabled username ++
  [Ev (PrepareContext sessionsSQL) None;
   Ev (QuerySessions sessionsSQL username) (inr sessionRows)].

Definition close_sessions (username : string) : list event :=
  [Ev (RowsClose sessionsSQL) tt; Ev (StmtClose sessionsSQL) tt] ++
  close_disable username.

(** ... and up to the rows of the login mappings. *)
Definition revoke_mappings (username : string) (sessionRows : Rows Z)
    (rows : Rows mapping_row) : list event :=
  revoke_sessions username sessionRows ++
  [Ev (PrepareContext loginMappingsSQL) None;
   Ev (QueryMappings loginMappingsSQL username) (inr rows)].

Definition close_mappings (username : string) : list event :=
  [Ev (RowsClose loginMappingsSQL) tt; Ev (StmtClose loginMappingsSQL) tt] ++
  close_sessions username.

(** The fourteen ways a run of [revokeUserDefault] can go, one for each
    [return] of the function, with the error returned and the calls made. *)
Inductive revoke_runs (username : string)
    : option error -> list event -> Prop :=
| revoke_no_connection e :
    revoke_runs username (Some (Ext e)) [Ev Connection (Some e)]
| revoke_disable_unprepared e :
    revoke_runs username (Some (Ext e))
      [Ev Connection None;
       Ev (PrepareContext (disableLoginSQL username)) (Some e)]
| revoke_not_disabled e :
    revoke_runs username (Some (Ext e))
      ([Ev Connection None;
        Ev (PrepareContext (disableLoginSQL username)) None;
        Ev (ExecContext (disableLoginSQL username)) (Some e)] ++
       close_disable username)
| revoke_sessions_unprepared e :
    revoke_runs username (Some (Ext e))
      (revoke_disabled username ++
       [Ev (PrepareContext sessionsSQL) (Some e)] ++
       close_disable username)
| revoke_sessions_unqueried e :
    revoke_runs username (Some (Ext e))
      (revoke_disabled username ++
       [Ev (PrepareContext sessionsSQL) None;
        Ev (QuerySessions sessionsSQL username) (inl e);
        Ev (StmtClose sessionsSQL) tt] ++
       close_disable username)
| revoke_session_unscanned sessionRows e :
    scanSessions (rows_scan sessionRows) [] = inl e ->
    revoke_runs username (Some (Ext e))
      (revoke_sessions username sessionRows ++ close_sessions username)
| revoke_mappings_unprepared sessionRows kills e :
    scanSessions (rows_scan sessionRows) [] = inr kills ->
    revoke_runs username (Some (Ext e))
      (revoke_sessions username sessionRows ++
       [Ev (PrepareContext loginMappingsSQL) (Some e)] ++
       close_sessions username)
| revoke_mappings_unqueried sessionRows kills e :
    scanSessions (rows_scan sessionRows) [] = inr kills ->
    revoke_runs username (Some (Ext e))
      (revoke_sessions username sessionRows ++
       [Ev (PrepareContext loginMappingsSQL) None;
        Ev (QueryMappings loginMappingsSQL username) (inl e);
        Ev (StmtClose loginMappingsSQL) tt] ++
       close_sessions username)
| revoke_mapping_unscanned sessionRows kills rows e :
    scanSessions (rows_scan sessionRows) [] = inr kills ->
    scanMappings username (rows_scan rows) kills = inl e ->
    revoke_runs username (Some (Ext e))
      (revoke_mappings username sessionRows rows ++ close_mappings username)
| revoke_rows_broken sessionRows kills rows stmts rs e :
    scanSessions (rows_scan sessionRows) [] = inr kills ->
    scanMappings username (rows_scan rows) kills = inr stmts ->
    length rs = length stmts ->
    rows_err rows = Some e ->
    revoke_runs username
      (Some (Wrapf "could not generate sql statements for all rows: {{err}}"
                   (Ext e)))
      (revoke_mappings username sessionRows rows ++
       db_events ∅ stmts rs ++ close_mappings username)
| revoke_statement_failed sessionRows kills rows stmts rs e :
    scanSessions (rows_scan sessionRows) [] = inr kills ->
    scanMappings username (rows_scan rows) kills = inr stmts ->
    length rs = length stmts ->
    rows_err rows = None ->
    last (omap id rs) = Some e ->
    revoke_runs username
      (Some (Wrapf "could not perform all sql statements: {{err}}" (Ext e)))
      (revoke_mappings username sessionRows rows ++
       db_events ∅ stmts rs ++ close_mappings username)
| revoke_login_unprepared sessionRows kills rows stmts e :
    scanSessions (rows_scan sessionRows) [] = inr kills ->
    scanMappings username (rows_scan rows) kills = inr stmts ->
    rows_err rows = None ->
    revoke_runs username (Some (Ext e))
      (revoke_mappings username sessionRows rows ++
       db_events ∅ stmts (replicate (length stmts) None) ++
       [Ev (PrepareContext (dropLoginSQL username username)) (Some e)] ++
       close_mappings username)
| revoke_login_not_dropped sessionRows kills rows stmts e :
    scanSessions (rows_scan sessionRows) [] = inr kills ->
    scanMappings username (rows_scan rows) kills = inr stmts ->
    rows_err rows = None ->
    revoke_runs username (Some (Ext e))
      (revoke_mappings username sessionRows rows ++
       db_events ∅ stmts (replicate (length stmts) None) ++
       [Ev (PrepareContext (dropLoginSQL username username)) None;
        Ev (ExecContext (dropLoginSQL username username)) (Some e);
        Ev (StmtClose (dropLoginSQL username username)) tt] ++
       close_mappings username)
| revoke_done sessionRows kills rows stmts :
    scanSessions (rows_scan sessionRows) [] = inr kills ->
    scanMappings username (rows_scan rows) kills = inr stmts ->
    rows_err rows = None ->
    revoke_runs username None
      (revoke_mappings username sessionRows rows ++
       db_events ∅ stmts (replicate (length stmts) None) ++
       [Ev (PrepareContext (dropLoginSQL username username)) None;
        Ev (ExecContext (dropLoginSQL username username)) None;
        Ev (StmtClose (dropLoginSQL username username)) tt] ++
       close_mappings username).

(** The answers to [db.BeginTx]. *)
Definition begin_of (ev : event) : option (option collab_error) :=
  match ev with
  | @Ev X e x =>
    match e in dbE X return X -> _ with
    | BeginTx => fun r => Some r
    | _ => fun _ => None
    end x
  end.

(** The answers to [tx.Rollback]. *)
Definition rollback_of (ev : event) : option (option collab_error) :=
  match ev with
  | @Ev X e x =>
    match e in dbE X return X -> _ with
    | Rollback => fun r => Some r
    | _ => fun _ => None
    end x
  end.

(** The answers to [m.Connection]. *)
Definition connection_of (ev : event) : option (option collab_error) :=
  match ev with
  | @Ev X e x =>
    match e in dbE X return X -> _ with
    | Connection => fun r => Some r
    | _ => fun _ => None
    end x
  end.

(** The answers to the probe for the principal. *)
Definition probe_of (ev : event) : option (option collab_error) :=
  match ev with
  | @Ev X e x =>
    match e in dbE X return X -> _ with
    | QueryRowScan _ _ => fun r => Some r
    | _ => fun _ => None
    end x
  end.

(** The texts handed to [db.PrepareContext], with the outcome. *)
Definition prepare_of (ev : event) : option (string * option collab_error) :=
  match ev with
  | @Ev X e x =>
    match e in dbE X return X -> _ with
    | PrepareContext q => fun r => Some (q, r)
    | _ => fun _ => None
    end x
  end.

(** The statements run with [stmt.ExecContext], with the outcome. *)
Definition exec_of (ev : event) : option (string * option collab_error) :=
  match ev with
  | @Ev X e x =>
    match e in dbE X return X -> _ with
    | ExecContext q => fun r => Some (q, r)
    | _ => fun _ => None
    end x
  end.

(** The errors of [stmt.QueryContext]. *)
Definition query_failure_of (ev : event) : option collab_error :=
  match ev with
  | @Ev X e x =>
    match e in dbE X return X -> _ with
    | QuerySessions _ _ =>
      fun r => match r with inl err => Some err | inr _ => None end
    | QueryMappings _ _ =>
      fun r => match r with inl err => Some err | inr _ => None end
    | _ => fun _ => None
    end x
  end.

(** What [revokeUserDefault] opens and defers the close of: prepared
    statements and result sets, named by the text of their query. *)
Inductive resource :=
| Statement (query : string)
| ResultSet (query : string).

Definition opened_of (ev : event) : option resource :=
  match ev with
  | @Ev X e x =>
    match e in dbE X return X -> _ with
    | PrepareContext q =>
      fun r => match r with None => Some (Statement q) | Some _ => None end
    | QuerySessions q _ =>
      fun r => match r with inr _ => Some (ResultSet q) | inl _ => None end
    | QueryMappings q _ =>
      fun r => match r with inr _ => Some (ResultSet q) | inl _ => None end
    | _ => fun _ => None
    end x
  end.

Definition closed_of (ev : event) : option resource :=
  match ev with
  | Ev (StmtClose q) _ => Some (Statement q)
  | Ev (RowsClose q) _ => Some (ResultSet q)
  | _ => None
  end.

(** Calls that work on the connection itself, outside any transaction:
    statements run at once, prepared statements and their result sets. *)
Definition is_direct (ev : event) : bool :=
  match ev with
  | Ev (ExecuteDBQuery _ _) _ | Ev (PrepareContext _) _ | Ev (ExecContext _) _
  | Ev (QuerySessions _ _) _ | Ev (QueryMappings _ _) _
  | Ev (StmtClose _) _ | Ev (RowsClose _) _ => true
  | _ => false
  end.

(** Calls that run a statement or a query outside any transaction: the
    direct calls, and the probe [db.QueryRowContext(...).Scan]. *)
Definition outside_transaction (ev : event) : bool :=
  is_direct ev ||
  match ev with
  | Ev (QueryRowScan _ _) _ => true
  | _ => false
  end.

(** An entry of a call log holds an answer of the environment. *)
Definition answered_by (h : env) (ev : event) : Prop :=
  match ev with
  | @Ev X e x => exists hist, x = h X hist e
  end.

(** An environment in which nothing that a create or an update asks for
    fails: the connection is there, a username is generated, transactions
    open and commit, and every statement is accepted. *)
Definition transactions_succeed (h : env) : Prop :=
  forall hist,
    h _ hist Connection = None /\
    h _ hist BeginTx = None /\
    h _ hist Commit = None /\
    (forall m q, h _ hist (ExecuteTxQuery m q) = None) /\
    (forall d dl r rl ml sep,
        exists username,
          h _ hist (GenerateUsername d dl r rl ml sep) = inr username) /\
    (forall q arg, probe_passes (h _ hist (QueryRowScan q arg))).

(** An environment in which nothing that the default revocation asks for
    fails: the connection is there, every statement is prepared and
    accepted, both queries give rows that can all be scanned, and the
    mapping rows report no error at their end.  Nothing is asked of the
    error that the session rows report at their end. *)
Definition revocation_succeeds (h : env) : Prop :=
  forall hist,
    h _ hist Connection = None /\
    (forall q, h _ hist (PrepareContext q) = None) /\
    (forall q, h _ hist (ExecContext q) = None) /\
    (forall m q, h _ hist (ExecuteDBQuery m q) = None) /\
    (forall q arg,
        exists rows,
          h _ hist (QuerySessions q arg) = inr rows /\
          forall e, inl e ∉ rows_scan rows) /\
    (forall q arg,
        exists rows,
          h _ hist (QueryMappings q arg) = inr rows /\
          (forall e, inl e ∉ rows_scan rows) /\
          rows_err rows = None).

(** The answers that such an environment gives, call by call. *)
Definition lets_revoke (ev : event) : Prop :=
  match ev with
  | @Ev X e x =>
    match e in dbE X return X -> Prop with
    | Connection => fun r => r = None
    | PrepareContext _ => fun r => r = None
    | ExecContext _ => fun r => r = None
    | ExecuteDBQuery _ _ => fun r => r = None
    | QuerySessions _ _ =>
      fun r => exists rows, r = inr rows /\ forall e, inl e ∉ rows_scan rows
    | QueryMappings _ _ =>
      fun r =>
        exists rows,
          r = inr rows /\ (forall e, inl e ∉ rows_scan rows) /\
          rows_err rows = None
    | _ => fun _ => True
    end x
  end.

(** ** Properties of runs *)

(** [post h p hist Q]: played against [h] after [hist], the program [p]
    returns a result and a call log that satisfy [Q]. *)
Definition post {R : Type} (h : env) (p : Prog R) (hist : list event)
    (Q : R -> list event -> Prop) : Prop :=
  let '(r, t) := run h p hist in Q r t.

(** ** Environments and requests for worked cases *)

(** A database that answers by a fixed script, whatever went before. *)
Record script := {
  on_connection : option collab_error;
  on_username : collab_error + string;
  on_begin : option collab_error;
  rejected : list string;          (* statements the database refuses *)
  on_commit : option collab_error;
  on_sessions : collab_error + Rows Z;
  on_mappings : collab_error + Rows mapping_row;
  on_probe : option collab_error
}.

Definition refuse (bad : list string) (query : string) : option collab_error :=
  if bool_decide (query ∈ bad)
  then Some (ErrOther ("rejected: " +:+ query)) else None.

Definition scripted (sc : script) : env := fun X hist e =>
  match e in dbE X return X with
  | Lock => tt
  | Unlock => tt
  | Init conf _ => inr conf
  | Connection => on_connection sc
  | GenerateUsername _ _ _ _ _ _ => on_username sc
  | BeginTx => on_begin sc
  | ExecuteTxQuery _ query => refuse (rejected sc) query
  | Commit => on_commit sc
  | Rollback => None
  | ExecuteDBQuery _ query => refuse (rejected sc) query
  | PrepareContext _ => None
  | ExecContext query => refuse (rejected sc) query
  | QuerySessions _ _ => on_sessions sc
  | QueryMappings _ _ => on_mappings sc
  | QueryRowScan _ _ => on_probe sc
  | StmtClose _ => tt
  | RowsClose _ => tt
  end.

Definition healthy : script := {|
  on_connection := None;
  on_username := inr "v-app-svc-x7";
  on_begin := None;
  rejected := [];
  on_commit := None;
  on_sessions := inr {| rows_scan := []; rows_err := None |};
  on_mappings := inr {| rows_scan := []; rows_err := None |};
  on_probe := None
|}.

(** The connection producer cannot reach the server. *)
Definition unreachable : script := {|
  on_connection := Some (ErrOther "connection refused");
  on_username := on_username healthy;
  on_begin := None;
  rejected := [];
  on_commit := None;
  on_sessions := on_sessions healthy;
  on_mappings := on_mappings healthy;
  on_probe := None
|}.

(** Times as seconds since the epoch, printed as such. *)
Definition seconds_Format (t : Z) (layout : string) : string := fmt_d t.

Definition request_without_statements : NewUserRequest Z := {|
  UsernameConfig := {| DisplayName := "app"; RoleName := "svc" |};
  NewUser_Statements := {| Commands := [] |};
  RollbackStatements := {| Commands := [] |};
  NewUser_Password := "P@ss1";
  NewUser_Expiration := 1900000000%Z
|}.

Definition request_two_statements : NewUserRequest Z := {|
  UsernameConfig := {| DisplayName := "app"; RoleName := "svc" |};
  NewUser_Statements := {| Commands :=
    ["CREATE LOGIN [{{name}}] WITH PASSWORD='{{password}}'; CREATE USER [{{name}}] FOR LOGIN [{{name}}];"] |};
  RollbackStatements := {| Commands := [] |};
  NewUser_Password := "P@ss1";
  NewUser_Expiration := 1900000000%Z
|}.

(** The database refuses to create the user for the new login. *)
Definition refusing_create_user : script := {|
  on_connection := None;
  on_username := on_username healthy;
  on_begin := None;
  rejected := ["CREATE USER [{{name}}] FOR LOGIN [{{name}}]"];
  on_commit := None;
  on_sessions := on_sessions healthy;
  on_mappings := on_mappings healthy;
  on_probe := None
|}.

Definition delete_with_statements : DeleteUserRequest := {|
  DeleteUser_Username := "v-app-svc-x7";
  DeleteUser_Statements := {| Commands :=
    ["DROP USER [{{name}}]; DROP LOGIN [{{name}}];"] |}
|}.

(** The database refuses to drop the user, but not the login. *)
Definition refusing_drop_user : script := {|
  on_connection := None;
  on_username := on_username healthy;
  on_begin := None;
  rejected := ["DROP USER [{{name}}]"];
  on_commit := None;
  on_sessions := on_sessions healthy;
  on_mappings := on_mappings healthy;
  on_probe := None
|}.

Definition no_string : NullString := {| String_ := ""; Valid := false |}.

Definition row_db1 : mapping_row := {|
  loginName := {| String_ := "v-app-svc-x7"; Valid := true |};
  dbName := {| String_ := "db1"; Valid := true |};
  qUsername := {| String_ := "v-app-svc-x7"; Valid := true |};
  aliasName := no_string
|}.

Definition one_session : Rows Z :=
  {| rows_scan := [inr 51%Z]; rows_err := None |}.

Definition one_mapping : Rows mapping_row :=
  {| rows_scan := [inr row_db1]; rows_err := None |}.


(** One session and one mapped database; the session cannot be killed. *)
Definition refusing_kill : script := {|
  on_connection := None;
  on_username := on_username healthy;
  on_begin := None;
  rejected := ["KILL 51;"];
  on_commit := None;
  on_sessions := inr one_session;
  on_mappings := inr one_mapping;
  on_probe := None
|}.



(** A plugin whose connection password is set. *)
Definition configured : MSSQL :=
  {| Producer := {| Type_ := msSQLTypeName; Password := "hunter2" |} |}.

(** The server refuses the login and quotes the password in its message. *)
Definition quoting_password : script := {|
  on_connection :=
    Some (ErrOther "login failed for 'sa' with password 'hunter2'");
  on_username := on_username healthy;
  on_begin := None;
  rejected := [];
  on_commit := None;
  on_sessions := on_sessions healthy;
  on_mappings := on_mappings healthy;
  on_probe := None
|}.

(** The server refuses every statement of a transaction and quotes the
    password that the statement sets. *)
Definition quoting_new_password : env := fun X hist e =>
  match e in dbE X return X -> X with
  | ExecuteTxQuery m _ =>
    fun _ =>
      Some (ErrOther ("password validation failed for '" +:+
                      default "" (m !! "password") +:+ "'"))
  | _ => fun answer => answer
  end (scripted healthy X hist e).

(** Two creates and a delete side by side. *)
Definition three_callers : list thread :=
  [existT _ (NewUser Z seconds_Format strutil.ParseArbitraryStringSlice
               request_two_statements);
   existT _ (DeleteUser strutil.ParseArbitraryStringSlice
               delete_with_statements);
   existT _ (NewUser Z seconds_Format strutil.ParseArbitraryStringSlice
               request_two_statements)].

Definition creates (i : nat) : bool := negb (i =? 1)%nat.


(** A create whose only template holds separators and white space. *)
Definition request_blank_statement : NewUserRequest Z := {|
  UsernameConfig := {| DisplayName := "app"; RoleName := "svc" |};
  NewUser_Statements := {| Commands := [" ; ;  "] |};
  RollbackStatements := {| Commands := [] |};
  NewUser_Password := "P@ss1";
  NewUser_Expiration := 1900000000%Z
|}.

(** A new password without statements of its own. *)
Definition new_password : ChangePassword := {|
  NewPassword := "N3w-P@ss";
  ChangePassword_Statements := {| Commands := [] |}
|}.

(** A delete whose only statement holds separators and white space. *)
Definition delete_blank_statements : DeleteUserRequest := {|
  DeleteUser_Username := "v-app-svc-x7";
  DeleteUser_Statements := {| Commands := [" ; "] |}
|}.

(** One session and one mapped database, and nothing is refused. *)
Definition busy : script := {|
  on_connection := None;
  on_username := on_username healthy;
  on_begin := None;
  rejected := [];
  on_commit := None;
  on_sessions := inr one_session;
  on_mappings := inr one_mapping;
  on_probe := None
|}.

(** The principal is not there yet: the probe finds no row. *)
Definition no_principal : script := {|
  on_connection := None;
  on_username := on_username healthy;
  on_begin := None;
  rejected := [];
  on_commit := None;
  on_sessions := on_sessions healthy;
  on_mappings := on_mappings healthy;
  on_probe := Some ErrNoRows
|}.

(** The session rows break off with an error after the first row. *)
Definition broken_sessions : Rows Z :=
  {| rows_scan := [inr 51%Z];
     rows_err := Some (ErrOther "connection reset") |}.

(** Nothing is refused, but the list of sessions is cut short. *)
Definition stale_sessions : script := {|
  on_connection := None;
  on_username := on_username healthy;
  on_begin := None;
  rejected := [];
  on_commit := None;
  on_sessions := inr broken_sessions;
  on_mappings := inr one_mapping;
  on_probe := None
|}.
(** ** Running sequences and loops *)

Lemma run_bind {A B : Type} (h : env) (p : Prog A) (f : A -> Prog B) hist :
  run h (bind p f) hist =
  let '(a, t1) := run h p hist in
  let '(b, t2) := run h (f a) (hist ++ t1) in
  (b, t1 ++ t2).
Proof.
  revert hist. induction p as [a | X e k IH]; intros hist; simpl.
  - rewrite app_nil_r. by destruct (run h (f a) hist).
  - rewrite IH. destruct (run h (k _) _) as [a t1].
    rewrite <- app_assoc. simpl.
    by destruct (run h (f a) _).
Qed.

Lemma run_call {X : Type} (h : env) (e : dbE X) hist :
  run h (call e) hist = (h X hist e, [Ev e (h X hist e)]).
Proof. reflexivity. Qed.

Lemma run_defer {X R : Type} (h : env) (d : dbE X) (body : Prog R) hist :
  run h (defer d body) hist =
  let '(r, t) := run h body hist in
  (r, t ++ [Ev d (h X (hist ++ t) d)]).
Proof.
  unfold defer. rewrite run_bind. destruct (run h body hist) as [r t].
  reflexivity.
Qed.

Lemma post_ret {R : Type} (h : env) (r : R) hist (Q : R -> list event -> Prop) :
  Q r [] -> post h (Ret r) hist Q.
Proof. done. Qed.

Lemma post_vis {R X : Type} (h : env) (e : dbE X) (k : X -> Prog R) hist
    (Q : R -> list event -> Prop) :
  (forall x, post h (k x) (hist ++ [Ev e x]) (fun r t => Q r (Ev e x :: t))) ->
  post h (Vis e k) hist Q.
Proof.
  intros H. specialize (H (h X hist e)). unfold post in *. cbn.
  by destruct (run h (k _) _).
Qed.

Lemma post_bind {A B : Type} (h : env) (p : Prog A) (f : A -> Prog B) hist
    (Q : B -> list event -> Prop) :
  post h p hist
       (fun a t1 => post h (f a) (hist ++ t1) (fun b t2 => Q b (t1 ++ t2))) ->
  post h (bind p f) hist Q.
Proof.
  unfold post. rewrite run_bind. destruct (run h p hist) as [a t1].
  by destruct (run h (f a) _).
Qed.

Lemma post_defer {X R : Type} (h : env) (d : dbE X) (body : Prog R) hist
    (Q : R -> list event -> Prop) :
  (forall x, post h body hist (fun r t => Q r (t ++ [Ev d x]))) ->
  post h (defer d body) hist Q.
Proof.
  intros H. unfold post in *. rewrite run_defer.
  destruct (run h body hist) as [r t]. apply H.
Qed.

Lemma post_mono {R : Type} (h : env) (p : Prog R) hist
    (Q Q' : R -> list event -> Prop) :
  (forall r t, Q r t -> Q' r t) -> post h p hist Q -> post h p hist Q'.
Proof. unfold post. destruct (run h p hist). auto. Qed.

Section Loops.

Variable h : env.

Lemma length_db_answers m qs hist :
  length (db_answers h m qs hist) = length qs.
Proof. revert hist. induction qs; intros; simpl; auto. Qed.

Lemma db_answers_app m qs1 qs2 hist :
  db_answers h m (qs1 ++ qs2) hist =
  db_answers h m qs1 hist ++
  db_answers h m qs2 (hist ++ db_events m qs1 (db_answers h m qs1 hist)).
Proof.
  revert hist. induction qs1 as [| q qs1 IH]; intros hist; simpl.
  - by rewrite app_nil_r.
  - f_equal. rewrite IH. by rewrite <- app_assoc.
Qed.

Lemma db_events_app m qs1 qs2 rs1 rs2 :
  length qs1 = length rs1 ->
  db_events m (qs1 ++ qs2) (rs1 ++ rs2) =
  db_events m qs1 rs1 ++ db_events m qs2 rs2.
Proof. intros Hlen. unfold db_events. by rewrite zip_with_app. Qed.

Lemma run_tx_queries_app m qs1 qs2 hist :
  run_tx_queries h m (qs1 ++ qs2) hist =
  match run_tx_queries h m qs1 hist with
  | (Some err, t) => (Some err, t)
  | (None, t1) =>
    let '(r, t2) := run_tx_queries h m qs2 (hist ++ t1) in (r, t1 ++ t2)
  end.
Proof.
  revert hist. induction qs1 as [| q qs1 IH]; intros hist; simpl.
  - rewrite app_nil_r. by destruct (run_tx_queries h m qs2 hist).
  - destruct (h _ hist (ExecuteTxQuery m q)) as [err |]; [done |].
    rewrite IH. destruct (run_tx_queries h m qs1 _) as [[err |] t1]; [done |].
    rewrite <- app_assoc. simpl. by destruct (run_tx_queries h m qs2 _).
Qed.

(** The nested loops of [NewUser] and [updateUserPass] run the pieces of
    all templates as one batch. *)
Lemma run_tx_loops (Parse : string -> string -> list string)
    (m : Placeholders) (wrap : collab_error -> error)
    (body : string -> Prog (option error)) :
  (forall query hist,
      run h (body query) hist =
      if (String.length (TrimSpace query) =? 0)%nat then (None, [])
      else (wrap <$> h _ hist (ExecuteTxQuery m (TrimSpace query)),
            [Ev (ExecuteTxQuery m (TrimSpace query))
                (h _ hist (ExecuteTxQuery m (TrimSpace query)))])) ->
  forall stmts hist,
    run h (for_range stmts (fun stmt => for_range (Parse stmt ";") body)) hist =
    let '(r, t) :=
      run_tx_queries h m (flat_map (queries_of Parse) stmts) hist in
    (wrap <$> r, t).
Proof.
  intros Hbody.
  assert (Hinner : forall frags hist,
    run h (for_range frags body) hist =
    let '(r, t) :=
      run_tx_queries h m
        (filter (fun q => (String.length q =? 0)%nat = false)
                (map TrimSpace frags)) hist in
    (wrap <$> r, t)).
  { induction frags as [| q frags IH]; intros hist; [done |].
    cbn [for_range map]. rewrite run_bind, Hbody.
    destruct (String.length (TrimSpace q) =? 0)%nat eqn:Hlen.
    - rewrite filter_cons_False by (rewrite Hlen; done).
      rewrite app_nil_r, IH.
      by destruct (run_tx_queries h m _ hist).
    - rewrite filter_cons_True by done. cbn [run_tx_queries].
      destruct (h _ hist (ExecuteTxQuery m (TrimSpace q))) as [err |];
        [done |].
      cbn [fmap option_fmap option_map]. rewrite IH.
      by destruct (run_tx_queries h m _ _). }
  induction stmts as [| stmt stmts IH]; intros hist; [done |].
  cbn [for_range flat_map]. rewrite run_bind, Hinner.
  rewrite run_tx_queries_app. fold (queries_of Parse stmt).
  destruct (run_tx_queries h m (queries_of Parse stmt) hist) as [[err |] t1];
    [cbn; by rewrite app_nil_r |].
  cbn [fmap option_fmap option_map]. rewrite IH.
  by destruct (run_tx_queries h m _ _).
Qed.

(** The nested loops of [DeleteUser] attempt every piece and fold the
    answers into the local variable. *)
Lemma run_db_loops {S : Type} (Parse : string -> string -> list string)
    (m : Placeholders) (upd : S -> option collab_error -> S)
    (body : S -> string -> Prog S) :
  (forall s query hist,
      run h (body s query) hist =
      if (String.length (TrimSpace query) =? 0)%nat then (s, [])
      else (upd s (h _ hist (ExecuteDBQuery m (TrimSpace query))),
            [Ev (ExecuteDBQuery m (TrimSpace query))
                (h _ hist (ExecuteDBQuery m (TrimSpace query)))])) ->
  forall stmts s hist,
    run h (for_fold stmts s (fun s stmt => for_fold (Parse stmt ";") s body))
        hist =
    let qs := flat_map (queries_of Parse) stmts in
    let rs := db_answers h m qs hist in
    (foldl upd s rs, db_events m qs rs).
Proof.
  intros Hbody.
  assert (Hinner : forall frags s hist,
    run h (for_fold frags s body) hist =
    let qs := filter (fun q => (String.length q =? 0)%nat = false)
                     (map TrimSpace frags) in
    let rs := db_answers h m qs hist in
    (foldl upd s rs, db_events m qs rs)).
  { induction frags as [| q frags IH]; intros s hist; [done |].
    cbn [for_fold map]. rewrite run_bind, Hbody.
    destruct (String.length (TrimSpace q) =? 0)%nat eqn:Hlen.
    - rewrite filter_cons_False by (rewrite Hlen; done).
      rewrite app_nil_r, IH. done.
    - rewrite filter_cons_True by done. rewrite IH. done. }
  induction stmts as [| stmt stmts IH]; intros s hist; [done |].
  cbn [for_fold flat_map]. rewrite run_bind, Hinner. cbn beta iota zeta.
  fold (queries_of Parse stmt). rewrite IH. cbn beta iota zeta.
  rewrite db_answers_app, foldl_app, db_events_app
    by (by rewrite length_db_answers).
  done.
Qed.

(** The single loop of [revokeUserDefault] over the synthesized statements. *)
Lemma run_db_loop {S : Type} (m : Placeholders)
    (upd : S -> option collab_error -> S) (body : S -> string -> Prog S) :
  (forall s query hist,
      run h (body s query) hist =
      (upd s (h _ hist (ExecuteDBQuery m query)),
       [Ev (ExecuteDBQuery m query) (h _ hist (ExecuteDBQuery m query))])) ->
  forall qs s hist,
    run h (for_fold qs s body) hist =
    let rs := db_answers h m qs hist in
    (foldl upd s rs, db_events m qs rs).
Proof.
  intros Hbody. induction qs as [| q qs IH]; intros s hist; [done |].
  cbn [for_fold]. rewrite run_bind, Hbody. cbn beta iota zeta.
  rewrite IH. done.
Qed.

Lemma run_tx_queries_cases m qs hist
    (Q : option collab_error -> list event -> Prop) :
  Q None (tx_ok m qs) ->
  (forall pre q post err,
      qs = pre ++ q :: post ->
      Q (Some err) (tx_ok m pre ++ [Ev (ExecuteTxQuery m q) (Some err)])) ->
  let '(r, t) := run_tx_queries h m qs hist in Q r t.
Proof.
  revert hist Q. induction qs as [| q qs IH]; intros hist Q Hok Hfail; [done |].
  simpl. destruct (h _ hist (ExecuteTxQuery m q)) as [err |].
  - by apply (Hfail [] q qs).
  - specialize (IH (hist ++ [Ev (ExecuteTxQuery m q) None])
                    (fun r t => Q r (Ev (ExecuteTxQuery m q) None :: t)) Hok).
    destruct (run_tx_queries h m qs _) as [r t]. apply IH.
    intros pre q' post err ->. by apply (Hfail (q :: pre) q' post).
Qed.

(** What holds after the statement loops of [NewUser] and
    [updateUserPass]: either every piece ran and succeeded, or the pieces
    before the first failure ran and the loop returned its error. *)
Lemma post_tx_loops (Parse : string -> string -> list string)
    (m : Placeholders) (wrap : collab_error -> error)
    (body : string -> Prog (option error)) stmts hist
    (Q : option error -> list event -> Prop) :
  (forall query hist,
      run h (body query) hist =
      if (String.length (TrimSpace query) =? 0)%nat then (None, [])
      else (wrap <$> h _ hist (ExecuteTxQuery m (TrimSpace query)),
            [Ev (ExecuteTxQuery m (TrimSpace query))
                (h _ hist (ExecuteTxQuery m (TrimSpace query)))])) ->
  Q None (tx_ok m (flat_map (queries_of Parse) stmts)) ->
  (forall pre q post err,
      flat_map (queries_of Parse) stmts = pre ++ q :: post ->
      Q (Some (wrap err))
        (tx_ok m pre ++ [Ev (ExecuteTxQuery m q) (Some err)])) ->
  post h (for_range stmts (fun stmt => for_range (Parse stmt ";") body)) hist Q.
Proof.
  intros Hbody Hok Hfail. unfold post.
  rewrite (run_tx_loops Parse m wrap body Hbody).
  pose proof (run_tx_queries_cases m _ hist
                (fun r t => Q (fmap (M := option) wrap r) t) Hok Hfail) as H.
  by destruct (run_tx_queries h m _ hist).
Qed.

(** What holds after a best-effort loop: every statement was attempted,
    whatever the answers were. *)
Lemma post_db_loops {S : Type} (Parse : string -> string -> list string)
    (m : Placeholders) (upd : S -> option collab_error -> S)
    (body : S -> string -> Prog S) stmts s hist
    (Q : S -> list event -> Prop) :
  (forall s query hist,
      run h (body s query) hist =
      if (String.length (TrimSpace query) =? 0)%nat then (s, [])
      else (upd s (h _ hist (ExecuteDBQuery m (TrimSpace query))),
            [Ev (ExecuteDBQuery m (TrimSpace query))
                (h _ hist (ExecuteDBQuery m (TrimSpace query)))])) ->
  (forall rs,
      length rs = length (flat_map (queries_of Parse) stmts) ->
      Q (foldl upd s rs)
        (db_events m (flat_map (queries_of Parse) stmts) rs)) ->
  post h (for_fold stmts s (fun s stmt => for_fold (Parse stmt ";") s body))
       hist Q.
Proof.
  intros Hbody HQ. unfold post.
  rewrite (run_db_loops Parse m upd body Hbody). cbn zeta.
  apply HQ, length_db_answers.
Qed.

Lemma post_db_loop {S : Type} (m : Placeholders)
    (upd : S -> option collab_error -> S) (body : S -> string -> Prog S)
    qs s hist (Q : S -> list event -> Prop) :
  (forall s query hist,
      run h (body s query) hist =
      (upd s (h _ hist (ExecuteDBQuery m query)),
       [Ev (ExecuteDBQuery m query) (h _ hist (ExecuteDBQuery m query))])) ->
  (forall rs, length rs = length qs -> Q (foldl upd s rs) (db_events m qs rs)) ->
  post h (for_fold qs s body) hist Q.
Proof.
  intros Hbody HQ. unfold post.
  rewrite (run_db_loop m upd body Hbody). cbn zeta.
  apply HQ, length_db_answers.
Qed.

End Loops.

Lemma post_run {R : Type} (h : env) (p : Prog R) hist
    (Q : R -> list event -> Prop) :
  post h p hist Q -> Q (run h p hist).1 (run h p hist).2.
Proof. unfold post. by destruct (run h p hist). Qed.

Lemma tx_execs_tx_ok m qs :
  omap tx_exec (tx_ok m qs) = map (fun q => (m, q, None)) qs.
Proof. induction qs as [| q qs IH]; [done |]. cbn. f_equal. apply IH. Qed.

Lemma commits_tx_ok m qs : omap commit_of (tx_ok m qs) = [].
Proof. by induction qs. Qed.

Lemma generated_tx_ok m qs : omap generated_of (tx_ok m qs) = [].
Proof. by induction qs. Qed.

Lemma db_execs_tx_ok m qs : omap db_exec (tx_ok m qs) = [].
Proof. by induction qs. Qed.

Lemma failure_not_among_ok (m m' : Placeholders) (q' : string) e
    (qs : list string) :
  (m', q', Some e) ∉ map (fun q => (m, q, @None collab_error)) qs.
Proof.
  intros Hin. apply list_elem_of_In, in_map_iff in Hin.
  by destruct Hin as (q & ? & _).
Qed.

Lemma db_execs_db_events m qs rs :
  db_execs (db_events m qs rs) = zip_with (fun q r => (m, q, r)) qs rs.
Proof.
  revert rs. induction qs as [| q qs IH]; intros [| r rs]; try done.
  cbn. f_equal. apply IH.
Qed.

Lemma db_events_of_execs m qs rs :
  db_events m qs rs =
  (fun x : Placeholders * string * option collab_error =>
     Ev (ExecuteDBQuery x.1.1 x.1.2) x.2) <$>
  zip_with (fun q r => (m, q, r)) qs rs.
Proof.
  revert rs. induction qs as [| q qs IH]; intros [| r rs]; try done.
  cbn. f_equal. apply IH.
Qed.

Lemma attempts_of_zip (m : Placeholders) (qs : list string)
    (rs : list (option collab_error)) :
  length rs = length qs ->
  (zip_with (fun q r => (m, q, r)) qs rs).*1 = (fun q => (m, q)) <$> qs.
Proof.
  revert rs. induction qs as [| q qs IH]; intros [| r rs] Hlen; try done.
  cbn. f_equal. apply IH. by injection Hlen.
Qed.

Lemma failures_of_zip (m : Placeholders) (qs : list string)
    (rs : list (option collab_error)) :
  length rs = length qs ->
  failures (zip_with (fun q r => (m, q, r)) qs rs) = omap id rs.
Proof.
  revert rs. induction qs as [| q qs IH]; intros [| r rs] Hlen; try done.
  injection Hlen as Hlen. unfold failures in *. cbn.
  destruct r; cbn; by rewrite IH.
Qed.

(** The errors collected by the loop of [DeleteUser]. *)
Lemma foldl_Append (merr : list error) (rs : list (option collab_error)) :
  foldl (fun merr r =>
           match r with
           | Some err => multierror.Append merr (Ext err)
           | None => merr
           end) merr rs =
  merr ++ (Ext <$> omap id rs).
Proof.
  revert merr. induction rs as [| [err |] rs IH]; intros merr; cbn.
  - by rewrite app_nil_r.
  - rewrite IH. by rewrite <- app_assoc.
  - apply IH.
Qed.

(** One step of a run: through a return, a call, a deferred call, a
    sequence, or a branch on an answer.  A call leaves its answer to be
    introduced. *)
Ltac step :=
  lazymatch goal with
  | |- post _ (Ret _) _ _ => apply post_ret
  | |- post _ (Vis _ _) _ _ => apply post_vis
  | |- post _ (call _) _ _ => apply post_vis
  | |- post _ (defer _ _) _ _ => apply post_defer
  | |- post _ (bind _ _) _ _ => apply post_bind
  | |- post _ (match ?x with _ => _ end) _ _ => destruct x
  end; cbn beta iota.

(** A call followed by the rest of the function: name its answer. *)
Tactic Notation "answer" simple_intropattern(p) :=
  apply post_bind; apply post_vis; intros p; apply post_ret; cbn beta iota.

(** ** Creating a user *)

Section Create.

Variable Time : Type.
Variable Format : Time -> string -> string.
Variable Parse : string -> string -> list string.

(** C1, as amended.  When the request carries no creation statement,
    [NewUser] takes the lock and asks for the connection before it looks at
    the statements.  If the connection cannot be had, the connection error
    is returned, wrapped; otherwise [ErrEmptyCreationStatement] is.  Either
    way the call log is lock, connection, unlock: no username is generated
    or returned, no transaction is opened and no statement is run. *)
Theorem NewUser_no_statements (h : env) (req : NewUserRequest Time) hist :
  Commands (NewUser_Statements req) = [] ->
  exists c : option collab_error,
    run h (NewUser Time Format Parse req) hist =
      ({| Username := "" |},
       Some (match c with
             | Some err => Errorf_w "unable to get connection: %w" (Ext err)
             | None => ErrEmptyCreationStatement
             end),
       [Ev Lock tt; Ev Connection c; Ev Unlock tt]) /\
    Forall (fun ev => is_sql ev = false)
           (run h (NewUser Time Format Parse req) hist).2.
Proof.
  intros Hempty.
  exists (h _ (hist ++ [Ev Lock (h _ hist Lock)]) Connection).
  unfold NewUser. rewrite Hempty. cbn -[defer].
  destruct (h unit hist Lock).
  rewrite run_defer. cbn.
  destruct (h _ (hist ++ [Ev Lock tt]) Connection) as [err |]; cbn;
    match goal with |- context [Ev Unlock ?u] => destruct u end;
    (split; [reflexivity | repeat constructor]).
Qed.

(** A branch in which no statement was run in a transaction. *)
Ltac no_tx :=
  step; cbn; split; [by intros ??? ?%elem_of_nil | by intros _ ?%elem_of_nil].

(** C2.  In a run of [NewUser]: if a statement of the batch fails, the log
    ends with that statement, the rollback of the transaction and the
    unlock, no commit was ever called, the error returned is the error of
    that statement and the username returned is empty.  If no statement
    failed and the commit succeeded, no error is returned and the username
    returned is the one [GenerateUsername] produced. *)
Theorem NewUser_transaction (h : env) (req : NewUserRequest Time) hist :
  let out := run h (NewUser Time Format Parse req) hist in
  (forall m q e,
      (m, q, Some e) ∈ tx_execs out.2 ->
      (out.1).2 = Some (Ext e) /\ Username (out.1).1 = "" /\
      exists pre r,
        out.2 = pre ++ [Ev (ExecuteTxQuery m q) (Some e); Ev Rollback r;
                        Ev Unlock tt] /\
        omap commit_of pre = []) /\
  (failures (tx_execs out.2) = [] -> None ∈ omap commit_of out.2 ->
   (out.1).2 = None /\ omap generated_of out.2 = [inr (Username (out.1).1)]).
Proof.
  cbn zeta.
  apply (post_run h (NewUser Time Format Parse req) hist (fun out tr =>
    (forall m q e,
        (m, q, Some e) ∈ tx_execs tr ->
        out.2 = Some (Ext e) /\ Username out.1 = "" /\
        exists pre r,
          tr = pre ++ [Ev (ExecuteTxQuery m q) (Some e); Ev Rollback r;
                       Ev Unlock tt] /\
          omap commit_of pre = []) /\
    (failures (tx_execs tr) = [] -> None ∈ omap commit_of tr ->
     out.2 = None /\ omap generated_of tr = [inr (Username out.1)]))).
  unfold NewUser, getConnection.
  answer []. step; intros [].
  answer [cerr |]; [no_tx |].
  destruct (length _ =? 0)%nat; [no_tx |].
  answer [gerr | username]; [no_tx |].
  answer [berr |]; [no_tx |].
  step; intros rb. step.
  match goal with
  | |- context [ExecuteTxQuery ?m _] => apply (post_tx_loops h Parse m Ext)
  end.
  - intros query hist'. cbn zeta.
    destruct (String.length (TrimSpace query) =? 0)%nat; [done |].
    rewrite run_bind, run_call. cbn beta iota zeta.
    by destruct (h _ hist' (ExecuteTxQuery _ _)).
  - answer [cerr |]; step; cbn;
      rewrite <- !app_assoc, !omap_app, tx_execs_tx_ok, commits_tx_ok,
        generated_tx_ok; cbn; rewrite ?app_nil_r.
    + split; [intros m q e Hin; by apply failure_not_among_ok in Hin |].
      intros _ Hin. by apply list_elem_of_singleton in Hin.
    + split; [intros m q e Hin; by apply failure_not_among_ok in Hin |].
      done.
  - intros pre q post err Hqs. step. cbn.
    rewrite <- !app_assoc, !omap_app, tx_execs_tx_ok, commits_tx_ok. cbn.
    split; [| by intros _ ?%elem_of_nil].
    intros m q' e Hin. apply elem_of_app in Hin as [Hin | Hin].
    { by apply failure_not_among_ok in Hin. }
    apply list_elem_of_singleton in Hin. injection Hin as -> -> ->.
    split; [done |]. split; [done |].
    eexists (_ :: _ :: _ :: _ :: tx_ok _ pre), rb.
    split; [reflexivity |]. cbn. apply commits_tx_ok.
Qed.

End Create.

(** ** Deleting a user with the caller's statements *)

Section Delete.

Variable Parse : string -> string -> list string.

(** C5, as amended.  When the request carries statements, [DeleteUser]
    first asks for the connection.  If that fails, the wrapped connection
    error is returned and no statement is attempted.  Otherwise the log is
    the connection followed by exactly one [ExecuteDBQuery] for each
    non-empty trimmed piece of the templates, in order, each with the
    placeholder map that has [name] only, whatever the answers to earlier
    pieces were; no error is returned iff no statement failed, and
    otherwise the error is the aggregate with one entry for each failed
    statement, in order. *)
Theorem DeleteUser_best_effort (h : env) (req : DeleteUserRequest) hist :
  Commands (DeleteUser_Statements req) <> [] ->
  let out := run h (DeleteUser Parse req) hist in
  let qs :=
    flat_map (queries_of Parse) (Commands (DeleteUser_Statements req)) in
  let execs := db_execs out.2 in
  (exists cerr,
      (out.1).2 = Some (Errorf_w "unable to get connection: %w" (Ext cerr)) /\
      out.2 = [Ev Connection (Some cerr)]) \/
  (out.2 =
     Ev Connection None ::
     ((fun x : Placeholders * string * option collab_error =>
         Ev (ExecuteDBQuery x.1.1 x.1.2) x.2) <$> execs) /\
   execs.*1 =
     (fun q => ({[ "name" := DeleteUser_Username req ]}, q)) <$> qs /\
   ((out.1).2 = None <-> failures execs = []) /\
   (failures execs <> [] ->
    (out.1).2 = Some (MultiError (Ext <$> failures execs)))).
Proof.
  intros Hsome. cbn zeta.
  apply (post_run h (DeleteUser Parse req) hist (fun out tr =>
    (exists cerr,
        out.2 = Some (Errorf_w "unable to get connection: %w" (Ext cerr)) /\
        tr = [Ev Connection (Some cerr)]) \/
    (tr =
       Ev Connection None ::
       ((fun x : Placeholders * string * option collab_error =>
           Ev (ExecuteDBQuery x.1.1 x.1.2) x.2) <$> db_execs tr) /\
     (db_execs tr).*1 =
       (fun q => ({[ "name" := DeleteUser_Username req ]}, q)) <$>
       flat_map (queries_of Parse) (Commands (DeleteUser_Statements req)) /\
     (out.2 = None <-> failures (db_execs tr) = []) /\
     (failures (db_execs tr) <> [] ->
      out.2 = Some (MultiError (Ext <$> failures (db_execs tr))))))).
  unfold DeleteUser, getConnection.
  destruct (Commands (DeleteUser_Statements req)) as [| stmt stmts] eqn:Hcmds;
    [done |].
  rewrite <- Hcmds. rewrite Hcmds at 1. cbn [length Nat.eqb].
  answer [cerr |].
  { step. left. by exists cerr. }
  step.
  apply (post_db_loops h Parse {[ "name" := DeleteUser_Username req ]}
           (fun merr r =>
              match r with
              | Some err => multierror.Append merr (Ext err)
              | None => merr
              end)).
  - intros merr query hist'. cbn zeta.
    destruct (String.length (TrimSpace query) =? 0)%nat; [done |].
    rewrite run_bind, run_call. cbn beta iota zeta.
    by destruct (h _ hist' (ExecuteDBQuery _ _)).
  - intros rs Hlen. step. right. rewrite app_nil_r.
    change (db_execs ([Ev Connection None] ++ ?l)) with (db_execs l).
    rewrite db_execs_db_events, foldl_Append.
    rewrite failures_of_zip, attempts_of_zip by done.
    split; [by rewrite db_events_of_execs |]. split; [done |].
    cbn [app snd]. unfold multierror.ErrorOrNil.
    destruct (omap id rs) as [| err errs]; cbn; [done |].
    split; [| done]. split; intros; done.
Qed.

End Delete.

(** ** Updating a user *)

Section Update.

Variable Time : Type.
Variable Parse : string -> string -> list string.

(** C7.  Without a new password [UpdateUser] makes no call at all: with no
    new expiration either it fails with "no changes requested", with a new
    expiration it succeeds. *)
Theorem UpdateUser_without_password (h : env) (username : string) hist :
  run h (UpdateUser Time Parse
           {| UpdateUser_Username := username;
              UpdateUser_Password := None;
              UpdateUser_Expiration := None |}) hist =
    (Build_UpdateUserResponse, Some (ErrorsNew "no changes requested"), []) /\
  forall expiration : ChangeExpiration Time,
    run h (UpdateUser Time Parse
             {| UpdateUser_Username := username;
                UpdateUser_Password := None;
                UpdateUser_Expiration := Some expiration |}) hist =
      (Build_UpdateUserResponse, None, []).
Proof. split; [reflexivity | intros expiration; reflexivity]. Qed.

(** The statements and placeholder maps of [updateUserPass]. *)
Lemma updateUserPass_statements (h : env) (username : string)
    (changePass : ChangePassword) hist :
  let out := run h (updateUserPass Parse username changePass) hist in
  (forall m q r,
      (m, q, r) ∈ tx_execs out.2 ->
      m = <[ "name" := username ]>
            (<[ "username" := username ]>
               {[ "password" := NewPassword changePass ]}) /\
      q ∈ flat_map (queries_of Parse)
            (if (length (Commands (ChangePassword_Statements changePass))
                 =? 0)%nat
             then [alterLoginSQL]
             else Commands (ChangePassword_Statements changePass))) /\
  db_execs out.2 = [].
Proof.
  cbn zeta.
  apply (post_run h (updateUserPass Parse username changePass) hist
    (fun _ tr =>
       (forall m q r,
           (m, q, r) ∈ tx_execs tr ->
           m = <[ "name" := username ]>
                 (<[ "username" := username ]>
                    {[ "password" := NewPassword changePass ]}) /\
           q ∈ flat_map (queries_of Parse)
                 (if (length (Commands (ChangePassword_Statements changePass))
                      =? 0)%nat
                  then [alterLoginSQL]
                  else Commands (ChangePassword_Statements changePass))) /\
       db_execs tr = [])).
  unfold updateUserPass, getConnection.
  destruct (String.eqb username "" || String.eqb (NewPassword changePass) "").
  { step. split; [by intros ??? ?%elem_of_nil | done]. }
  answer []. step; intros [].
  answer [cerr |].
  { step. split; [by intros ??? ?%elem_of_nil | done]. }
  assert (Hrest : forall pre hist',
    tx_execs pre = [] -> db_execs pre = [] ->
    post h
      (let* r := call BeginTx in
       match r with
       | Some err => Ret (Some (Ext err))
       | None =>
         defer Rollback (
           let* r :=
             for_range
               (if (length (Commands (ChangePassword_Statements changePass))
                    =? 0)%nat
                then [alterLoginSQL]
                else Commands (ChangePassword_Statements changePass))
               (fun stmt =>
                  for_range (Parse stmt ";") (fun query =>
                    let query := TrimSpace query in
                    if (String.length query =? 0)%nat then Ret None
                    else
                      let m : Placeholders :=
                        <[ "name" := username ]>
                          (<[ "username" := username ]>
                             {[ "password" := NewPassword changePass ]}) in
                      let* r := call (ExecuteTxQuery m query) in
                      match r with
                      | Some err =>
                        Ret (Some (Errorf_w "failed to execute query: %w"
                                     (Ext err)))
                      | None => Ret None
                      end)) in
           match r with
           | Some err => Ret (Some err)
           | None =>
             let* r := call Commit in
             match r with
             | Some err =>
               Ret (Some (Errorf_w "failed to commit transaction: %w"
                            (Ext err)))
             | None => Ret None
             end
           end)
       end)
      hist'
      (fun _ t2 =>
         (forall m q r,
             (m, q, r) ∈ tx_execs (pre ++ t2 ++ [Ev Unlock tt]) ->
             m = <[ "name" := username ]>
                   (<[ "username" := username ]>
                      {[ "password" := NewPassword changePass ]}) /\
             q ∈ flat_map (queries_of Parse)
                   (if (length (Commands
                                  (ChangePassword_Statements changePass))
                        =? 0)%nat
                    then [alterLoginSQL]
                    else Commands (ChangePassword_Statements changePass))) /\
         db_execs (pre ++ t2 ++ [Ev Unlock tt]) = [])).
  { intros pre hist' Htx Hdb. unfold tx_execs, db_execs in *.
    answer [berr |].
    { step. rewrite !omap_app, Htx, Hdb. cbn.
      split; [by intros ??? ?%elem_of_nil | done]. }
    step; intros rb. step.
    apply (post_tx_loops h Parse
             (<[ "name" := username ]>
                (<[ "username" := username ]>
                   {[ "password" := NewPassword changePass ]}))
             (fun err => Errorf_w "failed to execute query: %w" (Ext err))).
    - intros query hist2. cbn zeta.
      destruct (String.length (TrimSpace query) =? 0)%nat; [done |].
      rewrite run_bind, run_call. cbn beta iota zeta.
      by destruct (h _ hist2 (ExecuteTxQuery _ _)).
    - answer [cerr |]; step;
        rewrite !omap_app, Htx, Hdb, tx_execs_tx_ok, db_execs_tx_ok; cbn;
        rewrite ?app_nil_r.
      all: split; [| done].
      all: intros m q r Hin; apply list_elem_of_In, in_map_iff in Hin;
        destruct Hin as (q' & [= <- <- <-] & Hin);
        by apply list_elem_of_In in Hin.
    - intros pre' q post err Hqs. step.
      rewrite !omap_app, Htx, Hdb, tx_execs_tx_ok, db_execs_tx_ok. cbn.
      rewrite !app_nil_r. split; [| done].
      intros m q' r Hin. rewrite Hqs.
      apply elem_of_app in Hin as [Hin | Hin].
      + apply list_elem_of_In, in_map_iff in Hin.
        destruct Hin as (q'' & [= <- <- <-] & Hin).
        split; [done |]. apply elem_of_app. left.
        by apply list_elem_of_In.
      + apply list_elem_of_singleton in Hin. injection Hin as -> -> ->.
        split; [done |]. apply elem_of_app. right. apply list_elem_of_here. }
  answer [[| msg] |].
  - refine (post_mono _ _ _ _ _ _
              (Hrest [Ev Lock (); Ev Connection None;
                      Ev (QueryRowScan principalExistsSQL username)
                         (Some ErrNoRows)] _ eq_refl eq_refl)).
    intros ? ? HQ. exact HQ.
  - step. split; [by intros ??? ?%elem_of_nil | done].
  - refine (post_mono _ _ _ _ _ _
              (Hrest [Ev Lock (); Ev Connection None;
                      Ev (QueryRowScan principalExistsSQL username) None]
                     _ eq_refl eq_refl)).
    intros ? ? HQ. exact HQ.
Qed.

(** C10.  When both a new password and a new expiration are supplied,
    [UpdateUser] does what [updateUserPass] does and nothing else: the run
    is the same as without the expiration, every statement it executes
    comes from the password templates (or the default one), and every
    placeholder map has [name], [username] and [password] only. *)
Theorem UpdateUser_ignores_expiration (h : env) (username : string)
    (changePass : ChangePassword) (expiration : ChangeExpiration Time) hist :
  let req e :=
    {| UpdateUser_Username := username;
       UpdateUser_Password := Some changePass;
       UpdateUser_Expiration := e |} in
  let out := run h (UpdateUser Time Parse (req (Some expiration))) hist in
  let pass := run h (updateUserPass Parse username changePass) hist in
  out = (Build_UpdateUserResponse, pass.1, pass.2) /\
  out = run h (UpdateUser Time Parse (req None)) hist /\
  (forall m q r,
      (m, q, r) ∈ tx_execs out.2 ->
      m = <[ "name" := username ]>
            (<[ "username" := username ]>
               {[ "password" := NewPassword changePass ]}) /\
      m !! "expiration" = None /\
      q ∈ flat_map (queries_of Parse)
            (if (length (Commands (ChangePassword_Statements changePass))
                 =? 0)%nat
             then [alterLoginSQL]
             else Commands (ChangePassword_Statements changePass))) /\
  db_execs out.2 = [].
Proof.
  cbn zeta.
  assert (Hout : forall e,
    run h (UpdateUser Time Parse
             {| UpdateUser_Username := username;
                UpdateUser_Password := Some changePass;
                UpdateUser_Expiration := e |}) hist =
    (Build_UpdateUserResponse,
     (run h (updateUserPass Parse username changePass) hist).1,
     (run h (updateUserPass Parse username changePass) hist).2)).
  { intros e. unfold UpdateUser. cbn -[updateUserPass].
    rewrite run_bind.
    destruct (run h (updateUserPass Parse username changePass) hist).
    cbn. by rewrite app_nil_r. }
  rewrite !Hout. split; [done |]. split; [done |]. cbn [snd].
  destruct (updateUserPass_statements h username changePass hist)
    as [Htx Hdb].
  split; [| done].
  intros m q r Hin. destruct (Htx m q r Hin) as [-> Hq].
  split; [done |]. split; [| done].
  by rewrite !lookup_insert_ne, lookup_singleton_ne.
Qed.

End Update.

(** ** Revoking a user by the default cascade *)

Lemma scanSessions_inr rows acc stmts :
  scanSessions rows acc = inr stmts ->
  stmts = acc ++ (killSQL <$> scanned rows).
Proof.
  revert acc. induction rows as [| [err | id] rows IH]; intros acc; cbn.
  - intros [= <-]. by rewrite app_nil_r.
  - done.
  - intros H. rewrite (IH _ H). by rewrite <- app_assoc.
Qed.

Lemma scanMappings_inr username rows acc stmts :
  scanMappings username rows acc = inr stmts ->
  stmts = acc ++ ((fun db => dropUserSQL db username username) <$>
                    mapped_dbs rows) /\
  forall err, inl err ∉ rows.
Proof.
  revert acc. unfold mapped_dbs.
  induction rows as [| [err | row] rows IH]; intros acc; cbn.
  - intros [= <-]. rewrite app_nil_r. split; [done |].
    by intros err ?%elem_of_nil.
  - done.
  - destruct (Valid (dbName row)); cbn; intros H;
      destruct (IH _ H) as [-> Hno].
    + split; [by rewrite <- app_assoc |].
      intros err [? | ?]%elem_of_cons; [done | by eapply Hno].
    + split; [done |].
      intros err [? | ?]%elem_of_cons; [done | by eapply Hno].
Qed.

Lemma scanMappings_inl username rows acc err :
  scanMappings username rows acc = inl err -> inl err ∈ rows.
Proof.
  revert acc. induction rows as [| [err' | row] rows IH]; intros acc; cbn.
  - done.
  - intros [= ->]. apply list_elem_of_here.
  - destruct (Valid (dbName row)); cbn; intros H;
      apply list_elem_of_further; by eapply IH.
Qed.

(** The last error of a best-effort loop, as [revokeUserDefault] keeps it. *)
Lemma foldl_lastStmtError (rs : list (option collab_error)) last0 :
  foldl (fun lastStmtError r =>
           match r with
           | Some err => Some err
           | None => lastStmtError
           end) last0 rs =
  match last (omap id rs) with
  | Some err => Some err
  | None => last0
  end.
Proof.
  revert last0. induction rs as [| [err |] rs IH]; intros last0; cbn.
  - done.
  - rewrite IH. change (Some err :: ?l) with ([Some err] ++ l).
    destruct (omap id rs) as [| e es] eqn:Hes; [done |].
    change (last (err :: e :: es)) with (last (e :: es)).
    destruct (last (e :: es)) eqn:Hlast; [done |].
    by apply last_None in Hlast.
  - apply IH.
Qed.

Lemma dropLoginSQL_not_disable u : dropLoginSQL u u <> disableLoginSQL u.
Proof. discriminate. Qed.

Lemma dropLoginSQL_not_sessions u : dropLoginSQL u u <> sessionsSQL.
Proof. discriminate. Qed.

Lemma dropLoginSQL_not_mappings u : dropLoginSQL u u <> loginMappingsSQL.
Proof. discriminate. Qed.

Lemma prepared_db_events m qs rs : omap prepared_of (db_events m qs rs) = [].
Proof. revert rs. induction qs; intros [| r rs]; try done. apply IHqs. Qed.

Lemma sessions_db_events m qs rs : omap sessions_of (db_events m qs rs) = [].
Proof. revert rs. induction qs; intros [| r rs]; try done. apply IHqs. Qed.

Lemma mappings_db_events m qs rs : omap mappings_of (db_events m qs rs) = [].
Proof. revert rs. induction qs; intros [| r rs]; try done. apply IHqs. Qed.

(** The login is not dropped: none of the texts prepared is the drop. *)
Ltac not_prepared :=
  let H := fresh in
  intros H;
  repeat (apply elem_of_cons in H as [H | H];
          [first [ by apply dropLoginSQL_not_disable in H
                 | by apply dropLoginSQL_not_sessions in H
                 | by apply dropLoginSQL_not_mappings in H ] |]);
  by apply elem_of_nil in H.

(** A return before the clean-up. *)
Ltac early :=
  step; left; unfold revoke_returned_early, db_execs; cbn;
  split; [eauto |]; split; [done |]; split; [not_prepared |];
  first [ by left | right; eauto ].

(** Bring the log of a run that reached the clean-up into one list. *)
Ltac flatten_log :=
  rewrite ?app_nil_r; rewrite <- ?app_assoc; cbn [app];
  unfold db_execs;
  repeat (cbn [omap list_omap prepared_of sessions_of mappings_of db_exec];
          rewrite ?omap_app, ?prepared_db_events, ?sessions_db_events,
            ?mappings_db_events);
  change (omap db_exec (db_events ?m ?qs ?rs)) with (db_execs (db_events m qs rs));
  rewrite ?db_execs_db_events, ?app_nil_r; cbn [app].

Lemma revokeUserDefault_run (h : env) (username : string) hist :
  post h (revokeUserDefault username) hist (fun err tr =>
    revoke_returned_early username err tr \/
    revoke_cleaned_up username err tr).
Proof.
  unfold revokeUserDefault, getConnection.
  answer [cerr |]; [early |].
  answer [perr |]; [early |].
  step; intros [].
  answer [xerr |]; [early |].
  answer [perr |]; [early |].
  step; intros [].
  answer [qerr | sessionRows]; [early |].
  step; intros [].
  destruct (scanSessions (rows_scan sessionRows) []) as [serr | kills] eqn:Hkills;
    [early |].
  apply scanSessions_inr in Hkills. cbn in Hkills. subst kills.
  answer [perr |]; [early |].
  step; intros [].
  answer [qerr | rows]; [early |].
  step; intros [].
  destruct (scanMappings username (rows_scan rows) _) as [serr | stmts] eqn:Hstmts.
  { apply scanMappings_inl in Hstmts. early. }
  apply scanMappings_inr in Hstmts as [-> Hno].
  step.
  apply (post_db_loop h ∅ (fun lastStmtError r =>
           match r with
           | Some err => Some err
           | None => lastStmtError
           end)).
  { intros s query hist'. rewrite run_bind, run_call. cbn beta iota zeta.
    by destruct (h _ hist' (ExecuteDBQuery _ _)). }
  intros rs Hlen. rewrite foldl_lastStmtError.
  destruct (rows_err rows) as [rerr |] eqn:Hrerr.
  { step. right. exists sessionRows, rows, rs. rewrite Hrerr. flatten_log.
    repeat split; try done. not_prepared. }
  destruct (last (omap id rs)) as [lerr |] eqn:Hlast.
  { step. right. exists sessionRows, rows, rs. rewrite Hrerr, Hlast.
    flatten_log. repeat split; try done. not_prepared. }
  assert (Hin : forall l,
    dropLoginSQL username username ∈
      disableLoginSQL username :: sessionsSQL :: loginMappingsSQL ::
      dropLoginSQL username username :: l).
  { intros l. do 3 apply list_elem_of_further. apply list_elem_of_here. }
  answer [perr |].
  { step. right. exists sessionRows, rows, rs. rewrite Hrerr, Hlast.
    flatten_log. repeat split; try done. }
  step; intros [].
  answer [xerr |]; step; right; exists sessionRows, rows, rs;
    rewrite Hrerr, Hlast; flatten_log; repeat split; try done.
Qed.

Lemma revokeUserDefault_cases (h : env) (username : string) hist :
  let out := run h (revokeUserDefault username) hist in
  revoke_returned_early username out.1 out.2 \/
  revoke_cleaned_up username out.1 out.2.
Proof.
  apply (post_run h (revokeUserDefault username) hist (fun err tr =>
    revoke_returned_early username err tr \/
    revoke_cleaned_up username err tr)).
  apply revokeUserDefault_run.
Qed.

(** C3.  In a run of [revokeUserDefault]: the statements attempted with
    [ExecuteDBQuery] are none, or a kill for every session followed by a
    drop for every mapped database; the drop of the login is prepared only
    if no such statement failed and the mapping rows reported no error; a
    row error is returned wrapped as "could not generate sql statements for
    all rows", a failed statement (without row error) wrapped as "could
    not perform all sql statements", with the last failure inside. *)
Theorem revokeUserDefault_cascade (h : env) (username : string) hist :
  let out := run h (revokeUserDefault username) hist in
  let execs := db_execs out.2 in
  (execs = [] \/
   exists sessionRows rows,
     omap sessions_of out.2 = [sessionRows] /\
     omap mappings_of out.2 = [rows] /\
     execs.*1 =
       (fun q => (∅, q)) <$> cleanup_statements username sessionRows rows) /\
  (dropLoginSQL username username ∈ omap prepared_of out.2 ->
   failures execs = [] /\
   forall rows, rows ∈ omap mappings_of out.2 -> rows_err rows = None) /\
  (forall rows e,
      rows ∈ omap mappings_of out.2 ->
      (forall x, inl x ∉ rows_scan rows) ->
      rows_err rows = Some e ->
      out.1 = Some (Wrapf
        "could not generate sql statements for all rows: {{err}}" (Ext e))) /\
  (failures execs <> [] ->
   exists rows,
     omap mappings_of out.2 = [rows] /\
     match rows_err rows with
     | Some e =>
       out.1 = Some (Wrapf
         "could not generate sql statements for all rows: {{err}}" (Ext e))
     | None =>
       exists e,
         last (failures execs) = Some e /\
         out.1 = Some (Wrapf
           "could not perform all sql statements: {{err}}" (Ext e))
     end) /\
  (forall e e',
      Wrapf "could not generate sql statements for all rows: {{err}}" e <>
      Wrapf "could not perform all sql statements: {{err}}" e').
Proof.
  cbn zeta.
  destruct (revokeUserDefault_cases h username hist)
    as [(Herr & Hexecs & Hprep & Hmap)
       | (sessionRows & rows & rs & Hs & Hm & Hno & Hlen & Hexecs & Hend)].
  - rewrite Hexecs. split; [by left |]. split; [done |].
    split; [| split; [done | discriminate]].
    intros rows e Hin Hscan _.
    destruct Hmap as [Hmap | (rows' & x & Hmap & Hx)]; rewrite Hmap in Hin.
    + by apply elem_of_nil in Hin.
    + apply list_elem_of_singleton in Hin as ->. by apply Hscan in Hx.
  - rewrite Hexecs, Hm, failures_of_zip, attempts_of_zip by done.
    split; [right; by exists sessionRows, rows |].
    split; [| split; [| split; [| discriminate]]].
    + intros Hprep.
      destruct (rows_err rows) as [e |] eqn:Hrows; [by destruct Hend |].
      destruct (last (omap id rs)) as [e |] eqn:Hlast; [by destruct Hend |].
      apply last_None in Hlast. split; [done |].
      by intros rows' ->%list_elem_of_singleton.
    + intros rows' e ->%list_elem_of_singleton _ He.
      rewrite He in Hend. by destruct Hend.
    + intros Hfail. exists rows. split; [done |].
      destruct (rows_err rows) as [e |]; [by destruct Hend |].
      destruct (last (omap id rs)) as [e |] eqn:Hlast.
      * exists e. by destruct Hend.
      * by apply last_None in Hlast.
Qed.


(** ** Splitting templates *)

Lemma rev_app_append (s1 s2 s3 : string) :
  String.rev_app s1 s2 +:+ s3 = String.rev_app s1 (s2 +:+ s3).
Proof. revert s2. induction s1 as [| a s1 IH]; intros s2; [done |]. apply IH. Qed.

Lemma list_ascii_rev_app (s1 s2 : string) :
  list_ascii_of_string (String.rev_app s1 s2) =
  rev (list_ascii_of_string s1) ++ list_ascii_of_string s2.
Proof.
  revert s2. induction s1 as [| a s1 IH]; intros s2; [done |].
  cbn. rewrite IH. cbn. by rewrite <- app_assoc.
Qed.

Lemma split_go_cons sep skip acc s :
  split_go sep skip acc s <> [].
Proof.
  revert skip acc. induction s as [| a s IH]; intros skip acc;
    cbn [split_go]; [done |].
  destruct skip; [| apply IH].
  destruct (String.prefix sep (String a s)); [done | apply IH].
Qed.

Lemma Join_cons p ps sep :
  ps <> [] -> Join (p :: ps) sep = p +:+ sep +:+ Join ps sep.
Proof. by destruct ps. Qed.

Lemma prefix_char (c a : ascii) (s : string) :
  String.prefix (String c "") (String a s) = bool_decide (c = a).
Proof.
  cbn. destruct (ascii_dec c a) as [-> | Hne].
  - rewrite bool_decide_eq_true_2 by done. by destruct s.
  - by rewrite bool_decide_eq_false_2.
Qed.

Lemma Join_split_go (c : ascii) (acc s : string) :
  Join (split_go (String c "") 0 acc s) (String c "") = String.rev acc +:+ s.
Proof.
  revert acc. induction s as [| a s IH]; intros acc.
  - cbn. unfold String.rev. by rewrite rev_app_append.
  - cbn [split_go]. rewrite prefix_char. case_bool_decide as Hc.
    + subst a. cbn [String.length Nat.sub].
      rewrite Join_cons by apply split_go_cons. rewrite IH. done.
    + rewrite IH. unfold String.rev. cbn. by rewrite !rev_app_append.
Qed.

Lemma not_elem_of_rev {A : Type} (x : A) (l : list A) : x ∉ l -> x ∉ rev l.
Proof. rewrite !list_elem_of_In. by rewrite <- in_rev. Qed.

Lemma split_go_no_sep (c : ascii) (acc s : string) :
  c ∉ list_ascii_of_string acc ->
  Forall (fun p => c ∉ list_ascii_of_string p)
         (split_go (String c "") 0 acc s).
Proof.
  revert acc. induction s as [| a s IH]; intros acc Hacc.
  - cbn. constructor; [| constructor]. unfold String.rev.
    rewrite list_ascii_rev_app, app_nil_r. by apply not_elem_of_rev.
  - cbn [split_go]. rewrite prefix_char. case_bool_decide as Hc.
    + constructor.
      * unfold String.rev.
        rewrite list_ascii_rev_app, app_nil_r. by apply not_elem_of_rev.
      * apply IH. cbn. apply not_elem_of_nil.
    + apply IH. cbn. intros [? | ?]%elem_of_cons; done.
Qed.

(** ** Trimming *)

Section Trim.

Variable sp2 : ascii -> ascii -> bool.
Variable sp3 : ascii -> ascii -> ascii -> bool.

Lemma trim_go_clean l : lead sp2 sp3 l = false -> trim_go sp2 sp3 l = l.
Proof.
  destruct l as [| a [| b [| c l]]]; cbn; [done | | |].
  - by rewrite orb_false_r; intros ->.
  - rewrite orb_false_r. intros [-> ->]%orb_false_elim. done.
  - intros [-> [-> ->]%orb_false_elim]%orb_false_elim. done.
Qed.

Lemma trim_go_spec l :
  lead sp2 sp3 (trim_go sp2 sp3 l) = false /\
  exists pre, l = pre ++ trim_go sp2 sp3 l.
Proof.
  remember (length l) as n eqn:Hn. revert l Hn.
  induction n as [n IH] using lt_wf_ind. intros l ->.
  destruct l as [| a l1]; [split; [done | by exists []] |].
  cbn [trim_go]. destruct (asciiSpace a) eqn:Ha.
  { destruct (IH (length l1) ltac:(cbn; lia) l1 eq_refl) as [Hl [pre Hpre]].
    split; [done |]. exists (a :: pre). cbn. by f_equal. }
  destruct l1 as [| b l2].
  { split; [cbn; by rewrite Ha | by exists []]. }
  destruct (sp2 a b) eqn:Hab.
  { destruct (IH (length l2) ltac:(cbn; lia) l2 eq_refl) as [Hl [pre Hpre]].
    split; [done |]. exists (a :: b :: pre). cbn. by do 2 f_equal. }
  destruct l2 as [| c l3].
  { split; [cbn; by rewrite Ha, Hab | by exists []]. }
  destruct (sp3 a b c) eqn:Habc.
  { destruct (IH (length l3) ltac:(cbn; lia) l3 eq_refl) as [Hl [pre Hpre]].
    split; [done |]. exists (a :: b :: c :: pre). cbn. by do 3 f_equal. }
  split; [cbn; by rewrite Ha, Hab, Habc | by exists []].
Qed.

Lemma trim_go_idemp l :
  trim_go sp2 sp3 (trim_go sp2 sp3 l) = trim_go sp2 sp3 l.
Proof. apply trim_go_clean, trim_go_spec. Qed.

End Trim.

(** A list that does not start with white space has no prefix that does,
    the empty one apart. *)
Lemma lead_prefix (p q : list ascii) :
  lead space2 space3 (p ++ q) = false -> lead space2 space3 p = false.
Proof.
  destruct p as [| a [| b [| c p]]]; cbn; [done | | | done].
  - intros [-> _]%orb_false_elim. done.
  - intros [-> [-> _]%orb_false_elim]%orb_false_elim. done.
Qed.

Lemma TrimRight_prefix l : exists post, l = TrimRight l ++ post.
Proof.
  unfold TrimRight.
  destruct (trim_go_spec (fun a b => space2 b a) (fun a b c => space3 c b a)
              (rev l)) as [_ [pre Hpre]].
  exists (rev pre). rewrite <- rev_app_distr, <- Hpre. by rewrite rev_involutive.
Qed.

Lemma TrimRight_idemp l : TrimRight (TrimRight l) = TrimRight l.
Proof.
  unfold TrimRight. by rewrite rev_involutive, trim_go_idemp.
Qed.

Lemma TrimLeft_TrimRight l :
  lead space2 space3 l = false -> TrimLeft (TrimRight l) = TrimRight l.
Proof.
  intros Hl. apply trim_go_clean.
  destruct (TrimRight_prefix l) as [post Hpost].
  rewrite Hpost in Hl. by apply lead_prefix in Hl.
Qed.

Lemma TrimSpace_idemp s : TrimSpace (TrimSpace s) = TrimSpace s.
Proof.
  unfold TrimSpace. rewrite list_ascii_of_string_of_list_ascii.
  rewrite TrimLeft_TrimRight by apply trim_go_spec.
  by rewrite TrimRight_idemp.
Qed.

Lemma space2_not_ascii a b : space2 a b = true -> asciiSpace a = false.
Proof.
  unfold space2, asciiSpace. intros [Ha _]%andb_true_iff.
  apply Nat.eqb_eq in Ha. by rewrite Ha.
Qed.

Lemma space3_not_shorter a b c :
  space3 a b c = true -> asciiSpace a = false /\ space2 a b = false.
Proof.
  unfold space3, space2, asciiSpace. cbn zeta.
  repeat rewrite orb_true_iff. repeat rewrite andb_true_iff.
  intros [[[[[Ha _] _] | [[Ha _] _]] | [[Ha _] _]] | [[Ha _] _]];
    apply Nat.eqb_eq in Ha; by rewrite Ha.
Qed.

Lemma TrimLeft_white l : white l -> TrimLeft l = [].
Proof.
  unfold TrimLeft.
  induction 1 as [| a l Ha _ IH | a b l Hab _ IH | a b c l Habc _ IH]; cbn.
  - done.
  - by rewrite Ha.
  - by rewrite (space2_not_ascii a b Hab), Hab.
  - destruct (space3_not_shorter a b c Habc) as [-> ->]. by rewrite Habc.
Qed.

Lemma TrimSpace_white s :
  white (list_ascii_of_string s) -> TrimSpace s = "".
Proof. intros Hs. unfold TrimSpace. by rewrite TrimLeft_white. Qed.

Lemma string_of_list_ascii_app (l1 l2 : list ascii) :
  string_of_list_ascii (l1 ++ l2) =
  string_of_list_ascii l1 +:+ string_of_list_ascii l2.
Proof. induction l1 as [| a l1 IH]; [done |]. cbn. by rewrite IH. Qed.

Lemma TrimSpace_substring s :
  exists l r, s = l +:+ TrimSpace s +:+ r.
Proof.
  unfold TrimSpace, TrimLeft.
  destruct (trim_go_spec space2 space3 (list_ascii_of_string s))
    as [_ [pre Hpre]].
  destruct (TrimRight_prefix (trim_go space2 space3 (list_ascii_of_string s)))
    as [post Hpost].
  exists (string_of_list_ascii pre), (string_of_list_ascii post).
  rewrite <- (string_of_list_ascii_of_string s) at 1.
  rewrite Hpre at 1. rewrite Hpost at 1.
  by rewrite !string_of_list_ascii_app.
Qed.

(** White space put after white space is white space. *)
Lemma white_app l1 l2 : white l1 -> white l2 -> white (l1 ++ l2).
Proof.
  induction 1 as [| a l Ha _ IH | a b l Hab _ IH | a b c l Habc _ IH];
    intros Hl2; cbn.
  - done.
  - by apply white_ascii, IH.
  - by apply white_two, IH.
  - by apply white_three, IH.
Qed.

(** What [trim_go] takes off is made of the runes that it recognises. *)
Lemma trim_go_removed (sp2 : ascii -> ascii -> bool)
    (sp3 : ascii -> ascii -> ascii -> bool) (P : list ascii -> Prop) :
  P [] ->
  (forall a l, asciiSpace a = true -> P l -> P (a :: l)) ->
  (forall a b l, sp2 a b = true -> P l -> P (a :: b :: l)) ->
  (forall a b c l, sp3 a b c = true -> P l -> P (a :: b :: c :: l)) ->
  forall l, exists pre, l = pre ++ trim_go sp2 sp3 l /\ P pre.
Proof.
  intros Hnil H1 H2 H3 l.
  remember (length l) as n eqn:Hn. revert l Hn.
  induction n as [n IH] using lt_wf_ind. intros l ->.
  destruct l as [| a l1]; [by exists [] |].
  cbn [trim_go]. destruct (asciiSpace a) eqn:Ha.
  { destruct (IH (length l1) ltac:(cbn; lia) l1 eq_refl) as (pre & Hpre & HP).
    exists (a :: pre). split; [cbn; by f_equal | by apply H1]. }
  destruct l1 as [| b l2]; [by exists [] |].
  destruct (sp2 a b) eqn:Hab.
  { destruct (IH (length l2) ltac:(cbn; lia) l2 eq_refl) as (pre & Hpre & HP).
    exists (a :: b :: pre). split; [cbn; by do 2 f_equal | by apply H2]. }
  destruct l2 as [| c l3]; [by exists [] |].
  destruct (sp3 a b c) eqn:Habc; [| by exists []].
  destruct (IH (length l3) ltac:(cbn; lia) l3 eq_refl) as (pre & Hpre & HP).
  exists (a :: b :: c :: pre). split; [cbn; by do 3 f_equal | by apply H3].
Qed.

Lemma TrimLeft_removed l : exists pre, l = pre ++ TrimLeft l /\ white pre.
Proof.
  apply (trim_go_removed space2 space3 white); by constructor.
Qed.

Lemma TrimRight_removed l : exists post, l = TrimRight l ++ post /\ white post.
Proof.
  unfold TrimRight.
  destruct (trim_go_removed (fun a b => space2 b a)
              (fun a b c => space3 c b a) (fun pre => white (rev pre)))
    with (l := rev l) as (pre & Hpre & HP).
  - constructor.
  - intros a l' Ha Hl'. cbn. apply white_app; [done |].
    by apply white_ascii; [| constructor].
  - intros a b l' Hab Hl'. cbn. rewrite <- app_assoc. apply white_app; [done |].
    by apply white_two; [| constructor].
  - intros a b c l' Habc Hl'. cbn. rewrite <- !app_assoc.
    apply white_app; [done |]. by apply white_three; [| constructor].
  - exists (rev pre). split; [| done].
    rewrite <- rev_app_distr, <- Hpre. by rewrite rev_involutive.
Qed.

(** [strings.TrimSpace] takes white space off both ends, and all of it. *)
Lemma TrimSpace_spec s :
  exists l r,
    s = l +:+ TrimSpace s +:+ r /\
    white (list_ascii_of_string l) /\ white (list_ascii_of_string r) /\
    starts_white (TrimSpace s) = false /\ ends_white (TrimSpace s) = false.
Proof.
  unfold starts_white, ends_white, TrimSpace.
  rewrite list_ascii_of_string_of_list_ascii.
  destruct (TrimLeft_removed (list_ascii_of_string s)) as (pre & Hpre & Hw).
  destruct (TrimRight_removed (TrimLeft (list_ascii_of_string s)))
    as (post & Hpost & Hw').
  exists (string_of_list_ascii pre), (string_of_list_ascii post).
  rewrite !list_ascii_of_string_of_list_ascii.
  split; [| split; [done | split; [done | split]]].
  - rewrite <- (string_of_list_ascii_of_string s) at 1.
    rewrite Hpre at 1. rewrite Hpost at 1.
    by rewrite !string_of_list_ascii_app.
  - pose proof (proj1 (trim_go_spec space2 space3 (list_ascii_of_string s)))
      as Hlead.
    fold (TrimLeft (list_ascii_of_string s)) in Hlead.
    rewrite Hpost in Hlead. by apply lead_prefix in Hlead.
  - unfold TrimRight. rewrite rev_involutive. apply trim_go_spec.
Qed.

Lemma TrimSpace_empty_iff s :
  TrimSpace s = "" <-> white (list_ascii_of_string s).
Proof.
  split; [| apply TrimSpace_white].
  intros Hs. destruct (TrimSpace_spec s) as (l & r & Heq & Hl & Hr & _).
  assert (Happ : forall a b : string,
    list_ascii_of_string (a +:+ b) =
    list_ascii_of_string a ++ list_ascii_of_string b).
  { intros a b. induction a as [| c a IH]; [done |].
    change (c :: list_ascii_of_string (a +:+ b) =
            c :: (list_ascii_of_string a ++ list_ascii_of_string b)).
    by f_equal. }
  rewrite Hs in Heq. rewrite Heq, !Happ. by apply white_app.
Qed.

(** C6.  The statements of a template [tpl] are obtained by cutting it at
    every [;] (joining the pieces with [;] gives the template back, and no
    piece contains a [;]), trimming each piece, and dropping the pieces of
    which nothing is left.  Trimming takes white-space runes, and nothing
    else, off both ends of a piece until neither end is white; nothing is
    left exactly of the pieces that are white space throughout.  So every
    statement is non-empty, lies in a piece between two runs of white
    space and has no white space at either end; every piece that is not
    white space throughout gives a statement; and the white pieces give
    none.  The template of semicolons and white space only has no
    statement; one with statements between blank pieces has just these.
    The loops of the plugin run exactly these statements ([run_tx_loops],
    [run_db_loops]). *)
Theorem statement_splitting (tpl : string) :
  let pieces := strutil.ParseArbitraryStringSlice tpl ";" in
  let stmts := queries_of strutil.ParseArbitraryStringSlice tpl in
  Join pieces ";" = tpl /\
  Forall (fun p => ";"%char ∉ list_ascii_of_string p) pieces /\
  stmts = filter (fun q => q <> "") (TrimSpace <$> pieces) /\
  (forall p,
      exists l r,
        p = l +:+ TrimSpace p +:+ r /\
        white (list_ascii_of_string l) /\ white (list_ascii_of_string r) /\
        starts_white (TrimSpace p) = false /\
        ends_white (TrimSpace p) = false) /\
  (forall p, TrimSpace p = "" <-> white (list_ascii_of_string p)) /\
  Forall (fun q => q <> "" /\ TrimSpace q = q /\
                   starts_white q = false /\ ends_white q = false /\
                   exists p l r,
                     p ∈ pieces /\ p = l +:+ q +:+ r /\
                     white (list_ascii_of_string l) /\
                     white (list_ascii_of_string r)) stmts /\
  (forall p,
      p ∈ pieces -> ~ white (list_ascii_of_string p) ->
      TrimSpace p <> "" /\ TrimSpace p ∈ stmts) /\
  (forall p,
      white (list_ascii_of_string p) ->
      TrimSpace p = "" /\ TrimSpace p ∉ stmts) /\
  queries_of strutil.ParseArbitraryStringSlice (";;  ;" +:+ nl +:+ ";") = [] /\
  queries_of strutil.ParseArbitraryStringSlice
    (" CREATE LOGIN [a] ; ;" +:+ nl +:+ tab +:+ "DROP USER [b];" +:+ nl) =
    ["CREATE LOGIN [a]"; "DROP USER [b]"] /\
  (forall tpl',
      tpl' = tpl -> queries_of strutil.ParseArbitraryStringSlice tpl' = stmts).
Proof.
  cbn zeta. unfold queries_of, strutil.ParseArbitraryStringSlice, Split.
  assert (Hfilter : forall l : list string,
    filter (fun q => (String.length q =? 0)%nat = false) l =
    filter (fun q => q <> "") l).
  { intros l. apply list_filter_iff. intros [| a q]; cbn; [| done].
    split; [done | by intros []]. }
  rewrite Hfilter.
  split; [apply (Join_split_go ";" "" tpl) |].
  split; [apply split_go_no_sep, not_elem_of_nil |].
  split; [done |].
  split; [apply TrimSpace_spec |].
  split; [apply TrimSpace_empty_iff |].
  assert (Hstmts : forall q,
    q ∈ filter (fun q => q <> "") (map TrimSpace (split_go ";" 0 "" tpl)) <->
    q <> "" /\ exists p, p ∈ split_go ";" 0 "" tpl /\ q = TrimSpace p).
  { intros q. rewrite list_elem_of_filter, list_elem_of_In, in_map_iff.
    split.
    - intros [Hq (p & <- & Hp)]. split; [done |]. exists p.
      by rewrite list_elem_of_In.
    - intros [Hq (p & Hp & ->)]. split; [done |]. exists p.
      by rewrite <- list_elem_of_In. }
  split.
  { apply Forall_forall. intros q (Hq & p & Hp & ->)%Hstmts.
    destruct (TrimSpace_spec p) as (l & r & Hlr & Hl & Hr & Hs & He).
    split; [done |]. split; [apply TrimSpace_idemp |].
    split; [done |]. split; [done |]. by exists p, l, r. }
  split.
  { intros p Hp Hw.
    assert (Hne : TrimSpace p <> "") by by rewrite TrimSpace_empty_iff.
    split; [done |]. apply Hstmts. split; [done |]. by exists p. }
  split.
  { intros p Hp. rewrite (TrimSpace_white p Hp). split; [done |].
    by intros [? _]%Hstmts. }
  split; [reflexivity |]. split; [reflexivity | by intros ? ->].
Qed.

(** ** The lock discipline of the operations *)

Lemma lock_free_bind {A B : Type} (p : Prog A) (f : A -> Prog B) :
  lock_free p -> (forall a, lock_free (f a)) -> lock_free (bind p f).
Proof.
  intros Hp Hf. induction p as [a | X e k IH]; cbn in *; [done |].
  destruct Hp as [He Hk]. split; [done |]. intros x. by apply IH.
Qed.

Lemma lock_free_call {X : Type} (e : dbE X) :
  lock_kind e = None -> lock_free (call e).
Proof. by intros He. Qed.

Lemma lock_free_defer {X R : Type} (d : dbE X) (body : Prog R) :
  lock_kind d = None -> lock_free body -> lock_free (defer d body).
Proof.
  intros Hd Hbody. unfold defer. apply lock_free_bind; [done |].
  intros r. by apply lock_free_bind.
Qed.

Lemma lock_free_for_range {A : Type} (l : list A)
    (body : A -> Prog (option error)) :
  (forall x, lock_free (body x)) -> lock_free (for_range l body).
Proof.
  intros Hbody. induction l as [| x l IH]; [done |]. cbn.
  apply lock_free_bind; [done |]. by intros [err |].
Qed.

Lemma lock_free_for_fold {A S : Type} (l : list A) (s : S)
    (body : S -> A -> Prog S) :
  (forall s x, lock_free (body s x)) -> lock_free (for_fold l s body).
Proof.
  intros Hbody. revert s. induction l as [| x l IH]; intros s; [done |]. cbn.
  by apply lock_free_bind.
Qed.

Lemma in_section_bind {A B : Type} (p : Prog A) (f : A -> Prog B) :
  lock_free p -> (forall a, in_section (f a)) -> in_section (bind p f).
Proof.
  intros Hp Hf. induction p as [a | X e k IH]; cbn in *; [done |].
  destruct Hp as [-> Hk]. intros x. by apply IH.
Qed.

Lemma in_section_defer_Unlock {R : Type} (body : Prog R) :
  lock_free body -> in_section (defer Unlock body).
Proof.
  intros Hbody. unfold defer. apply in_section_bind; [done |].
  intros r x. exact I.
Qed.

Lemma in_section_then {A B : Type} (p : Prog A) (f : A -> Prog B) :
  in_section p -> (forall a, finished (f a)) -> in_section (bind p f).
Proof.
  intros Hp Hf. induction p as [a | X e k IH]; cbn in *; [done |].
  destruct (lock_kind e) as [[|] |]; [done | | intros x; apply IH, Hp].
  intros x. specialize (Hp x). destruct (k x); [apply Hf | done].
Qed.

Lemma guarded_then {A B : Type} (p : Prog A) (f : A -> Prog B) :
  guarded p -> (forall a, finished (f a)) -> guarded (bind p f).
Proof.
  intros Hp Hf. destruct p as [a | X e k]; cbn in *.
  - specialize (Hf a). by destruct (f a).
  - destruct Hp as [He Hk]. split; [done |]. intros x. by apply in_section_then.
Qed.

(** Work through a program that never touches the mutex. *)
Ltac lock_free_tac :=
  repeat first
    [ exact I
    | apply lock_free_bind
    | apply lock_free_defer; [reflexivity |]
    | apply lock_free_call; reflexivity
    | apply lock_free_for_range; intros ?
    | apply lock_free_for_fold; intros ? ?
    | progress intros
    | match goal with
      | |- lock_free (match ?x with _ => _ end) => destruct x
      | |- lock_free (if ?b then _ else _) => destruct b
      | |- lock_free (Ret _) => exact I
      end ].

Section Discipline.

Variable Time : Type.
Variable Format : Time -> string -> string.
Variable Parse : string -> string -> list string.

Lemma NewUser_guarded req : guarded (NewUser Time Format Parse req).
Proof.
  unfold NewUser, getConnection. split; [done |]. intros [].
  apply in_section_defer_Unlock. lock_free_tac.
Qed.

Lemma updateUserPass_guarded username changePass :
  guarded (updateUserPass Parse username changePass).
Proof.
  unfold updateUserPass, getConnection.
  destruct (_ || _); [done |].
  split; [done |]. intros [].
  apply in_section_defer_Unlock. lock_free_tac.
Qed.

Lemma UpdateUser_guarded req : guarded (UpdateUser Time Parse req).
Proof.
  unfold UpdateUser. destruct (_ && _); [done |].
  destruct (UpdateUser_Password req) as [changePass |]; [| done].
  apply guarded_then; [apply updateUserPass_guarded | done].
Qed.

Lemma revokeUserDefault_lock_free username :
  lock_free (revokeUserDefault username).
Proof. unfold revokeUserDefault, getConnection. lock_free_tac. Qed.

Lemma DeleteUser_lock_free req : lock_free (DeleteUser Parse req).
Proof.
  unfold DeleteUser, getConnection.
  destruct (_ =? _)%nat.
  - apply lock_free_bind; [apply revokeUserDefault_lock_free | done].
  - lock_free_tac.
Qed.

End Discipline.

(** ** The lock in the call log of one call *)

Lemma is_lock_kind {X : Type} (e : dbE X) (x : X) :
  is_lock (Ev e x) = bool_decide (lock_kind e <> None).
Proof. by destruct e. Qed.

Lemma lock_free_run {R : Type} (h : env) (p : Prog R) hist :
  lock_free p -> Forall (fun ev => is_lock ev = false) (run h p hist).2.
Proof.
  revert hist. induction p as [r | X e k IH]; intros hist Hp; cbn in *.
  - constructor.
  - destruct Hp as [He Hk].
    specialize (IH (h X hist e) (hist ++ [Ev e (h X hist e)]) (Hk _)).
    destruct (run h (k _) _) as [r t]. cbn in *. constructor; [| done].
    rewrite is_lock_kind, He. done.
Qed.

Lemma in_section_run {R : Type} (h : env) (p : Prog R) hist :
  in_section p ->
  exists mid,
    (run h p hist).2 = mid ++ [Ev Unlock tt] /\
    Forall (fun ev => is_lock ev = false) mid.
Proof.
  revert hist. induction p as [r | X e k IH]; intros hist Hp; cbn in *;
    [done |].
  destruct (lock_kind e) as [[|] |] eqn:He; [done | |].
  - specialize (Hp (h X hist e)). exists [].
    destruct (k (h X hist e)); [| done]. cbn.
    split; [| constructor]. destruct e; try done. by destruct (h _ hist Unlock).
  - destruct (IH (h X hist e) (hist ++ [Ev e (h X hist e)]) (Hp _))
      as (mid & Hmid & Hfree).
    destruct (run h (k _) _) as [r t]. cbn in *. subst t.
    exists (Ev e (h X hist e) :: mid). split; [done |].
    constructor; [| done]. rewrite is_lock_kind, He. done.
Qed.

Lemma guarded_run {R : Type} (h : env) (p : Prog R) hist :
  guarded p ->
  (run h p hist).2 = [] \/
  exists mid,
    (run h p hist).2 = Ev Lock tt :: mid ++ [Ev Unlock tt] /\
    Forall (fun ev => is_lock ev = false) mid.
Proof.
  destruct p as [r | X e k]; cbn; [by left |].
  intros [He Hk]. right.
  destruct (in_section_run h (k (h X hist e)) (hist ++ [Ev e (h X hist e)])
              (Hk _)) as (mid & Hmid & Hfree).
  destruct (run h (k _) _) as [r t]. cbn in *. subst t.
  exists mid. split; [| done].
  destruct e; try done. by destruct (h _ hist Lock).
Qed.

(** ** Calls side by side *)

Lemma holder_of_snoc l i {X : Type} (e : dbE X) (x : X) :
  holder_of (l ++ [(i, Ev e x)]) = next_holder e i (holder_of l).
Proof. unfold holder_of. by rewrite foldl_app. Qed.

Lemma holder_of_quiet l mid :
  Forall (fun entry : nat * event => is_lock entry.2 = false) mid ->
  holder_of (l ++ mid) = holder_of l.
Proof.
  induction mid as [| [i [X e x]] mid IH] using rev_ind; intros Hmid;
    [by rewrite app_nil_r |].
  apply Forall_app in Hmid as [Hmid He]. rewrite Forall_singleton in He.
  rewrite app_assoc, holder_of_snoc, IH by done. cbn [snd] in He.
  rewrite is_lock_kind in He. unfold next_holder.
  by destruct (lock_kind e).
Qed.

Lemma snoc_split {A : Type} (l pre post : list A) (a b : A) :
  l ++ [a] = pre ++ b :: post ->
  (post = [] /\ l = pre /\ a = b) \/
  exists post', post = post' ++ [a] /\ l = pre ++ b :: post'.
Proof.
  destruct post as [| c post _] using rev_ind.
  - intros [-> ->]%app_inj_tail. by left.
  - rewrite app_comm_cons, app_assoc. intros [-> ->]%app_inj_tail.
    right. by exists post.
Qed.

Lemma finished_guarded {R : Type} (p : Prog R) : finished p -> guarded p.
Proof. by destruct p. Qed.

Lemma lock_invariant_start (cls : nat -> bool) (pool : list thread) :
  (forall i t,
      pool !! i = Some t ->
      if cls i then guarded (projT2 t) else lock_free (projT2 t)) ->
  lock_invariant cls (start pool).
Proof.
  intros Hpool. split; [done |]. split.
  - intros i t Ht. specialize (Hpool i t Ht). unfold thread_ok.
    destruct (cls i); [right |]; done.
  - intros pre i ev post Hlog. by destruct pre.
Qed.

Lemma lock_invariant_step (cls : nat -> bool) (w w' : world) :
  lock_invariant cls w -> step w w' -> lock_invariant cls w'.
Proof.
  intros (Hholder & Hthreads & Hlog) Hstep.
  destruct Hstep as [w i R X e k x Hi Hrun].
  pose proof (Hthreads i _ Hi) as Hok. unfold thread_ok in Hok. cbn in Hok.
  assert (Hturn : match lock_kind e with
                  | Some true => cls i = true /\ holder w = None
                  | Some false => cls i = true /\ holder w = Some i
                  | None => if cls i then holder w = Some i else True
                  end).
  { unfold may_run in Hrun.
    destruct (cls i), (lock_kind e) as [[|] |];
      first [ done
            | by destruct Hok as [[? ?] | [[? ?] ?]]
            | by destruct Hok ]. }
  split; [| split]; cbn.
  - by rewrite holder_of_snoc, Hholder.
  - intros j t Hj. destruct (decide (j = i)) as [-> | Hne].
    + rewrite list_lookup_insert_eq in Hj by (by eapply lookup_lt_Some).
      injection Hj as <-. unfold thread_ok, next_holder. cbn.
      destruct (cls i), (lock_kind e) as [[|] |] eqn:He.
      * left. split; [| done]. destruct Hok as [[] | [[_ Hk] _]]; [done |].
        apply Hk.
      * right. destruct Hok as [[Hk _] | [[? _] _]]; [| done].
        split; [apply finished_guarded, Hk | done].
      * left. destruct Hok as [[Hk ?] | [[? _] _]]; [| done]. split; [apply Hk | done].
      * by destruct Hok.
      * by destruct Hok.
      * apply Hok.
    + rewrite list_lookup_insert_ne in Hj by done.
      specialize (Hthreads j t Hj). unfold thread_ok, next_holder in *.
      destruct (cls j); [| done].
      destruct (lock_kind e) as [[|] |]; [| | done].
      * destruct Hturn as [_ Hnone]. rewrite Hnone in Hthreads.
        right. destruct Hthreads as [[_ ?] | [? _]]; [done |].
        split; [done |]. by intros [= ->].
      * destruct Hturn as [_ Hsome]. rewrite Hsome in Hthreads.
        right. destruct Hthreads as [[_ [= ->]] | [? _]]; [done |].
        split; done.
  - intros pre j ev post Hsplit.
    apply snoc_split in Hsplit
      as [(-> & <- & [= <- <-]) | (post' & -> & Hold)].
    + rewrite is_lock_kind, Hholder.
      destruct (lock_kind e) as [[|] |], (cls i); try done.
      all: by destruct Hturn.
    + by apply (Hlog pre j ev post').
Qed.

Lemma lock_invariant_reachable (cls : nat -> bool) (w w' : world) :
  lock_invariant cls w -> rtc step w w' -> lock_invariant cls w'.
Proof.
  intros Hinv Hsteps. induction Hsteps as [| w1 w2 w3 Hstep _ IH]; [done |].
  by eapply IH, lock_invariant_step.
Qed.

Section Exclusion.

Variable Time : Type.
Variable Format : Time -> string -> string.
Variable Parse : string -> string -> list string.

Lemma plugin_call_disciplined (b : bool) (t : thread) :
  plugin_call Time Format Parse b t ->
  if b then guarded (projT2 t) else lock_free (projT2 t).
Proof.
  intros [req | req | req]; cbn.
  - apply NewUser_guarded.
  - apply UpdateUser_guarded.
  - apply DeleteUser_lock_free.
Qed.

(** C9.  Every run of [NewUser] starts by taking the lock and ends by
    releasing it, with all its other calls in between; so does every run
    of [updateUserPass] that makes a call at all; no run of [DeleteUser]
    touches the lock.  When any number of such calls run side by side,
    each answered at will and [Lock] waiting for the mutex to be free: at
    every call that a create or an update makes on the handle, that caller
    holds the mutex; two such calls with no lock or unlock between them
    come from the same caller; and a delete never locks or unlocks. *)
Theorem lock_discipline :
  (forall h req hist,
      exists mid,
        (run h (NewUser Time Format Parse req) hist).2 =
          Ev Lock tt :: mid ++ [Ev Unlock tt] /\
        Forall (fun ev => is_lock ev = false) mid) /\
  (forall h username changePass hist,
      let tr := (run h (updateUserPass Parse username changePass) hist).2 in
      tr = [] \/
      exists mid,
        tr = Ev Lock tt :: mid ++ [Ev Unlock tt] /\
        Forall (fun ev => is_lock ev = false) mid) /\
  (forall h req hist,
      Forall (fun ev => is_lock ev = false)
             (run h (DeleteUser Parse req) hist).2) /\
  (forall (cls : nat -> bool) (pool : list thread) (w : world),
      (forall i t,
          pool !! i = Some t -> plugin_call Time Format Parse (cls i) t) ->
      rtc step (start pool) w ->
      (forall pre i ev post,
          log w = pre ++ (i, ev) :: post ->
          cls i = true -> is_lock ev = false ->
          holder_of pre = Some i) /\
      (forall pre i ev mid j ev' post,
          log w = pre ++ (i, ev) :: mid ++ (j, ev') :: post ->
          cls i = true -> cls j = true ->
          is_lock ev = false -> is_lock ev' = false ->
          Forall (fun entry : nat * event => is_lock entry.2 = false) mid ->
          i = j) /\
      (forall pre i ev post,
          log w = pre ++ (i, ev) :: post ->
          cls i = false -> is_lock ev = false)).
Proof.
  split; [| split; [| split]].
  - intros h req hist.
    destruct (guarded_run h _ hist (NewUser_guarded Time Format Parse req))
      as [Hnil | Hmid]; [| done].
    unfold NewUser in Hnil. cbn in Hnil. by destruct (run h _ _).
  - intros h username changePass hist.
    apply guarded_run, updateUserPass_guarded.
  - intros h req hist. apply lock_free_run, DeleteUser_lock_free.
  - intros cls pool w Hpool Hsteps.
    assert (Hinv : lock_invariant cls w).
    { eapply lock_invariant_reachable; [| done].
      apply lock_invariant_start. intros i t Ht.
      apply plugin_call_disciplined, Hpool, Ht. }
    destruct Hinv as (_ & _ & Hlog).
    assert (Hheld : forall pre i ev post,
      log w = pre ++ (i, ev) :: post ->
      cls i = true -> is_lock ev = false -> holder_of pre = Some i).
    { intros pre i ev post Hsplit Hi Hev.
      specialize (Hlog pre i ev post Hsplit). rewrite Hi in Hlog. auto. }
    split; [done |]. split.
    + intros pre i ev mid j ev' post Hsplit Hi Hj Hev Hev' Hmid.
      pose proof (Hheld pre i ev _ Hsplit Hi Hev) as Hpre.
      replace (pre ++ (i, ev) :: mid ++ (j, ev') :: post)
        with ((pre ++ (i, ev) :: mid) ++ (j, ev') :: post) in Hsplit
        by (by rewrite <- app_assoc).
      pose proof (Hheld _ j ev' _ Hsplit Hj Hev') as Hmid'.
      rewrite (holder_of_quiet pre ((i, ev) :: mid)) in Hmid'
        by (by constructor).
      congruence.
    + intros pre i ev post Hsplit Hi.
      specialize (Hlog pre i ev post Hsplit). by rewrite Hi in Hlog.
Qed.

End Exclusion.

(** The hypothesis of [NewUser_no_statements] holds of a concrete request. *)
Lemma NewUser_no_statements_witness :
  Commands (NewUser_Statements request_without_statements) = [] /\
  exists c : option collab_error,
    run (scripted healthy)
        (NewUser Z seconds_Format strutil.ParseArbitraryStringSlice
                 request_without_statements) [] =
      ({| Username := "" |},
       Some (match c with
             | Some err => Errorf_w "unable to get connection: %w" (Ext err)
             | None => ErrEmptyCreationStatement
             end),
       [Ev Lock tt; Ev Connection c; Ev Unlock tt]) /\
    Forall (fun ev => is_sql ev = false)
           (run (scripted healthy)
                (NewUser Z seconds_Format strutil.ParseArbitraryStringSlice
                         request_without_statements) []).2.
Proof.
  split; [reflexivity |].
  apply (NewUser_no_statements Z seconds_Format
           strutil.ParseArbitraryStringSlice (scripted healthy)
           request_without_statements []).
  reflexivity.
Defined.


(** [NewUser_transaction] at work: once with a database that refuses the
    second statement, once with one that accepts everything. *)
Lemma NewUser_transaction_witness :
  let failed :=
    run (scripted refusing_create_user)
        (NewUser Z seconds_Format strutil.ParseArbitraryStringSlice
                 request_two_statements) [] in
  let passed :=
    run (scripted healthy)
        (NewUser Z seconds_Format strutil.ParseArbitraryStringSlice
                 request_two_statements) [] in
  ((failed.1).2 =
     Some (Ext (ErrOther
       "rejected: CREATE USER [{{name}}] FOR LOGIN [{{name}}]")) /\
   Username (failed.1).1 = "" /\
   exists pre r,
     failed.2 =
       pre ++ [Ev (ExecuteTxQuery
                     (<[ "name" := "v-app-svc-x7" ]>
                        (<[ "password" := "P@ss1" ]>
                           {[ "expiration" := "1900000000" ]}))
                     "CREATE USER [{{name}}] FOR LOGIN [{{name}}]")
                  (Some (ErrOther
                     "rejected: CREATE USER [{{name}}] FOR LOGIN [{{name}}]"));
               Ev Rollback r; Ev Unlock tt] /\
     omap commit_of pre = []) /\
  ((passed.1).2 = None /\
   omap generated_of passed.2 = [inr (Username (passed.1).1)]).
Proof.
  split.
  - apply (proj1 (NewUser_transaction Z seconds_Format
                    strutil.ParseArbitraryStringSlice
                    (scripted refusing_create_user)
                    request_two_statements [])).
    vm_compute. apply list_elem_of_further, list_elem_of_here.
  - apply (proj2 (NewUser_transaction Z seconds_Format
                    strutil.ParseArbitraryStringSlice
                    (scripted healthy) request_two_statements [])).
    + reflexivity.
    + vm_compute. apply list_elem_of_here.
Defined.
(** C1 as stated fails: with no creation statement and a connection that
    cannot be had, [NewUser] has already called the connection producer and
    returns the connection error, not [ErrEmptyCreationStatement]. *)
Lemma NewUser_no_statements_unreachable :
  Commands (NewUser_Statements request_without_statements) = [] /\
  run (scripted unreachable)
      (NewUser Z seconds_Format strutil.ParseArbitraryStringSlice
               request_without_statements) [] =
    ({| Username := "" |},
     Some (Errorf_w "unable to get connection: %w"
                    (Ext (ErrOther "connection refused"))),
     [Ev Lock tt; Ev Connection (Some (ErrOther "connection refused"));
      Ev Unlock tt]) /\
  Some (Errorf_w "unable to get connection: %w"
                 (Ext (ErrOther "connection refused")))
    <> Some ErrEmptyCreationStatement.
Proof. split; [reflexivity |]. split; [reflexivity | discriminate]. Qed.

(** [DeleteUser_best_effort] at work: the first of two statements fails,
    the second is attempted all the same, and the aggregate has the one
    failure. *)
Lemma DeleteUser_best_effort_witness :
  let out :=
    run (scripted refusing_drop_user)
        (DeleteUser strutil.ParseArbitraryStringSlice delete_with_statements)
        [] in
  Commands (DeleteUser_Statements delete_with_statements) <> [] /\
  db_execs out.2 =
    [({[ "name" := "v-app-svc-x7" ]}, "DROP USER [{{name}}]",
      Some (ErrOther "rejected: DROP USER [{{name}}]"));
     ({[ "name" := "v-app-svc-x7" ]}, "DROP LOGIN [{{name}}]", None)] /\
  ((exists cerr,
       (out.1).2 =
         Some (Errorf_w "unable to get connection: %w" (Ext cerr)) /\
       out.2 = [Ev Connection (Some cerr)]) \/
   (out.2 =
      Ev Connection None ::
      ((fun x : Placeholders * string * option collab_error =>
          Ev (ExecuteDBQuery x.1.1 x.1.2) x.2) <$> db_execs out.2) /\
    (db_execs out.2).*1 =
      (fun q => ({[ "name" := "v-app-svc-x7" ]}, q)) <$>
      flat_map (queries_of strutil.ParseArbitraryStringSlice)
               (Commands (DeleteUser_Statements delete_with_statements)) /\
    ((out.1).2 = None <-> failures (db_execs out.2) = []) /\
    (failures (db_execs out.2) <> [] ->
     (out.1).2 = Some (MultiError (Ext <$> failures (db_execs out.2)))))).
Proof.
  split; [discriminate |]. split; [reflexivity |].
  apply (DeleteUser_best_effort strutil.ParseArbitraryStringSlice
           (scripted refusing_drop_user) delete_with_statements []).
  discriminate.
Defined.

(** C5 as stated fails: with two statements supplied and a connection that
    cannot be had, [DeleteUser] attempts neither, and it fails although no
    statement failed, with an error that is not an aggregate. *)
Lemma DeleteUser_unreachable :
  flat_map (queries_of strutil.ParseArbitraryStringSlice)
           (Commands (DeleteUser_Statements delete_with_statements)) =
    ["DROP USER [{{name}}]"; "DROP LOGIN [{{name}}]"] /\
  run (scripted unreachable)
      (DeleteUser strutil.ParseArbitraryStringSlice delete_with_statements)
      [] =
    (Build_DeleteUserResponse,
     Some (Errorf_w "unable to get connection: %w"
                    (Ext (ErrOther "connection refused"))),
     [Ev Connection (Some (ErrOther "connection refused"))]) /\
  db_execs [Ev Connection (Some (ErrOther "connection refused"))] = [].
Proof. split; [reflexivity |]. split; reflexivity. Qed.

(** [revokeUserDefault_cascade] at work: one session, one mapped database,
    and the kill fails.  The drop of the user is attempted after the kill,
    and the failure is reported as "could not perform all sql statements". *)
Lemma revokeUserDefault_cascade_witness :
  let out := run (scripted refusing_kill) (revokeUserDefault "v-app-svc-x7") [] in
  (db_execs out.2).*1.*2 =
    ["KILL 51;"; dropUserSQL "db1" "v-app-svc-x7" "v-app-svc-x7"] /\
  failures (db_execs out.2) <> [] /\
  exists rows,
    omap mappings_of out.2 = [rows] /\
    match rows_err rows with
    | Some e =>
      out.1 = Some (Wrapf
        "could not generate sql statements for all rows: {{err}}" (Ext e))
    | None =>
      exists e,
        last (failures (db_execs out.2)) = Some e /\
        out.1 = Some (Wrapf
          "could not perform all sql statements: {{err}}" (Ext e))
    end.
Proof.
  split; [reflexivity |]. split; [vm_compute; discriminate |].
  apply (proj1 (proj2 (proj2 (proj2
           (revokeUserDefault_cascade (scripted refusing_kill)
              "v-app-svc-x7" []))))).
  vm_compute. discriminate.
Defined.



(** ** Errors behind the middleware *)

Section Sanitizer.

Variable Time : Type.
Variable Format : Time -> string -> string.
Variable Parse : string -> string -> list string.

Lemma run_sanitized {R : Type} (h : env) (op : Prog (R * option error))
    (secrets : gmap string string) hist :
  run h (bind op (fun r => Ret (r.1, newdbplugin.sanitize secrets <$> r.2)))
      hist =
  (((run h op hist).1).1,
   newdbplugin.sanitize secrets <$> ((run h op hist).1).2,
   (run h op hist).2).
Proof.
  rewrite run_bind. destruct (run h op hist) as [[r err] t]. cbn.
  by rewrite app_nil_r.
Qed.

(** C8, as amended.  The secret-value map of the plugin sends the
    connection password to "[password]".  Every operation of the plugin
    built by [New] makes the calls of the plugin's own operation and
    returns its result, with the error, if any, replaced by one whose text
    is that of the original error with every occurrence of the connection
    password replaced by "[password]". *)
Theorem New_sanitizes_errors (m : MSSQL) (h : env) hist :
  let plugin := New Time Format Parse m in
  let redact := newdbplugin.sanitize (secretValues m) in
  secretValues m = {[ Password (Producer m) := "[password]" ]} /\
  (forall err,
      Error (redact err) =
      ReplaceAll (Error err) (Password (Producer m)) "[password]") /\
  (forall req,
      let core := run h (Initialize req) hist in
      run h (Database_Initialize plugin req) hist =
      ((core.1).1, redact <$> (core.1).2, core.2)) /\
  (forall req,
      let core := run h (NewUser Time Format Parse req) hist in
      run h (Database_NewUser plugin req) hist =
      ((core.1).1, redact <$> (core.1).2, core.2)) /\
  (forall req,
      let core := run h (UpdateUser Time Parse req) hist in
      run h (Database_UpdateUser plugin req) hist =
      ((core.1).1, redact <$> (core.1).2, core.2)) /\
  (forall req,
      let core := run h (DeleteUser Parse req) hist in
      run h (Database_DeleteUser plugin req) hist =
      ((core.1).1, redact <$> (core.1).2, core.2)) /\
  Database_Type plugin = (msSQLTypeName, None).
Proof.
  cbn zeta. split; [done |]. split.
  { intros err. unfold newdbplugin.sanitize, secretValues. cbn [Error].
    by rewrite map_fold_singleton. }
  repeat split; intros req; apply run_sanitized.
Qed.

End Sanitizer.

(** C8 as stated fails: the connection password is replaced by
    "[password]", not by "[redacted]"; and the map has the connection
    password only, so that the password of a new user, quoted by the
    server, is surfaced as it is. *)
Lemma New_redacts_as_password :
  let plugin :=
    New Z seconds_Format strutil.ParseArbitraryStringSlice configured in
  let deleted :=
    run (scripted quoting_password)
        (Database_DeleteUser plugin delete_with_statements) [] in
  let created :=
    run quoting_new_password
        (Database_NewUser plugin request_two_statements) [] in
  secretValues configured !! "hunter2" = Some "[password]" /\
  secretValues configured <> {[ "hunter2" := "[redacted]" ]} /\
  (deleted.1).2 =
    Some (ErrorsNew
      "unable to get connection: login failed for 'sa' with password '[password]'") /\
  NewUser_Password request_two_statements = "P@ss1" /\
  (created.1).2 =
    Some (ErrorsNew "password validation failed for 'P@ss1'").
Proof.
  cbn zeta. split; [reflexivity |]. split; [| repeat split; reflexivity].
  intros H. apply (f_equal (fun s => s !! "hunter2")) in H.
  vm_compute in H. discriminate.
Qed.

(** Three calls side by side: the first create takes the lock, the delete
    obtains the connection, the first create obtains the connection. *)
Lemma three_callers_run :
  exists w,
    rtc step (start three_callers) w /\
    log w = [(0, Ev Lock tt); (1, Ev Connection None);
             (0, Ev Connection None)]%nat.
Proof.
  eexists. split.
  - eapply rtc_l.
    { eapply (step_call (start three_callers) 0 _ _ Lock _ tt);
        [reflexivity | reflexivity]. }
    eapply rtc_l.
    { eapply (step_call _ 1 _ _ Connection _ None); [reflexivity | exact I]. }
    eapply rtc_l.
    { eapply (step_call _ 0 _ _ Connection _ None); [reflexivity | exact I]. }
    apply rtc_refl.
  - reflexivity.
Qed.

Lemma three_callers_calls i t :
  three_callers !! i = Some t ->
  plugin_call Z seconds_Format strutil.ParseArbitraryStringSlice (creates i) t.
Proof.
  unfold three_callers.
  destruct i as [| [| [| i]]]; cbv [lookup list_lookup]; intros Ht;
    try done; injection Ht as <-; constructor.
Qed.

(** [lock_discipline] at work: in that run the first create holds the mutex
    when it obtains the connection, although the delete has made a call in
    between. *)
Lemma lock_discipline_witness :
  exists w,
    rtc step (start three_callers) w /\
    log w = [(0, Ev Lock tt); (1, Ev Connection None);
             (0, Ev Connection None)]%nat /\
    holder_of [(0, Ev Lock tt); (1, Ev Connection None)]%nat = Some 0%nat.
Proof.
  destruct three_callers_run as (w & Hsteps & Hlog).
  exists w. split; [exact Hsteps |]. split; [exact Hlog |].
  apply (proj1 (proj2 (proj2 (proj2
           (lock_discipline Z seconds_Format
              strutil.ParseArbitraryStringSlice)))
           creates three_callers w three_callers_calls Hsteps)
           [(0, Ev Lock tt); (1, Ev Connection None)]%nat 0%nat
           (Ev Connection None) []).
  - exact Hlog.
  - reflexivity.
  - reflexivity.
Defined.

(** ** Every run of [NewUser] and of [updateUserPass] *)

Section Outcomes.

Variable Time : Type.
Variable Format : Time -> string -> string.
Variable Parse : string -> string -> list string.

Lemma length_eqb_0 {A : Type} (l : list A) :
  (length l =? 0)%nat = bool_decide (l = []).
Proof. by destruct l. Qed.

Lemma NewUser_run_cases (h : env) (req : NewUserRequest Time) hist :
  NewUser_runs Time Format Parse req
    (run h (NewUser Time Format Parse req) hist).1
    (run h (NewUser Time Format Parse req) hist).2.
Proof.
  apply (post_run h (NewUser Time Format Parse req) hist
           (NewUser_runs Time Format Parse req)).
  unfold NewUser, getConnection.
  answer []. step; intros [].
  answer [cerr |]; [step; constructor |].
  rewrite length_eqb_0. case_bool_decide as Hcmds; [step; by constructor |].
  answer [gerr | username]; [step; by constructor |].
  answer [berr |]; [step; by constructor |].
  step; intros rb. step.
  apply (post_tx_loops h Parse (NewUser_map Time Format req username) Ext).
  - intros query hist'. cbn zeta.
    destruct (String.length (TrimSpace query) =? 0)%nat; [done |].
    rewrite run_bind, run_call. cbn beta iota zeta.
    by destruct (h _ hist' (ExecuteTxQuery _ _)).
  - answer [cerr |]; step; rewrite ?app_nil_r, <- ?app_assoc.
    + by apply (NewUser_commit_failed Time Format Parse req username cerr rb).
    + by apply (NewUser_created Time Format Parse req username rb).
  - intros pre q post err Hqs. step. rewrite ?app_nil_r, <- ?app_assoc.
    by apply (NewUser_statement_failed Time Format Parse req username
                pre q post err rb).
Qed.

Lemma updateUserPass_run_cases (h : env) (username : string)
    (changePass : ChangePassword) hist :
  updateUserPass_runs Parse username changePass
    (run h (updateUserPass Parse username changePass) hist).1
    (run h (updateUserPass Parse username changePass) hist).2.
Proof.
  apply (post_run h (updateUserPass Parse username changePass) hist
           (updateUserPass_runs Parse username changePass)).
  unfold updateUserPass, getConnection.
  destruct (String.eqb username "" || String.eqb (NewPassword changePass) "")
    eqn:Hempty.
  { step. constructor.
    apply orb_true_iff in Hempty as [Hu | Hp]; [left | right];
      by apply String.eqb_eq. }
  apply orb_false_iff in Hempty as [Hu Hp].
  apply String.eqb_neq in Hu, Hp.
  answer []. step; intros [].
  answer [cerr |]; [step; by constructor |].
  assert (Hrest : forall probe hist',
    probe_passes probe ->
    post h
      (let* r := call BeginTx in
       match r with
       | Some err => Ret (Some (Ext err))
       | None =>
         defer Rollback (
           let* r :=
             for_range (updateUserPass_stmts changePass) (fun stmt =>
               for_range (Parse stmt ";") (fun query =>
                 let query := TrimSpace query in
                 if (String.length query =? 0)%nat then Ret None
                 else
                   let m : Placeholders :=
                     updateUserPass_map username changePass in
                   let* r := call (ExecuteTxQuery m query) in
                   match r with
                   | Some err =>
                     Ret (Some (Errorf_w "failed to execute query: %w"
                                  (Ext err)))
                   | None => Ret None
                   end)) in
           match r with
           | Some err => Ret (Some err)
           | None =>
             let* r := call Commit in
             match r with
             | Some err =>
               Ret (Some (Errorf_w "failed to commit transaction: %w"
                            (Ext err)))
             | None => Ret None
             end
           end)
       end)
      hist'
      (fun err t2 =>
         updateUserPass_runs Parse username changePass err
           ([Ev Lock tt; Ev Connection None;
             Ev (QueryRowScan principalExistsSQL username) probe] ++
            t2 ++ [Ev Unlock tt]))).
  { intros probe hist' Hprobe.
    answer [berr |]; [step; by constructor |].
    step; intros rb. step.
    apply (post_tx_loops h Parse (updateUserPass_map username changePass)
             (fun err => Errorf_w "failed to execute query: %w" (Ext err))).
    - intros query hist2. cbn zeta.
      destruct (String.length (TrimSpace query) =? 0)%nat; [done |].
      rewrite run_bind, run_call. cbn beta iota zeta.
      by destruct (h _ hist2 (ExecuteTxQuery _ _)).
    - answer [cerr |]; step; rewrite ?app_nil_r, <- ?app_assoc.
      + by apply (rotate_commit_failed Parse username changePass probe cerr rb).
      + by apply (rotate_done Parse username changePass probe rb).
    - intros pre q post err Hqs. step. rewrite ?app_nil_r, <- ?app_assoc.
      by apply (rotate_statement_failed Parse username changePass probe
                  pre q post err rb). }
  answer [[| msg] |].
  - refine (post_mono _ _ _ _ _ _ (Hrest (Some ErrNoRows) _ _)).
    + intros ? ? HQ. exact HQ.
    + by right.
  - step. by constructor.
  - refine (post_mono _ _ _ _ _ _ (Hrest None _ _)).
    + intros ? ? HQ. exact HQ.
    + by left.
Qed.

End Outcomes.

(** ** More about creating a user *)

Lemma run_answers {R : Type} (h : env) (p : Prog R) hist :
  Forall (answered_by h) (run h p hist).2.
Proof.
  revert hist. induction p as [r | X e k IH]; intros hist; cbn.
  - constructor.
  - specialize (IH (h X hist e) (hist ++ [Ev e (h X hist e)])).
    destruct (run h (k _) _) as [r t]. cbn in *.
    constructor; [by exists hist | done].
Qed.

Lemma begins_tx_ok m qs : omap begin_of (tx_ok m qs) = [].
Proof. by induction qs. Qed.

Lemma rollbacks_tx_ok m qs : omap rollback_of (tx_ok m qs) = [].
Proof. by induction qs. Qed.

Lemma connections_tx_ok m qs : omap connection_of (tx_ok m qs) = [].
Proof. by induction qs. Qed.

Section CreateMore.

Variable Time : Type.
Variable Format : Time -> string -> string.
Variable Parse : string -> string -> list string.

(** X1.  When [NewUser] returns no error, the calls it made are: the
    lock, the connection, the generation of the username, the opening of
    the transaction, one [ExecuteTxQuery] for every non-empty trimmed piece
    of every template, in the order of the templates and of the pieces,
    each with the map of [name], [password] and [expiration], then the
    commit, the deferred rollback and the unlock; and the username
    returned is the generated one. *)
Theorem NewUser_success_log (h : env) (req : NewUserRequest Time) hist :
  let out := run h (NewUser Time Format Parse req) hist in
  (out.1).2 = None ->
  exists username rb,
    (out.1).1 = {| Username := username |} /\
    out.2 =
      [Ev Lock tt; Ev Connection None;
       Ev (GenerateUsername (DisplayName (UsernameConfig req)) 20
                            (RoleName (UsernameConfig req)) 20 128 "-")
          (inr username);
       Ev BeginTx None] ++
      tx_ok (<[ "name" := username ]>
               (<[ "password" := NewUser_Password req ]>
                  {[ "expiration" :=
                       Format (NewUser_Expiration req)
                              "2006-01-02 15:04:05-0700" ]}))
            (flat_map (queries_of Parse) (Commands (NewUser_Statements req)))
      ++ [Ev Commit None; Ev Rollback rb; Ev Unlock tt].
Proof.
  cbn zeta. pose proof (NewUser_run_cases Time Format Parse h req hist) as H.
  destruct (run h (NewUser Time Format Parse req) hist) as [[resp err] tr].
  cbn in *. intros ->. inversion H; subst. by eexists _, _.
Qed.

(** X2.  [NewUser] returns no error exactly when it has called [Commit]
    and the commit succeeded; when it returns an error, the username it
    returns is empty. *)
Theorem NewUser_success_iff_committed (h : env) (req : NewUserRequest Time)
    hist :
  let out := run h (NewUser Time Format Parse req) hist in
  ((out.1).2 = None <-> omap commit_of out.2 = [None]) /\
  ((out.1).2 <> None -> Username (out.1).1 = "").
Proof.
  cbn zeta. pose proof (NewUser_run_cases Time Format Parse h req hist) as H.
  destruct (run h (NewUser Time Format Parse req) hist) as [[resp err] tr].
  cbn in *.
  inversion H; subst; cbn; rewrite ?omap_app, ?commits_tx_ok; cbn;
    (split; [split |]); done.
Qed.

(** X3.  The transaction of [NewUser] is always finished: [BeginTx] is
    called at most once; if it was not called or failed, no statement is
    run, and neither [Commit] nor [Rollback] is called; if it succeeded,
    the log ends with exactly one [Rollback] followed by the unlock, and
    every statement and the commit lie between the two. *)
Theorem NewUser_transaction_bracket (h : env) (req : NewUserRequest Time)
    hist :
  let out := run h (NewUser Time Format Parse req) hist in
  (omap begin_of out.2 <> [None] ->
   (omap begin_of out.2 = [] \/ exists e, omap begin_of out.2 = [Some e]) /\
   tx_execs out.2 = [] /\ omap commit_of out.2 = [] /\
   omap rollback_of out.2 = []) /\
  (omap begin_of out.2 = [None] ->
   exists before inside rb,
     out.2 = before ++ [Ev BeginTx None] ++ inside ++
             [Ev Rollback rb; Ev Unlock tt] /\
     tx_execs before = [] /\ omap commit_of before = [] /\
     omap rollback_of before = [] /\ omap rollback_of inside = [] /\
     omap begin_of inside = []).
Proof.
  cbn zeta. pose proof (NewUser_run_cases Time Format Parse h req hist) as H.
  destruct (run h (NewUser Time Format Parse req) hist) as [[resp err] tr].
  cbn in *. unfold tx_execs.
  inversion H; subst; cbn;
    rewrite ?omap_app, ?begins_tx_ok, ?commits_tx_ok, ?rollbacks_tx_ok,
      ?tx_execs_tx_ok; cbn.
  1-4: split; [intros _; repeat split; eauto | done].
  all: split; [done | intros _].
  all: match goal with
       | |- context [tx_ok ?m ?qs ++ [?ev; Ev Rollback ?rb; Ev Unlock tt]] =>
         exists [Ev Lock tt; Ev Connection None;
                 Ev (GenerateUsername (DisplayName (UsernameConfig req)) 20
                       (RoleName (UsernameConfig req)) 20 128 "-")
                    (inr username)],
                (tx_ok m qs ++ [ev]), rb
       end.
  all: rewrite <- !app_assoc, !omap_app, begins_tx_ok, rollbacks_tx_ok.
  all: repeat split; reflexivity.
Qed.

(** X4.  The only thing [NewUser] asks of the templates is that there is
    one: against an environment in which the connection, the generation of
    the username, the transaction and every statement succeed, [NewUser]
    returns no error and the generated username for every request with at
    least one template, even when no template holds a statement. *)
Theorem NewUser_succeeds (h : env) (req : NewUserRequest Time) hist :
  let out := run h (NewUser Time Format Parse req) hist in
  transactions_succeed h ->
  Commands (NewUser_Statements req) <> [] ->
  (out.1).2 = None /\
  omap generated_of out.2 = [inr (Username (out.1).1)] /\
  (tx_execs out.2).*1 =
    (fun q => (NewUser_map Time Format req (Username (out.1).1), q)) <$>
    flat_map (queries_of Parse) (Commands (NewUser_Statements req)).
Proof.
  cbn zeta. intros Hh Hcmds.
  pose proof (NewUser_run_cases Time Format Parse h req hist) as H.
  pose proof (run_answers h (NewUser Time Format Parse req) hist) as Hans.
  destruct (run h (NewUser Time Format Parse req) hist) as [[resp err] tr].
  cbn in *. unfold tx_execs.
  inversion H; subst; clear H.
  - apply Forall_cons in Hans as [_ [[hist' Hx] _]%Forall_cons].
    destruct (Hh hist') as (Hconn & _). congruence.
  - done.
  - apply Forall_cons in Hans as [_ [_ [[hist' Hx] _]%Forall_cons]%Forall_cons].
    destruct (Hh hist') as (_ & _ & _ & _ & Hgen & _).
    destruct (Hgen (DisplayName (UsernameConfig req)) 20%nat
                (RoleName (UsernameConfig req)) 20%nat 128%nat "-")
      as [u Hu]. congruence.
  - apply Forall_cons in Hans
      as [_ [_ [_ [[hist' Hx] _]%Forall_cons]%Forall_cons]%Forall_cons].
    destruct (Hh hist') as (_ & Hbegin & _). congruence.
  - apply Forall_app in Hans as [_ [_ Hans]%Forall_app].
    apply Forall_cons in Hans as [[hist' Hx] _].
    destruct (Hh hist') as (_ & _ & _ & Hexec & _).
    rewrite Hexec in Hx. done.
  - apply Forall_app in Hans as [_ [_ Hans]%Forall_app].
    apply Forall_cons in Hans as [[hist' Hx] _].
    destruct (Hh hist') as (_ & _ & Hcommit & _). congruence.
  - cbn. rewrite !omap_app, generated_tx_ok, tx_execs_tx_ok. cbn.
    rewrite app_nil_r. split; [done |]. split; [done |].
    by rewrite <- list_fmap_compose.
Qed.

End CreateMore.

(** ** More about updating a password *)

Lemma probes_tx_ok m qs : omap probe_of (tx_ok m qs) = [].
Proof. by induction qs. Qed.

Section RotateMore.

Variable Parse : string -> string -> list string.

(** X5.  [updateUserPass] makes no call at all, not even for the lock,
    exactly when the username or the new password is empty, and it then
    returns "must provide both username and password"; otherwise its first
    call takes the lock. *)
Theorem updateUserPass_empty_arguments (h : env) (username : string)
    (changePass : ChangePassword) hist :
  let out := run h (updateUserPass Parse username changePass) hist in
  (out.2 = [] <-> username = "" \/ NewPassword changePass = "") /\
  (out.2 = [] ->
   out.1 = Some (ErrorsNew "must provide both username and password")) /\
  (out.2 <> [] -> exists rest, out.2 = Ev Lock tt :: rest).
Proof.
  cbn zeta. pose proof (updateUserPass_run_cases Parse h username changePass
                          hist) as H.
  destruct (run h (updateUserPass Parse username changePass) hist)
    as [err tr].
  cbn in *. inversion H; subst; cbn.
  - split; [done |]. split; done.
  - split; [split; [done | intros [? | ?]; done] |]. split; [done | eauto].
  - split; [split; [done | intros [? | ?]; done] |]. split; [done | eauto].
  - split; [split; [done | intros [? | ?]; done] |]. split; [done | eauto].
  - split; [split; [done | intros [? | ?]; done] |]. split; [done | eauto].
  - split; [split; [done | intros [? | ?]; done] |]. split; [done | eauto].
  - split; [split; [done | intros [? | ?]; done] |]. split; [done | eauto].
Qed.

(** X6.  The rotation is all or nothing.  If a statement fails, the log
    ends with that statement, the rollback and the unlock, no commit was
    called, and the error returned is the error of the statement wrapped as
    "failed to execute query".  If the commit fails, its error is returned
    wrapped as "failed to commit transaction".  No error is returned
    exactly when the commit was called and succeeded. *)
Theorem updateUserPass_transaction (h : env) (username : string)
    (changePass : ChangePassword) hist :
  let out := run h (updateUserPass Parse username changePass) hist in
  (forall m q e,
      (m, q, Some e) ∈ tx_execs out.2 ->
      out.1 = Some (Errorf_w "failed to execute query: %w" (Ext e)) /\
      exists pre rb,
        out.2 = pre ++ [Ev (ExecuteTxQuery m q) (Some e); Ev Rollback rb;
                        Ev Unlock tt] /\
        omap commit_of pre = []) /\
  (forall cerr,
      Some cerr ∈ omap commit_of out.2 ->
      out.1 = Some (Errorf_w "failed to commit transaction: %w" (Ext cerr))) /\
  (out.1 = None <-> omap commit_of out.2 = [None]).
Proof.
  cbn zeta. pose proof (updateUserPass_run_cases Parse h username changePass
                          hist) as H.
  destruct (run h (updateUserPass Parse username changePass) hist)
    as [err tr].
  cbn in *. unfold tx_execs.
  inversion H; subst; cbn;
    rewrite ?omap_app, ?commits_tx_ok, ?tx_execs_tx_ok; cbn;
    rewrite ?app_nil_r.
  1-4: split; [by intros ??? ?%elem_of_nil |];
       split; [by intros ? ?%elem_of_nil | done].
  - split; [| split; [by intros ? ?%elem_of_nil | done]].
    intros m q' e Hin. apply elem_of_app in Hin as [Hin | Hin].
    { by apply failure_not_among_ok in Hin. }
    apply list_elem_of_singleton in Hin. injection Hin as -> -> ->.
    split; [done |].
    eexists (_ :: _ :: _ :: _ :: tx_ok _ pre), rb.
    split; [reflexivity |]. cbn. apply commits_tx_ok.
  - split; [intros m q e Hin; by apply failure_not_among_ok in Hin |].
    split; [| done].
    by intros ? [= ->]%list_elem_of_singleton.
  - split; [intros m q e Hin; by apply failure_not_among_ok in Hin |].
    split; [| done].
    by intros ? ?%list_elem_of_singleton.
Qed.

(** X7.  The probe for the principal decides nothing but its own
    failure: when it answers with a row or with [sql.ErrNoRows], the
    transaction is begun all the same; when it answers with any other
    error, that error is returned as it is and no transaction is begun. *)
Theorem updateUserPass_probe (h : env) (username : string)
    (changePass : ChangePassword) hist :
  let out := run h (updateUserPass Parse username changePass) hist in
  (forall probe,
      probe ∈ omap probe_of out.2 ->
      omap probe_of out.2 =
        [probe] /\
      match probe with
      | Some (ErrOther msg) =>
        out.1 = Some (Ext (ErrOther msg)) /\ omap begin_of out.2 = []
      | Some ErrNoRows | None =>
        exists b, omap begin_of out.2 = [b]
      end).
Proof.
  cbn zeta. pose proof (updateUserPass_run_cases Parse h username changePass
                          hist) as H.
  destruct (run h (updateUserPass Parse username changePass) hist)
    as [err tr].
  cbn in *.
  inversion H; subst; cbn;
    rewrite ?omap_app, ?begins_tx_ok, ?probes_tx_ok; cbn.
  1-2: by intros ? ?%elem_of_nil.
  1: by intros ? ->%list_elem_of_singleton.
  all: intros ? ->%list_elem_of_singleton; split; [done |];
    match goal with Hp : probe_passes _ |- _ => destruct Hp as [-> | ->] end;
    eauto.
Qed.

(** X8.  When [updateUserPass] returns no error, the calls it made are:
    the lock, the connection, the probe, the opening of the transaction,
    one [ExecuteTxQuery] for every non-empty trimmed piece of the supplied
    templates (of the default ALTER LOGIN template when none is supplied),
    in order, each with the map of [name], [username] and [password],
    then the commit, the rollback and the unlock. *)
Theorem updateUserPass_success_log (h : env) (username : string)
    (changePass : ChangePassword) hist :
  let out := run h (updateUserPass Parse username changePass) hist in
  out.1 = None ->
  username <> "" /\ NewPassword changePass <> "" /\
  exists probe rb,
    (probe = None \/ probe = Some ErrNoRows) /\
    out.2 =
      [Ev Lock tt; Ev Connection None;
       Ev (QueryRowScan principalExistsSQL username) probe;
       Ev BeginTx None] ++
      tx_ok (<[ "name" := username ]>
               (<[ "username" := username ]>
                  {[ "password" := NewPassword changePass ]}))
            (flat_map (queries_of Parse)
               (if (length (Commands (ChangePassword_Statements changePass))
                    =? 0)%nat
                then [alterLoginSQL]
                else Commands (ChangePassword_Statements changePass)))
      ++ [Ev Commit None; Ev Rollback rb; Ev Unlock tt].
Proof.
  cbn zeta. pose proof (updateUserPass_run_cases Parse h username changePass
                          hist) as H.
  destruct (run h (updateUserPass Parse username changePass) hist)
    as [err tr].
  cbn in *. intros ->. inversion H; subst.
  split; [done |]. split; [done |]. by eexists _, _.
Qed.

End RotateMore.

(** ** Worked cases for creating and updating *)

Lemma healthy_transactions_succeed : transactions_succeed (scripted healthy).
Proof.
  intros hist. repeat split; try done.
  - intros. by eexists.
  - intros. by left.
Qed.

(** [NewUser_success_log] at work: two statements against a database that
    accepts everything. *)
Lemma NewUser_success_log_witness :
  let out :=
    run (scripted healthy)
        (NewUser Z seconds_Format strutil.ParseArbitraryStringSlice
                 request_two_statements) [] in
  (out.1).2 = None /\
  exists username rb,
    (out.1).1 = {| Username := username |} /\
    out.2 =
      [Ev Lock tt; Ev Connection None;
       Ev (GenerateUsername "app" 20 "svc" 20 128 "-") (inr username);
       Ev BeginTx None] ++
      tx_ok (<[ "name" := username ]>
               (<[ "password" := "P@ss1" ]>
                  {[ "expiration" := "1900000000" ]}))
            ["CREATE LOGIN [{{name}}] WITH PASSWORD='{{password}}'";
             "CREATE USER [{{name}}] FOR LOGIN [{{name}}]"]
      ++ [Ev Commit None; Ev Rollback rb; Ev Unlock tt].
Proof.
  split; [by vm_compute |].
  apply (NewUser_success_log Z seconds_Format
           strutil.ParseArbitraryStringSlice (scripted healthy)
           request_two_statements []).
  by vm_compute.
Defined.

(** [NewUser_succeeds] at work: a template without any statement. *)
Lemma NewUser_succeeds_witness :
  let out :=
    run (scripted healthy)
        (NewUser Z seconds_Format strutil.ParseArbitraryStringSlice
                 request_blank_statement) [] in
  transactions_succeed (scripted healthy) /\
  Commands (NewUser_Statements request_blank_statement) <> [] /\
  (out.1).2 = None /\
  omap generated_of out.2 = [inr (Username (out.1).1)] /\
  (tx_execs out.2).*1 =
    (fun q => (NewUser_map Z seconds_Format request_blank_statement
                 (Username (out.1).1), q)) <$>
    flat_map (queries_of strutil.ParseArbitraryStringSlice)
             (Commands (NewUser_Statements request_blank_statement)).
Proof.
  split; [apply healthy_transactions_succeed |]. split; [done |].
  apply (NewUser_succeeds Z seconds_Format
           strutil.ParseArbitraryStringSlice (scripted healthy)
           request_blank_statement []);
    [apply healthy_transactions_succeed | done].
Defined.

(** [updateUserPass_success_log] at work: the default template. *)
Lemma updateUserPass_success_log_witness :
  let out :=
    run (scripted healthy)
        (updateUserPass strutil.ParseArbitraryStringSlice "v-app-svc-x7"
                        new_password) [] in
  out.1 = None /\
  exists probe rb,
    (probe = None \/ probe = Some ErrNoRows) /\
    out.2 =
      [Ev Lock tt; Ev Connection None;
       Ev (QueryRowScan principalExistsSQL "v-app-svc-x7") probe;
       Ev BeginTx None] ++
      tx_ok (<[ "name" := "v-app-svc-x7" ]>
               (<[ "username" := "v-app-svc-x7" ]>
                  {[ "password" := "N3w-P@ss" ]}))
            ["ALTER LOGIN [{{username}}] WITH PASSWORD = '{{password}}'"]
      ++ [Ev Commit None; Ev Rollback rb; Ev Unlock tt].
Proof.
  split; [by vm_compute |].
  apply (updateUserPass_success_log strutil.ParseArbitraryStringSlice
           (scripted healthy) "v-app-svc-x7" new_password []).
  by vm_compute.
Defined.

(** ** More about the default revocation *)

(** Answers without a failure are all [None]. *)
Lemma no_failure_replicate (rs : list (option collab_error)) :
  last (omap id rs) = None -> rs = replicate (length rs) None.
Proof.
  intros H%last_None. induction rs as [| [e |] rs IH]; cbn in *; try done.
  by rewrite <- IH.
Qed.

(** Bring a log into one list. *)
Ltac tidy_log := rewrite ?app_nil_r; rewrite <- ?app_assoc; cbn [app].

Lemma revokeUserDefault_run_cases (h : env) (username : string) hist :
  let out := run h (revokeUserDefault username) hist in
  revoke_runs username out.1 out.2.
Proof.
  cbn zeta.
  apply (post_run h (revokeUserDefault username) hist (revoke_runs username)).
  unfold revokeUserDefault, getConnection.
  answer [cerr |]; [step; apply revoke_no_connection |].
  answer [perr |]; [step; apply revoke_disable_unprepared |].
  step; intros [].
  answer [xerr |]; [step; apply revoke_not_disabled |].
  answer [perr |]; [step; apply revoke_sessions_unprepared |].
  step; intros [].
  answer [qerr | sessionRows]; [step; apply revoke_sessions_unqueried |].
  step; intros [].
  destruct (scanSessions (rows_scan sessionRows) []) as [serr | kills] eqn:Hkills;
    [step; by apply revoke_session_unscanned |].
  answer [perr |]; [step; by eapply revoke_mappings_unprepared |].
  step; intros [].
  answer [qerr | rows]; [step; by eapply revoke_mappings_unqueried |].
  step; intros [].
  destruct (scanMappings username (rows_scan rows) _) as [serr | stmts] eqn:Hstmts;
    [step; by eapply revoke_mapping_unscanned |].
  step.
  apply (post_db_loop h ∅ (fun lastStmtError r =>
           match r with
           | Some err => Some err
           | None => lastStmtError
           end)).
  { intros s query hist'. rewrite run_bind, run_call. cbn beta iota zeta.
    by destruct (h _ hist' (ExecuteDBQuery _ _)). }
  intros rs Hlen. rewrite foldl_lastStmtError.
  destruct (rows_err rows) as [rerr |] eqn:Hrerr.
  { step. tidy_log. by eapply revoke_rows_broken. }
  destruct (last (omap id rs)) as [lerr |] eqn:Hlast.
  { step. tidy_log. by eapply revoke_statement_failed. }
  apply no_failure_replicate in Hlast. rewrite Hlen in Hlast. subst rs.
  answer [perr |].
  { step. tidy_log. by eapply revoke_login_unprepared. }
  step; intros [].
  answer [xerr |]; step; tidy_log.
  - by eapply revoke_login_not_dropped.
  - by eapply revoke_done.
Qed.

(** A projection that ignores [ExecuteDBQuery] finds nothing in a batch. *)
Lemma omap_db_events {A : Type} (f : event -> option A) m qs rs :
  (forall q r, f (Ev (ExecuteDBQuery m q) r) = None) ->
  omap f (db_events m qs rs) = [].
Proof.
  intros Hf. revert rs.
  induction qs as [| q qs IH]; intros [| r rs]; try done.
  cbn. rewrite Hf. apply IH.
Qed.

Lemma db_execs_app tr tr' : db_execs (tr ++ tr') = db_execs tr ++ db_execs tr'.
Proof. apply omap_app. Qed.

Lemma failures_all_ok m qs :
  failures (zip_with (fun q r => (m, q, r)) qs (replicate (length qs) None)) =
  [].
Proof. by induction qs. Qed.

(** Unfold the log of a run of [revokeUserDefault] under a projection. *)
Ltac project :=
  unfold revoke_mappings, revoke_sessions, revoke_disabled, close_mappings,
    close_sessions, close_disable;
  rewrite ?db_execs_app; rewrite ?omap_app;
  rewrite ?omap_db_events by done;
  cbn [omap list_omap app prepare_of exec_of query_failure_of opened_of
       closed_of prepared_of sessions_of mappings_of db_exec db_execs
       connection_of];
  rewrite ?app_nil_r.

(** Go through the members of a short list. *)
Ltac members H :=
  repeat (apply elem_of_cons in H as [H | H]; [simplify_eq |]);
  try (by apply elem_of_nil in H).

(** X9.  Outside its clean-up loop, [revokeUserDefault] stops at the first
    failure: when a [PrepareContext], an [ExecContext] or a [QueryContext]
    fails, the error of that call is returned as it is.  And when the
    error returned is the bare error of a collaborator, no clean-up
    statement has failed. *)
Theorem revokeUserDefault_fail_fast (h : env) (username : string) hist :
  let out := run h (revokeUserDefault username) hist in
  (forall q e, (q, Some e) ∈ omap prepare_of out.2 -> out.1 = Some (Ext e)) /\
  (forall q e, (q, Some e) ∈ omap exec_of out.2 -> out.1 = Some (Ext e)) /\
  (forall e, e ∈ omap query_failure_of out.2 -> out.1 = Some (Ext e)) /\
  (forall e, out.1 = Some (Ext e) -> failures (db_execs out.2) = []).
Proof.
  cbn zeta. pose proof (revokeUserDefault_run_cases h username hist) as H.
  destruct (run h (revokeUserDefault username) hist) as [err tr].
  cbn [fst snd] in *.
  inversion H; subst; project;
    (split; [intros q' e' Hin; members Hin; done |]);
    (split; [intros q' e' Hin; members Hin; done |]);
    (split; [intros e' Hin; members Hin; done |]);
    intros e' He; simplify_eq; try done;
    fold (db_execs (db_events ∅ stmts (replicate (length stmts) None)));
    rewrite db_execs_db_events; apply failures_all_ok.
Qed.

Lemma scanSessions_no_error rows acc stmts :
  scanSessions rows acc = inr stmts -> forall err, inl err ∉ rows.
Proof.
  revert acc. induction rows as [| [err | id] rows IH]; intros acc; cbn.
  - intros _ err. apply not_elem_of_nil.
  - done.
  - intros H err [Hin | Hin]%elem_of_cons; [done |]. by eapply IH.
Qed.

(** X10.  The phases of [revokeUserDefault] are gated.  Any statement
    other than the disabling of the login is prepared only after the login
    was disabled with success.  And when a session row cannot be scanned,
    the error of the scan is returned as it is, the login mappings are
    never asked for and no statement is attempted: no session is killed
    and no user is dropped. *)
Theorem revokeUserDefault_phases (h : env) (username : string) hist :
  let out := run h (revokeUserDefault username) hist in
  (forall q,
      q ∈ omap prepared_of out.2 -> q <> disableLoginSQL username ->
      exists rest,
        out.2 =
          [Ev Connection None;
           Ev (PrepareContext (disableLoginSQL username)) None;
           Ev (ExecContext (disableLoginSQL username)) None] ++ rest) /\
  (forall sessionRows e,
      sessionRows ∈ omap sessions_of out.2 ->
      scanSessions (rows_scan sessionRows) [] = inl e ->
      out.1 = Some (Ext e) /\
      omap prepared_of out.2 = [disableLoginSQL username; sessionsSQL] /\
      omap mappings_of out.2 = [] /\
      db_execs out.2 = []).
Proof.
  cbn zeta. pose proof (revokeUserDefault_run_cases h username hist) as H.
  destruct (run h (revokeUserDefault username) hist) as [err tr].
  cbn [fst snd] in *.
  inversion H; subst; (split; [intros q Hin Hq | intros sRows e' Hin Hscan]).
  all: try (revert Hin; project; intros Hin; members Hin; congruence).
  all: try (tidy_log; unfold revoke_mappings, revoke_sessions,
              revoke_disabled; tidy_log; by eexists).
  all: revert Hin; project; intros Hin; members Hin.
  repeat split; congruence.
Qed.

(** X11.  When [revokeUserDefault] returns no error, neither result set
    held a row that could not be scanned, the mapping rows reported no
    error, and the calls made are: the connection; the login disabled; the
    sessions and the login mappings queried; a kill for every session and
    a drop for every mapped database, each one accepted; the login
    dropped; and the four statements and two result sets closed. *)
Theorem revokeUserDefault_success_log (h : env) (username : string) hist :
  let out := run h (revokeUserDefault username) hist in
  out.1 = None ->
  exists sessionRows rows,
    (forall e, inl e ∉ rows_scan sessionRows) /\
    (forall e, inl e ∉ rows_scan rows) /\
    rows_err rows = None /\
    out.2 =
      [Ev Connection None;
       Ev (PrepareContext (disableLoginSQL username)) None;
       Ev (ExecContext (disableLoginSQL username)) None;
       Ev (PrepareContext sessionsSQL) None;
       Ev (QuerySessions sessionsSQL username) (inr sessionRows);
       Ev (PrepareContext loginMappingsSQL) None;
       Ev (QueryMappings loginMappingsSQL username) (inr rows)] ++
      ((fun q => Ev (ExecuteDBQuery ∅ q) None) <$>
         cleanup_statements username sessionRows rows) ++
      [Ev (PrepareContext (dropLoginSQL username username)) None;
       Ev (ExecContext (dropLoginSQL username username)) None;
       Ev (StmtClose (dropLoginSQL username username)) tt;
       Ev (RowsClose loginMappingsSQL) tt;
       Ev (StmtClose loginMappingsSQL) tt;
       Ev (RowsClose sessionsSQL) tt;
       Ev (StmtClose sessionsSQL) tt;
       Ev (StmtClose (disableLoginSQL username)) tt].
Proof.
  cbn zeta. pose proof (revokeUserDefault_run_cases h username hist) as H.
  destruct (run h (revokeUserDefault username) hist) as [err tr].
  cbn [fst snd] in *. intros ->.
  inversion H as [| | | | | | | | | | | | | sessionRows kills rows stmts
                    Hkills Hstmts Hrows]; subst.
  exists sessionRows, rows.
  split; [by eapply scanSessions_no_error |].
  pose proof (scanSessions_inr _ _ _ Hkills) as ->.
  apply scanMappings_inr in Hstmts as [-> Hno].
  split; [done |]. split; [done |].
  unfold revoke_mappings, revoke_sessions, revoke_disabled, close_mappings,
    close_sessions, close_disable. tidy_log.
  do 7 f_equal. unfold cleanup_statements. cbn [app]. f_equal.
  generalize ((killSQL <$> scanned (rows_scan sessionRows)) ++
              ((fun db => dropUserSQL db username username) <$>
                 mapped_dbs (rows_scan rows))).
  intros l. induction l as [| q l IH]; [done |]. cbn. by f_equal.
Qed.

(** X12.  [revokeUserDefault] returns no error exactly when it has run
    the statement that drops the login and that statement succeeded. *)
Theorem revokeUserDefault_success_iff_dropped (h : env) (username : string)
    hist :
  let out := run h (revokeUserDefault username) hist in
  out.1 = None <->
  (dropLoginSQL username username, None) ∈ omap exec_of out.2.
Proof.
  cbn zeta. pose proof (revokeUserDefault_run_cases h username hist) as H.
  destruct (run h (revokeUserDefault username) hist) as [err tr].
  cbn [fst snd] in *.
  inversion H; subst; project; (split; [intros ? | intros Hin]); try done.
  all: try (members Hin;
            match goal with
            | Hq : dropLoginSQL _ _ = disableLoginSQL _ |- _ =>
              by apply dropLoginSQL_not_disable in Hq
            | Hq : disableLoginSQL _ = dropLoginSQL _ _ |- _ =>
              symmetry in Hq; by apply dropLoginSQL_not_disable in Hq
            end).
  do 1 apply list_elem_of_further. apply list_elem_of_here.
Qed.

(** [revokeUserDefault_success_log] at work: one session, one database. *)
Lemma revokeUserDefault_success_log_witness :
  let out := run (scripted busy) (revokeUserDefault "v-app-svc-x7") [] in
  out.1 = None /\
  exists sessionRows rows,
    (forall e, inl e ∉ rows_scan sessionRows) /\
    (forall e, inl e ∉ rows_scan rows) /\
    rows_err rows = None /\
    out.2 =
      [Ev Connection None;
       Ev (PrepareContext (disableLoginSQL "v-app-svc-x7")) None;
       Ev (ExecContext (disableLoginSQL "v-app-svc-x7")) None;
       Ev (PrepareContext sessionsSQL) None;
       Ev (QuerySessions sessionsSQL "v-app-svc-x7") (inr sessionRows);
       Ev (PrepareContext loginMappingsSQL) None;
       Ev (QueryMappings loginMappingsSQL "v-app-svc-x7") (inr rows)] ++
      ((fun q => Ev (ExecuteDBQuery ∅ q) None) <$>
         cleanup_statements "v-app-svc-x7" sessionRows rows) ++
      [Ev (PrepareContext (dropLoginSQL "v-app-svc-x7" "v-app-svc-x7")) None;
       Ev (ExecContext (dropLoginSQL "v-app-svc-x7" "v-app-svc-x7")) None;
       Ev (StmtClose (dropLoginSQL "v-app-svc-x7" "v-app-svc-x7")) tt;
       Ev (RowsClose loginMappingsSQL) tt;
       Ev (StmtClose loginMappingsSQL) tt;
       Ev (RowsClose sessionsSQL) tt;
       Ev (StmtClose sessionsSQL) tt;
       Ev (StmtClose (disableLoginSQL "v-app-svc-x7")) tt].
Proof.
  split; [by vm_compute |].
  apply (revokeUserDefault_success_log (scripted busy) "v-app-svc-x7" []).
  by vm_compute.
Defined.

(** Name the calls before the deferred closes, and the closes. *)
Ltac closes_with work closes :=
  exists work, closes;
  split;
  [ unfold revoke_mappings, revoke_sessions, revoke_disabled, close_mappings,
      close_sessions, close_disable; tidy_log; reflexivity
  | project; repeat split; done ].

(** X13.  [revokeUserDefault] closes what it opened, whichever way it
    returns: its log is a run of calls that close nothing, followed by
    closes only, one for every statement that was prepared with success
    and every result set that was obtained, in the reverse of the order in
    which they were opened. *)
Theorem revokeUserDefault_closes (h : env) (username : string) hist :
  let out := run h (revokeUserDefault username) hist in
  exists work closes,
    out.2 = work ++ closes /\
    omap closed_of work = [] /\
    omap opened_of closes = [] /\
    length (omap closed_of closes) = length closes /\
    omap closed_of closes = reverse (omap opened_of work).
Proof.
  cbn zeta. pose proof (revokeUserDefault_run_cases h username hist) as H.
  destruct (run h (revokeUserDefault username) hist) as [err tr].
  cbn [fst snd] in *.
  inversion H as [ e | e | e | e | e | sRows e Hs | sRows kills e Hs
                 | sRows kills e Hs | sRows kills rows e Hs Hm
                 | sRows kills rows stmts rs e Hs Hm Hlen Hrows
                 | sRows kills rows stmts rs e Hs Hm Hlen Hrows Hlast
                 | sRows kills rows stmts e Hs Hm Hrows
                 | sRows kills rows stmts e Hs Hm Hrows
                 | sRows kills rows stmts Hs Hm Hrows ]; subst.
  - closes_with [Ev Connection (Some e)] (@nil event).
  - closes_with [Ev Connection None;
                 Ev (PrepareContext (disableLoginSQL username)) (Some e)]
                (@nil event).
  - closes_with [Ev Connection None;
                 Ev (PrepareContext (disableLoginSQL username)) None;
                 Ev (ExecContext (disableLoginSQL username)) (Some e)]
                (close_disable username).
  - closes_with (revoke_disabled username ++
                 [Ev (PrepareContext sessionsSQL) (Some e)])
                (close_disable username).
  - closes_with (revoke_disabled username ++
                 [Ev (PrepareContext sessionsSQL) None;
                  Ev (QuerySessions sessionsSQL username) (inl e)])
                ([Ev (StmtClose sessionsSQL) tt] ++ close_disable username).
  - closes_with (revoke_sessions username sRows) (close_sessions username).
  - closes_with (revoke_sessions username sRows ++
                 [Ev (PrepareContext loginMappingsSQL) (Some e)])
                (close_sessions username).
  - closes_with (revoke_sessions username sRows ++
                 [Ev (PrepareContext loginMappingsSQL) None;
                  Ev (QueryMappings loginMappingsSQL username) (inl e)])
                ([Ev (StmtClose loginMappingsSQL) tt] ++
                 close_sessions username).
  - closes_with (revoke_mappings username sRows rows)
                (close_mappings username).
  - closes_with (revoke_mappings username sRows rows ++ db_events ∅ stmts rs)
                (close_mappings username).
  - closes_with (revoke_mappings username sRows rows ++ db_events ∅ stmts rs)
                (close_mappings username).
  - closes_with (revoke_mappings username sRows rows ++
                 db_events ∅ stmts (replicate (length stmts) None) ++
                 [Ev (PrepareContext (dropLoginSQL username username))
                     (Some e)])
                (close_mappings username).
  - closes_with (revoke_mappings username sRows rows ++
                 db_events ∅ stmts (replicate (length stmts) None) ++
                 [Ev (PrepareContext (dropLoginSQL username username)) None;
                  Ev (ExecContext (dropLoginSQL username username)) (Some e)])
                ([Ev (StmtClose (dropLoginSQL username username)) tt] ++
                 close_mappings username).
  - closes_with (revoke_mappings username sRows rows ++
                 db_events ∅ stmts (replicate (length stmts) None) ++
                 [Ev (PrepareContext (dropLoginSQL username username)) None;
                  Ev (ExecContext (dropLoginSQL username username)) None])
                ([Ev (StmtClose (dropLoginSQL username username)) tt] ++
                 close_mappings username).
Qed.

(** ** Deleting a user, on either path *)

Section DeleteMore.

Variable Parse : string -> string -> list string.

(** The runs of [DeleteUser]: the default revocation when the request has
    no statement; otherwise the connection, and a best-effort batch. *)
Lemma DeleteUser_run_cases (h : env) (req : DeleteUserRequest) hist :
  let out := run h (DeleteUser Parse req) hist in
  (Commands (DeleteUser_Statements req) = [] /\
   revoke_runs (DeleteUser_Username req) (out.1).2 out.2) \/
  (Commands (DeleteUser_Statements req) <> [] /\
   ((exists cerr,
        (out.1).2 =
          Some (Errorf_w "unable to get connection: %w" (Ext cerr)) /\
        out.2 = [Ev Connection (Some cerr)]) \/
    (exists rs,
        (out.1).2 = multierror.ErrorOrNil (Ext <$> omap id rs) /\
        out.2 =
          Ev Connection None ::
          db_events {[ "name" := DeleteUser_Username req ]}
            (flat_map (queries_of Parse)
                      (Commands (DeleteUser_Statements req))) rs))).
Proof.
  cbn zeta. unfold DeleteUser.
  destruct (Commands (DeleteUser_Statements req)) as [| stmt stmts] eqn:Hcmds.
  - left. split; [done |]. cbn [length Nat.eqb]. rewrite run_bind.
    pose proof (revokeUserDefault_run_cases h (DeleteUser_Username req) hist)
      as H.
    destruct (run h (revokeUserDefault _) hist) as [err tr].
    cbn. by rewrite app_nil_r.
  - right. split; [done |]. cbn [length Nat.eqb]. rewrite <- Hcmds.
    apply (post_run h _ hist (fun out tr =>
      (exists cerr,
          out.2 = Some (Errorf_w "unable to get connection: %w" (Ext cerr)) /\
          tr = [Ev Connection (Some cerr)]) \/
      (exists rs,
          out.2 = multierror.ErrorOrNil (Ext <$> omap id rs) /\
          tr =
            Ev Connection None ::
            db_events {[ "name" := DeleteUser_Username req ]}
              (flat_map (queries_of Parse)
                        (Commands (DeleteUser_Statements req))) rs))).
    unfold getConnection.
    answer [cerr |].
    { step. left. by exists cerr. }
    step.
    apply (post_db_loops h Parse {[ "name" := DeleteUser_Username req ]}
             (fun merr r =>
                match r with
                | Some err => multierror.Append merr (Ext err)
                | None => merr
                end)).
    + intros merr query hist'. cbn zeta.
      destruct (String.length (TrimSpace query) =? 0)%nat; [done |].
      rewrite run_bind, run_call. cbn beta iota zeta.
      by destruct (h _ hist' (ExecuteDBQuery _ _)).
    + intros rs Hlen. step. right. exists rs. rewrite foldl_Append.
      by rewrite app_nil_r.
Qed.

Lemma direct_db_events m qs rs :
  Forall (fun ev => is_direct ev = true) (db_events m qs rs).
Proof.
  revert rs. induction qs as [| q qs IH]; intros [| r rs]; cbn;
    try apply Forall_nil_2.
  apply Forall_cons. split; [done | apply IH].
Qed.

(** X14.  Whatever the request, [DeleteUser] asks for the connection
    first, and every call that follows works on the connection directly:
    it takes no lock, opens no transaction, generates no username and
    makes no probe. *)
Theorem DeleteUser_works_directly (h : env) (req : DeleteUserRequest) hist :
  exists r rest,
    (run h (DeleteUser Parse req) hist).2 = Ev Connection r :: rest /\
    Forall (fun ev => is_direct ev = true) rest.
Proof.
  destruct (DeleteUser_run_cases h req hist)
    as [[_ H] | [_ [(cerr & _ & ->) | (rs & _ & ->)]]].
  - destruct (run h (DeleteUser Parse req) hist) as [[resp err] tr].
    cbn [fst snd] in H.
    inversion H; subst; cbn [snd];
      unfold revoke_mappings, revoke_sessions, revoke_disabled,
        close_mappings, close_sessions, close_disable; tidy_log;
      eexists _, _; (split; [reflexivity |]);
      repeat first [ apply Forall_nil_2
                   | apply Forall_cons; split; [reflexivity |]
                   | apply Forall_app; split; [apply direct_db_events |] ].
  - eexists _, _. split; [reflexivity | apply Forall_nil_2].
  - eexists _, _. split; [reflexivity | apply direct_db_events].
Qed.

End DeleteMore.

(** ** What creating and updating never do, and a lost connection *)

Lemma inside_tx_ok m qs :
  Forall (fun ev => outside_transaction ev = false) (tx_ok m qs).
Proof.
  induction qs as [| q qs IH]; [apply Forall_nil_2 |].
  apply Forall_cons. split; [done | apply IH].
Qed.

Section Footprint.

Variable Time : Type.
Variable Format : Time -> string -> string.
Variable Parse : string -> string -> list string.

(** Go through a log of [NewUser] or [updateUserPass]. *)
Ltac all_inside :=
  repeat first [ apply Forall_nil_2
               | apply Forall_cons; split; [reflexivity |]
               | apply Forall_app; split; [apply inside_tx_ok |] ].

(** X15.  [NewUser] runs nothing outside its transaction: it runs no
    statement at once, prepares none, opens no result set and makes no
    probe.  [updateUserPass] runs one thing at most outside its
    transaction: the probe for the principal, with the fixed query and the
    username, made on the connection before the transaction is begun;
    every other statement goes through the transaction. *)
Theorem create_and_update_outside_transaction (h : env) hist :
  (forall req : NewUserRequest Time,
      Forall (fun ev => outside_transaction ev = false)
             (run h (NewUser Time Format Parse req) hist).2) /\
  (forall username changePass,
      let tr := (run h (updateUserPass Parse username changePass) hist).2 in
      Forall (fun ev => outside_transaction ev = false) tr \/
      exists probe before after,
        tr = before ++
             Ev (QueryRowScan principalExistsSQL username) probe :: after /\
        Forall (fun ev => outside_transaction ev = false) before /\
        Forall (fun ev => outside_transaction ev = false) after /\
        omap begin_of before = []).
Proof.
  split.
  - intros req.
    pose proof (NewUser_run_cases Time Format Parse h req hist) as H.
    destruct (run h (NewUser Time Format Parse req) hist) as [[resp err] tr].
    cbn [fst snd] in *.
    inversion H; subst; unfold NewUser_opening; tidy_log; all_inside.
  - intros username changePass. cbn zeta.
    pose proof (updateUserPass_run_cases Parse h username changePass hist)
      as H.
    destruct (run h (updateUserPass Parse username changePass) hist)
      as [err tr].
    cbn [fst snd] in *.
    inversion H; subst; unfold updateUserPass_opening; tidy_log.
    1-2: left; all_inside.
    all: right;
      match goal with
      | |- context [Ev (QueryRowScan _ _) ?probe] =>
        exists probe, [Ev Lock tt; Ev Connection None]
      end;
      eexists; (split; [reflexivity |]);
      (split; [all_inside |]); (split; [all_inside | done]).
Qed.

(** X16.  When the connection cannot be had, every operation stops there,
    but they do not report it alike: [NewUser] and a [DeleteUser] with
    statements wrap the error as "unable to get connection", while
    [updateUserPass] and a [DeleteUser] without statements return it as it
    is.  [NewUser] and [updateUserPass] have taken the lock by then, and
    release it. *)
Theorem connection_failure (h : env) (e : collab_error) hist :
  (forall req : NewUserRequest Time,
      let out := run h (NewUser Time Format Parse req) hist in
      Some e ∈ omap connection_of out.2 ->
      (out.1).2 = Some (Errorf_w "unable to get connection: %w" (Ext e)) /\
      out.2 = [Ev Lock tt; Ev Connection (Some e); Ev Unlock tt]) /\
  (forall req : DeleteUserRequest,
      let out := run h (DeleteUser Parse req) hist in
      Some e ∈ omap connection_of out.2 ->
      (out.1).2 =
        Some (if (length (Commands (DeleteUser_Statements req)) =? 0)%nat
              then Ext e
              else Errorf_w "unable to get connection: %w" (Ext e)) /\
      out.2 = [Ev Connection (Some e)]) /\
  (forall username changePass,
      let out := run h (updateUserPass Parse username changePass) hist in
      Some e ∈ omap connection_of out.2 ->
      out.1 = Some (Ext e) /\
      out.2 = [Ev Lock tt; Ev Connection (Some e); Ev Unlock tt]).
Proof.
  split; [| split].
  - intros req. cbn zeta.
    pose proof (NewUser_run_cases Time Format Parse h req hist) as H.
    destruct (run h (NewUser Time Format Parse req) hist) as [[resp err] tr].
    cbn [fst snd] in *.
    inversion H; subst; unfold NewUser_opening;
      rewrite ?omap_app, ?connections_tx_ok; cbn;
      intros Hin; members Hin; done.
  - intros req. cbn zeta.
    destruct (DeleteUser_run_cases Parse h req hist)
      as [[Hcmds H] | [Hcmds [(cerr & Herr & Htr) | (rs & Herr & Htr)]]].
    + rewrite Hcmds. cbn [length Nat.eqb].
      destruct (run h (DeleteUser Parse req) hist) as [[resp err] tr].
      cbn [fst snd] in *.
      inversion H; subst; project; intros Hin; members Hin; done.
    + rewrite Htr, Herr. cbn. intros Hin; members Hin.
      by destruct (Commands (DeleteUser_Statements req)).
    + rewrite Htr. cbn. rewrite omap_db_events by done.
      intros Hin; members Hin.
  - intros username changePass. cbn zeta.
    pose proof (updateUserPass_run_cases Parse h username changePass hist)
      as H.
    destruct (run h (updateUserPass Parse username changePass) hist)
      as [err tr].
    cbn [fst snd] in *.
    inversion H; subst; unfold updateUserPass_opening;
      rewrite ?omap_app, ?connections_tx_ok; cbn;
      intros Hin; members Hin; done.
Qed.

End Footprint.

Section RotateSucceeds.

Variable Parse : string -> string -> list string.

(** X17.  Against an environment in which the connection, the probe, the
    transaction and every statement succeed, [updateUserPass] returns no
    error for every non-empty username and password, and the statements it
    ran are the pieces of the supplied templates, or of the default
    template when none is supplied, each with the map of [name],
    [username] and [password]. *)
Theorem updateUserPass_succeeds (h : env) (username : string)
    (changePass : ChangePassword) hist :
  let out := run h (updateUserPass Parse username changePass) hist in
  transactions_succeed h ->
  username <> "" -> NewPassword changePass <> "" ->
  out.1 = None /\
  (tx_execs out.2).*1 =
    (fun q => (updateUserPass_map username changePass, q)) <$>
    flat_map (queries_of Parse)
      (if (length (Commands (ChangePassword_Statements changePass)) =? 0)%nat
       then [alterLoginSQL]
       else Commands (ChangePassword_Statements changePass)).
Proof.
  cbn zeta. intros Hh Hu Hp.
  pose proof (updateUserPass_run_cases Parse h username changePass hist) as H.
  pose proof (run_answers h (updateUserPass Parse username changePass) hist)
    as Hans.
  destruct (run h (updateUserPass Parse username changePass) hist)
    as [err tr].
  cbn [fst snd] in *. unfold tx_execs.
  inversion H; subst; clear H.
  - by destruct H0.
  - apply Forall_cons in Hans as [_ [[hist' Hx] _]%Forall_cons].
    destruct (Hh hist') as (Hconn & _). congruence.
  - apply Forall_cons in Hans as [_ [_ [[hist' Hx] _]%Forall_cons]%Forall_cons].
    destruct (Hh hist') as (_ & _ & _ & _ & _ & Hprobe).
    destruct (Hprobe principalExistsSQL username); congruence.
  - apply Forall_cons in Hans
      as [_ [_ [_ [[hist' Hx] _]%Forall_cons]%Forall_cons]%Forall_cons].
    destruct (Hh hist') as (_ & Hbegin & _). congruence.
  - apply Forall_app in Hans as [_ [_ Hans]%Forall_app].
    apply Forall_cons in Hans as [[hist' Hx] _].
    destruct (Hh hist') as (_ & _ & _ & Hexec & _).
    rewrite Hexec in Hx. done.
  - apply Forall_app in Hans as [_ [_ Hans]%Forall_app].
    apply Forall_cons in Hans as [[hist' Hx] _].
    destruct (Hh hist') as (_ & _ & Hcommit & _). congruence.
  - split; [done |]. unfold updateUserPass_opening.
    rewrite !omap_app, tx_execs_tx_ok. cbn. rewrite app_nil_r.
    by rewrite <- list_fmap_compose.
Qed.

End RotateSucceeds.

(** [updateUserPass_succeeds] at work: the default template. *)
Lemma updateUserPass_succeeds_witness :
  let out :=
    run (scripted healthy)
        (updateUserPass strutil.ParseArbitraryStringSlice "v-app-svc-x7"
                        new_password) [] in
  transactions_succeed (scripted healthy) /\
  out.1 = None /\
  (tx_execs out.2).*1 =
    [(updateUserPass_map "v-app-svc-x7" new_password,
      "ALTER LOGIN [{{username}}] WITH PASSWORD = '{{password}}'")].
Proof.
  split; [apply healthy_transactions_succeed |].
  apply (updateUserPass_succeeds strutil.ParseArbitraryStringSlice
           (scripted healthy) "v-app-svc-x7" new_password []);
    [apply healthy_transactions_succeed | done | done].
Defined.

(** [updateUserPass_probe] at work: the probe finds no row, and the
    transaction is begun. *)
Lemma updateUserPass_probe_witness :
  let out :=
    run (scripted no_principal)
        (updateUserPass strutil.ParseArbitraryStringSlice "v-app-svc-x7"
                        new_password) [] in
  Some ErrNoRows ∈ omap probe_of out.2 /\
  omap probe_of out.2 = [Some ErrNoRows] /\
  exists b, omap begin_of out.2 = [b].
Proof.
  cbn zeta.
  assert (Hin : Some ErrNoRows ∈
    omap probe_of
      (run (scripted no_principal)
           (updateUserPass strutil.ParseArbitraryStringSlice "v-app-svc-x7"
                           new_password) []).2).
  { vm_compute. apply list_elem_of_here. }
  split; [exact Hin |].
  exact (updateUserPass_probe strutil.ParseArbitraryStringSlice
           (scripted no_principal) "v-app-svc-x7" new_password []
           (Some ErrNoRows) Hin).
Defined.

(** ** When the default revocation succeeds *)

Lemma scanSessions_inl rows acc err :
  scanSessions rows acc = inl err -> inl err ∈ rows.
Proof.
  revert acc. induction rows as [| [err' | id] rows IH]; intros acc; cbn.
  - done.
  - intros [= ->]. apply list_elem_of_here.
  - intros H. apply list_elem_of_further. by eapply IH.
Qed.

Lemma revocation_answers (h : env) (ev : event) :
  revocation_succeeds h -> answered_by h ev -> lets_revoke ev.
Proof.
  intros Hh. destruct ev as [X e x]. cbn. intros [hist' ->].
  destruct (Hh hist') as (Hc & Hp & Hx & Hd & Hs & Hm).
  by destruct e.
Qed.

(** A batch in which every statement was accepted. *)
Lemma db_events_all_ok m qs rs :
  Forall lets_revoke (db_events m qs rs) ->
  length rs = length qs ->
  omap id rs = [].
Proof.
  revert rs. induction qs as [| q qs IH]; intros [| r rs]; cbn; try done.
  intros [Hr Hans]%Forall_cons [= Hlen]. cbn in Hr. subst r. cbn.
  by apply IH.
Qed.

(** X18.  Against an environment in which the connection, every
    preparation and every statement succeed, both queries give rows that
    can all be scanned and the mapping rows report no error at their end,
    [revokeUserDefault] returns no error, and so does a [DeleteUser]
    without statements.  Nothing is asked of the error that the session
    rows report at their end: the function never looks at it. *)
Theorem revokeUserDefault_succeeds (h : env) (username : string) hist :
  revocation_succeeds h ->
  (run h (revokeUserDefault username) hist).1 = None /\
  forall Parse,
    ((run h (DeleteUser Parse
               {| DeleteUser_Username := username;
                  DeleteUser_Statements := {| Commands := [] |} |})
          hist).1).2 = None.
Proof.
  intros Hh.
  assert (Hnone : (run h (revokeUserDefault username) hist).1 = None).
  { pose proof (revokeUserDefault_run_cases h username hist) as H.
    pose proof (run_answers h (revokeUserDefault username) hist) as Hans.
    apply (Forall_impl _ lets_revoke) in Hans;
      [| intros ev; by apply revocation_answers].
    destruct (run h (revokeUserDefault username) hist) as [err tr].
    cbn [fst snd] in *.
    inversion H; subst; try done; exfalso;
      unfold revoke_mappings, revoke_sessions, revoke_disabled,
        close_mappings, close_sessions, close_disable in Hans;
      rewrite <- ?app_assoc in Hans; cbn [app] in Hans;
      repeat first [ rewrite Forall_cons in Hans
                   | rewrite Forall_app in Hans ];
      cbn [lets_revoke] in Hans;
      repeat match goal with
      | Hc : _ /\ _ |- _ => destruct Hc
      | Hc : exists _, _ |- _ => destruct Hc
      end;
      simplify_eq;
      try match goal with
      | Hs : scanSessions _ _ = inl _ |- _ =>
        apply scanSessions_inl in Hs; naive_solver
      | Hs : scanMappings _ _ _ = inl _ |- _ =>
        apply scanMappings_inl in Hs; naive_solver
      | Hl : last (omap id ?rs) = Some _,
        Hb : Forall _ (db_events _ _ ?rs) |- _ =>
        rewrite (db_events_all_ok _ _ rs Hb) in Hl; done
      end. }
  split; [done |]. intros Parse.
  unfold DeleteUser. cbn [Commands DeleteUser_Statements length Nat.eqb
                          DeleteUser_Username].
  rewrite run_bind. revert Hnone.
  by destruct (run h (revokeUserDefault username) hist) as [err tr]; cbn;
    intros ->.
Qed.

(** [revokeUserDefault_succeeds] at work: the rows of the sessions break
    off with an error, and the login is dropped all the same. *)
Lemma revokeUserDefault_succeeds_witness :
  revocation_succeeds (scripted stale_sessions) /\
  (omap sessions_of
     (run (scripted stale_sessions) (revokeUserDefault "v-app-svc-x7") []).2 =
     [broken_sessions] /\
   rows_err broken_sessions = Some (ErrOther "connection reset")) /\
  (run (scripted stale_sessions) (revokeUserDefault "v-app-svc-x7") []).1 =
    None /\
  forall Parse,
    ((run (scripted stale_sessions)
          (DeleteUser Parse
             {| DeleteUser_Username := "v-app-svc-x7";
                DeleteUser_Statements := {| Commands := [] |} |}) []).1).2 =
    None.
Proof.
  assert (H : revocation_succeeds (scripted stale_sessions)).
  { intros hist. repeat split; try done.
    - intros q arg. eexists. split; [reflexivity |].
      intros e Hin. cbn in Hin. members Hin.
    - intros q arg. eexists. split; [reflexivity |]. split; [| done].
      intros e Hin. cbn in Hin. members Hin. }
  split; [exact H |]. split; [by vm_compute |].
  exact (revokeUserDefault_succeeds (scripted stale_sessions)
           "v-app-svc-x7" [] H).
Defined.
